(** * CdkPipeline: dependency-order validation, asset publishing, stack outputs

    A shallow embedding of [packages/@aws-cdk/pipelines/lib/pipeline.ts]:
    the [CdkPipeline] construct and its private [AssetPublishing] helper.

    JavaScript objects that the code mutates and shares (pipeline stages,
    publishing actions) live in explicit stores and are referred to by their
    index in the store, so that reference identity ([indexOf], [===] on
    objects) and aliasing are visible.  A [throw] is an explicit completion
    that carries the state reached when the exception was raised. *)

From Stdlib Require Import ZArith List Bool Lia Ascii.
From stdpp Require Import gmap strings list fin_maps pretty.

Local Open Scope string_scope.
Local Open Scope list_scope.

(** ** JavaScript values used by the code *)

(** [if (x)] on an optional string: [undefined] and the empty string are
    falsy, every other string is truthy. *)
Definition truthy_string (x : option string) : bool :=
  match x with
  | None => false
  | Some s => negb (bool_decide (s = ""))
  end.

(** [if (x)] on an optional object reference: only [undefined] is falsy. *)
Definition truthy {A : Type} (x : option A) : bool :=
  match x with
  | None => false
  | Some _ => true
  end.

(** Completion of a call: a normal return or a thrown [Error(message)]. *)
Inductive Completion (A : Type) : Type :=
| Normal (a : A)
| Throw (message : string).
Arguments Normal {A} a.
Arguments Throw {A} message.

(** The properties that every object created by [{}] inherits from
    [Object.prototype] (ECMAScript, Annex B included). *)
Definition objectPrototypeProperties : list string :=
  [ "constructor"; "hasOwnProperty"; "isPrototypeOf"; "propertyIsEnumerable";
    "toLocaleString"; "toString"; "valueOf"; "__proto__";
    "__defineGetter__"; "__defineSetter__"; "__lookupGetter__"; "__lookupSetter__" ].

Definition inheritedName (key : string) : bool :=
  bool_decide (key ∈ objectPrototypeProperties).

(** What [obj[key]] gives on such an object whose own properties hold
    values of [A]: the own property, else what [Object.prototype] has under
    that name (a function, or the prototype itself), else [undefined]. *)
Inductive Property (A : Type) : Type :=
| Own (a : A)
| Inherited
| Undefined.
Arguments Own {A} a.
Arguments Inherited {A}.
Arguments Undefined {A}.

Definition getProperty {A : Type} (own : option A) (key : string) : Property A :=
  match own with
  | Some a => Own a
  | None => if inheritedName key then Inherited else Undefined
  end.

(** [if (x)] on the result of a lookup: only [undefined] is falsy. *)
Definition truthy_property {A : Type} (x : Property A) : bool :=
  match x with
  | Undefined => false
  | _ => true
  end.

(** ** Actions, stages and the CodePipeline under construction *)

Inductive AssetType := FILE | DOCKER_IMAGE.

#[global] Instance AssetType_eq_dec : EqDecision AssetType.
Proof. solve_decision. Defined.

(** The fields of [DeployCdkStackAction] that [pipeline.ts] reads. *)
Record DeployCdkStackAction := {
  stackName : string;
  stackArtifactId : string;
  dependencyStackArtifactIds : list string;
  prepareRunOrder : Z;
  executeRunOrder : Z
}.

(** A reference to an object in a store: its index. *)
Abbreviation Ref := nat (only parsing).

(** [codepipeline.IAction].  [isDeployAction] separates the classes with
    [instanceof]; here the class is the constructor.  A [PublishAssetsAction]
    is a mutable object and is held by reference. *)
Inductive IAction :=
| DeployAction (a : DeployCdkStackAction)
| PublishAction (r : Ref)
| UpdatePipelineAction (pipelineStackName : string) (projectName : option string)
| OtherAction (actionName : string).

Record Stage := {
  stageName : string;
  actions : list IAction
}.

(** [codepipeline.Pipeline]: the stage objects it has allocated and the
    private array [_stages] of references to them, in pipeline order. *)
Record Pipeline := {
  stageObjects : list Stage;
  _stages : list Ref
}.

(** [new codepipeline.Pipeline(...)]: no stage yet. *)
Definition Pipeline_new : Pipeline :=
  {| stageObjects := []; _stages := [] |}.

(** Modelled from the spec: [Pipeline.addStage] of the aws-codepipeline
    package is not part of the sources; section 6 describes the stage sink as
    [addStage(name) -> StageHandle], with the order of calls preserved.  The
    new stage object is allocated and appended; its handle is returned. *)
Definition Pipeline_addStage (p : Pipeline) (name : string) (acts : list IAction)
  : Pipeline * Ref :=
  ({| stageObjects := stageObjects p ++ [{| stageName := name; actions := acts |}];
      _stages := _stages p ++ [length (stageObjects p)] |},
   length (stageObjects p)).

(** Modelled from the spec: [IStage.addAction] appends to the stage's list,
    the order of calls preserved.  The stage is mutated in place, whether or
    not the pipeline still lists it. *)
Definition Stage_addAction (p : Pipeline) (r : Ref) (a : IAction) : Pipeline :=
  match stageObjects p !! r with
  | Some s =>
      {| stageObjects :=
           <[r := {| stageName := stageName s; actions := actions s ++ [a] |}]>
             (stageObjects p);
         _stages := _stages p |}
  | None => p
  end.

(** The getter [Pipeline.stages]: the stage objects in pipeline order. *)
Definition Pipeline_stages (p : Pipeline) : list Stage :=
  omap (fun r => stageObjects p !! r) (_stages p).

(** A caller-supplied pipeline is populated through [addStage] as well. *)
Definition Pipeline_of (stages : list Stage) : Pipeline :=
  fold_left (fun p s => fst (Pipeline_addStage p (stageName s) (actions s)))
            stages Pipeline_new.

Definition isDeployAction (a : IAction) : option DeployCdkStackAction :=
  match a with
  | DeployAction d => Some d
  | _ => None
  end.

(** [flatMap(xs, f)]. *)
Definition flatMap {A B : Type} (xs : list A) (f : A -> list B) : list B :=
  concat (map f xs).

(** ** Paths

    Node's [path] module on POSIX.  A path that has been through
    [path.resolve] is absolute and normalized; it is represented by its
    segments, so ["/tmp/cdk.out"] is [["tmp"; "cdk.out"]]. *)

Definition Path := list string.

Definition path_sep : string := "/".

Definition path_string (p : Path) : string := "/" +:+ String.concat "/" p.

(** [path.relative(from, to)] on resolved paths: drop the longest common
    prefix, climb out of what is left of [from], descend into what is left
    of [to]. *)
Fixpoint relative_segments (from to : Path) : list string :=
  match from, to with
  | f :: from', t :: to' =>
      if bool_decide (f = t) then relative_segments from' to'
      else repeat ".." (length from) ++ to
  | _, _ => repeat ".." (length from) ++ to
  end.

Definition path_relative (from to : Path) : string :=
  String.concat "/" (relative_segments from to).

(** [s.startsWith(prefix)]. *)
Definition startsWith (s prefix : string) : bool := String.prefix prefix s.

(** A segment of a resolved path: not empty, no separator inside, and
    neither ["."] nor [".."]. *)
Fixpoint has_sep (s : string) : bool :=
  match s with
  | EmptyString => false
  | String c s' => bool_decide (String c "" = path_sep) || has_sep s'
  end.

Definition valid_segment (s : string) : bool :=
  negb (bool_decide (s = "")) && negb (bool_decide (s = "."))
  && negb (bool_decide (s = "..")) && negb (has_sep s).

(** ** Asset publishing *)

#[global] Instance AssetType_countable : Countable AssetType.
Proof.
  refine (inj_countable'
            (fun t => match t with FILE => true | DOCKER_IMAGE => false end)
            (fun b : bool => if b then FILE else DOCKER_IMAGE) _).
  intros []; reflexivity.
Defined.

(** [codepipeline.Artifact]; objects are numbered in allocation order. *)
Record Artifact := {
  artifactObject : Ref;
  artifactName : option string
}.

(** The [iam.Role] built by [generateAssetRole]: its construct id and the
    publishing roles it may assume.  The remaining policy statements are
    fixed and play no part in the control flow. *)
Record Role := {
  roleConstructId : string;
  assumeRolePattern : string
}.

Record AssetPublishingCommand := {
  assetManifestPath : Path;
  assetId : string;
  assetSelector : string;
  assetType : AssetType
}.

(** A [PublishAssetsAction] object: the properties it is constructed with
    and the publishing commands it has accumulated, each the relative
    manifest path and the selector of one destination. *)
Record PublishAssetsAction := {
  constructId : string;
  actionName : string;
  cloudAssemblyInput : Artifact;
  action_cdkCliVersion : option string;
  action_assetType : AssetType;
  role : option Role;
  commands : list (string * string)
}.

(** Modelled from the spec: [PublishAssetsAction.addPublishCommand] is in
    lib/actions, which is not part of the sources.  Section 4.2 has the
    request's selector appended to the action keyed by its destination,
    insertion order preserved, and the operation idempotent per destination:
    a destination the action already holds is not entered again. *)
Definition addPublishCommand (a : PublishAssetsAction)
    (relativeManifestPath assetSelector : string) : PublishAssetsAction :=
  if existsb (fun e => bool_decide (e.2 = assetSelector)) (commands a) then a
  else {| constructId := constructId a;
          actionName := actionName a;
          cloudAssemblyInput := cloudAssemblyInput a;
          action_cdkCliVersion := action_cdkCliVersion a;
          action_assetType := action_assetType a;
          role := role a;
          commands := commands a ++ [(relativeManifestPath, assetSelector)] |}.

(** The state of [AssetPublishing].  [pipeline] is the one Pipeline object
    that [CdkPipeline._pipeline] refers to as well; [stage] is the reference
    to the Assets stage.  [publishActions] holds the [PublishAssetsAction]
    objects created so far ([publishers] and the stage refer into it) and
    [roles] the [iam.Role] constructs created so far, each with the asset
    type it was generated for.  [publishers] holds the own properties of
    the plain object; the code reads it with [publishers[assetId]], which
    is [getProperty]. *)
Record AssetPublishing := {
  publishers : gmap string Ref;
  assetRoles : gmap AssetType Role;
  myCxAsmRoot : Path;
  stage : Ref;
  pipeline : Pipeline;
  _fileAssetCtr : nat;
  _dockerAssetCtr : nat;
  props_cloudAssemblyInput : Artifact;
  props_cdkCliVersion : option string;
  props_projectName : option string;
  publishActions : list PublishAssetsAction;
  roles : list (AssetType * Role)
}.

Definition with_pipeline (this : AssetPublishing) (p : Pipeline) : AssetPublishing :=
  {| publishers := publishers this; assetRoles := assetRoles this;
     myCxAsmRoot := myCxAsmRoot this; stage := stage this; pipeline := p;
     _fileAssetCtr := _fileAssetCtr this; _dockerAssetCtr := _dockerAssetCtr this;
     props_cloudAssemblyInput := props_cloudAssemblyInput this;
     props_cdkCliVersion := props_cdkCliVersion this;
     props_projectName := props_projectName this;
     publishActions := publishActions this; roles := roles this |}.

Definition with_publishers (this : AssetPublishing) (m : gmap string Ref)
  : AssetPublishing :=
  {| publishers := m; assetRoles := assetRoles this;
     myCxAsmRoot := myCxAsmRoot this; stage := stage this; pipeline := pipeline this;
     _fileAssetCtr := _fileAssetCtr this; _dockerAssetCtr := _dockerAssetCtr this;
     props_cloudAssemblyInput := props_cloudAssemblyInput this;
     props_cdkCliVersion := props_cdkCliVersion this;
     props_projectName := props_projectName this;
     publishActions := publishActions this; roles := roles this |}.

Definition with_publishActions (this : AssetPublishing)
    (l : list PublishAssetsAction) : AssetPublishing :=
  {| publishers := publishers this; assetRoles := assetRoles this;
     myCxAsmRoot := myCxAsmRoot this; stage := stage this; pipeline := pipeline this;
     _fileAssetCtr := _fileAssetCtr this; _dockerAssetCtr := _dockerAssetCtr this;
     props_cloudAssemblyInput := props_cloudAssemblyInput this;
     props_cdkCliVersion := props_cdkCliVersion this;
     props_projectName := props_projectName this;
     publishActions := l; roles := roles this |}.

Definition with_counters (this : AssetPublishing) (f d : nat) : AssetPublishing :=
  {| publishers := publishers this; assetRoles := assetRoles this;
     myCxAsmRoot := myCxAsmRoot this; stage := stage this; pipeline := pipeline this;
     _fileAssetCtr := f; _dockerAssetCtr := d;
     props_cloudAssemblyInput := props_cloudAssemblyInput this;
     props_cdkCliVersion := props_cdkCliVersion this;
     props_projectName := props_projectName this;
     publishActions := publishActions this; roles := roles this |}.

Definition with_role (this : AssetPublishing) (t : AssetType) (r : Role)
  : AssetPublishing :=
  {| publishers := publishers this; assetRoles := <[t := r]> (assetRoles this);
     myCxAsmRoot := myCxAsmRoot this; stage := stage this; pipeline := pipeline this;
     _fileAssetCtr := _fileAssetCtr this; _dockerAssetCtr := _dockerAssetCtr this;
     props_cloudAssemblyInput := props_cloudAssemblyInput this;
     props_cdkCliVersion := props_cdkCliVersion this;
     props_projectName := props_projectName this;
     publishActions := publishActions this; roles := roles this ++ [(t, r)] |}.

(** [new AssetPublishing(scope, 'Assets', props)]: the Assets stage is added
    to the pipeline at once. *)
Definition AssetPublishing_new (outdir : Path) (cloudAssemblyInput : Artifact)
    (cdkCliVersion projectName : option string) (p : Pipeline) : AssetPublishing :=
  let '(p', st) := Pipeline_addStage p "Assets" [] in
  {| publishers := ∅; assetRoles := ∅;
     myCxAsmRoot := outdir; stage := st; pipeline := p';
     _fileAssetCtr := 1; _dockerAssetCtr := 1;
     props_cloudAssemblyInput := cloudAssemblyInput;
     props_cdkCliVersion := cdkCliVersion;
     props_projectName := projectName;
     publishActions := []; roles := [] |}.

(** [generateAssetRole]: one role per asset type, created on first use. *)
Definition generateAssetRole (this : AssetPublishing) (t : AssetType)
  : Role * AssetPublishing :=
  match assetRoles this !! t with
  | Some r => (r, this)
  | None =>
      let rolePrefix := if bool_decide (t = DOCKER_IMAGE) then "Docker" else "File" in
      let rolePattern :=
        if bool_decide (t = DOCKER_IMAGE)
        then "arn:*:iam::*:role/*-image-publishing-role-*"
        else "arn:*:iam::*:role/*-file-publishing-role-*" in
      let assetRole :=
        {| roleConstructId := rolePrefix +:+ "Role";
           assumeRolePattern := rolePattern |} in
      (assetRole, with_role this t assetRole)
  end.

Definition outsideAssemblyMessage (manifest root : Path) : string :=
  "The asset manifest (" +:+ path_string manifest
  +:+ ") cannot be outside the Cloud Assembly directory (" +:+ path_string root
  +:+ "). Please report this error at https://github.com/aws/aws-cdk/issues to help us debug why this is happening.".

(** [addPublishAssetAction]: make sure there is an action in the stage to
    publish the given asset, and add the command to it.  When
    [publishers[assetId]] finds an inherited property, no action is created
    and the call of [addPublishCommand] on what was found throws. *)
Definition addPublishAssetAction (this : AssetPublishing)
    (command : AssetPublishingCommand) : Completion unit * AssetPublishing :=
  let relativePath := path_relative (myCxAsmRoot this) (assetManifestPath command) in
  if startsWith relativePath (".." +:+ path_sep) then
    (Throw (outsideAssemblyMessage (assetManifestPath command) (myCxAsmRoot this)),
     this)
  else
    let this :=
      if negb (truthy (assetRoles this !! assetType command))
      then snd (generateAssetRole this (assetType command))
      else this in
    let action := getProperty (publishers this !! assetId command) (assetId command) in
    let '(action, this) :=
      if truthy_property action then (action, this)
      else
          let '(id, this) :=
            if bool_decide (assetType command = FILE)
            then ("FileAsset" +:+ pretty (_fileAssetCtr this),
                  with_counters this (S (_fileAssetCtr this)) (_dockerAssetCtr this))
            else ("DockerAsset" +:+ pretty (_dockerAssetCtr this),
                  with_counters this (_fileAssetCtr this) (S (_dockerAssetCtr this))) in
          let action := length (publishActions this) in
          let this :=
            with_publishActions this
              (publishActions this ++
                 [{| constructId := id;
                     actionName := id;
                     cloudAssemblyInput := props_cloudAssemblyInput this;
                     action_cdkCliVersion := props_cdkCliVersion this;
                     action_assetType := assetType command;
                     role := assetRoles this !! assetType command;
                     commands := [] |}]) in
          let this := with_publishers this (<[assetId command := action]> (publishers this)) in
          let this :=
            with_pipeline this
              (Stage_addAction (pipeline this) (stage this) (PublishAction action)) in
          (Own action, this) in
    match action with
    | Own action =>
        (Normal tt,
         with_publishActions this
           (alter (fun a => addPublishCommand a relativePath (assetSelector command))
                  action (publishActions this)))
    | _ => (Throw "TypeError: action.addPublishCommand is not a function", this)
    end.

(** The test of [addPublishAssetAction] on the manifest path of a request. *)
Definition escapes (root manifest : Path) : bool :=
  startsWith (path_relative root manifest) (".." +:+ path_sep).

(** The path a request's manifest is recorded under. *)
Definition relativeManifest (this : AssetPublishing) (c : AssetPublishingCommand)
  : string :=
  path_relative (myCxAsmRoot this) (assetManifestPath c).

(** [xs.indexOf(x)]: the first index holding [x], or -1. *)
Fixpoint indexOf (xs : list Ref) (x : Ref) : Z :=
  match xs with
  | [] => -1
  | y :: ys =>
      if bool_decide (y = x) then 0
      else let ix := indexOf ys x in if (ix >? -1)%Z then (ix + 1)%Z else -1
  end.

(** [removeAssetsStageIfEmpty]: drop the Assets stage from the pipeline's
    [_stages] array in place when no publisher was ever created. *)
Definition removeAssetsStageIfEmpty (this : AssetPublishing) : AssetPublishing :=
  if bool_decide (size (publishers this) = 0) then
    let stages := _stages (pipeline this) in
    let ix := indexOf stages (stage this) in
    if (ix >? -1)%Z then
      with_pipeline this
        {| stageObjects := stageObjects (pipeline this);
           _stages := delete (Z.to_nat ix) stages |}
    else this
  else this.

(** Requests issued one after the other; the first exception ends the run. *)
Fixpoint publishAll (this : AssetPublishing) (cs : list AssetPublishingCommand)
  : Completion unit * AssetPublishing :=
  match cs with
  | [] => (Normal tt, this)
  | c :: cs' =>
      match addPublishAssetAction this c with
      | (Normal _, this') => publishAll this' cs'
      | (Throw m, this') => (Throw m, this')
      end
  end.

(** ** The CdkPipeline construct *)

Record CdkPipelineProps := {
  sourceAction : option IAction;
  synthAction : option IAction;
  cloudAssemblyArtifact : Artifact;
  codePipeline : option Pipeline;
  pipelineName : option string;
  cdkCliVersion : option string
}.

(** What the constructor reads from its surroundings: whether the root of
    the construct tree is an [App], the resolved output directory of the
    assembly, and the name of the stack that holds the pipeline. *)
Record Env := {
  isApp : bool;
  outdir : Path;
  envStackName : string
}.

(** [Stack.of(cfnOutput).artifactId] and [cfnOutput.logicalId]. *)
Record CfnOutput := {
  output_stackArtifactId : string;
  logicalId : string
}.

(** [artifact.atPath(fileName)], as the pair it stands for. *)
Record ArtifactPath := {
  artifact : Artifact;
  fileName : string
}.

Record StackOutput := {
  stackOutputObject : Ref;
  artifactFile : ArtifactPath;
  outputName : string
}.

(** The state of a [CdkPipeline].  [_pipeline] is the Pipeline object held
    by [_assets].  [_outputArtifacts] keeps its properties in creation
    order, as [Object.keys] enumerates them (its keys are stack artifact
    ids, which start with a letter, so none is an array index that would be
    enumerated first).  [allocated] numbers the objects created by [new];
    objects that exist when the construct is created have smaller numbers.
    [warnings] are the annotations added to the construct. *)
Record CdkPipeline := {
  _assets : AssetPublishing;
  _outputArtifacts : list (string * Artifact);
  _cloudAssemblyArtifact : Artifact;
  allocated : nat;
  warnings : list string
}.

Definition _pipeline (this : CdkPipeline) : Pipeline := pipeline (_assets this).

Definition maybeSuffix (x : option string) (suffix : string) : option string :=
  match x with
  | None => None
  | Some x => Some (x +:+ suffix)
  end.

(** The constructor.  Besides the completion it gives the Pipeline object
    the construct was working on when it returned or threw: the caller's
    [codePipeline], or the one the constructor created, if any. *)
Definition CdkPipeline_new (env : Env) (props : CdkPipelineProps)
  : Completion CdkPipeline * option Pipeline :=
  if negb (isApp env) then
    (Throw "CdkPipeline must be created under an App", codePipeline props)
  else
    let chosen :=
      match codePipeline props with
      | Some cp =>
          if truthy_string (pipelineName props)
          then Throw "Cannot set 'pipelineName' if an existing CodePipeline is given using 'codePipeline'"
          else Normal cp
      | None => Normal Pipeline_new
      end in
    match chosen with
    | Throw m => (Throw m, codePipeline props)
    | Normal p =>
        let fewer (n : nat) :=
          match codePipeline props with
          | None => true
          | Some cp => bool_decide (length (Pipeline_stages cp) < n)
          end in
        if truthy (sourceAction props) && negb (truthy (synthAction props)) then
          (Throw "When passing a 'sourceAction' you must also pass a 'synthAction' (or a 'codePipeline' that already has both)",
           Some p)
        else if negb (truthy (sourceAction props)) && fewer 1 then
          (Throw "You must pass a 'sourceAction' (or a 'codePipeline' that already has a Source stage)",
           Some p)
        else if negb (truthy (synthAction props)) && fewer 2 then
          (Throw "You must pass a 'synthAction' (or a 'codePipeline' that already has a Build stage)",
           Some p)
        else
          let p :=
            match sourceAction props with
            | Some a => fst (Pipeline_addStage p "Source" [a])
            | None => p
            end in
          let p :=
            match synthAction props with
            | Some a => fst (Pipeline_addStage p "Build" [a])
            | None => p
            end in
          let p :=
            fst (Pipeline_addStage p "UpdatePipeline"
                   [UpdatePipelineAction (envStackName env)
                      (maybeSuffix (pipelineName props) "-selfupdate")]) in
          let assets :=
            AssetPublishing_new (outdir env) (cloudAssemblyArtifact props)
              (cdkCliVersion props) (maybeSuffix (pipelineName props) "-publish") p in
          (Normal {| _assets := assets;
                     _outputArtifacts := [];
                     _cloudAssemblyArtifact := cloudAssemblyArtifact props;
                     allocated := S (artifactObject (cloudAssemblyArtifact props));
                     warnings := [] |},
           Some (pipeline assets))
    end.

(** The own property [artifactId] of [_outputArtifacts], if there is one. *)
Definition outputArtifact (m : list (string * Artifact)) (artifactId : string)
  : option Artifact :=
  snd <$> find (fun e => bool_decide (e.1 = artifactId)) m.

(** [stackOutput]: the artifact of the stack is created on the first
    request and found on later ones; the [StackOutput] around it is created
    by [new] on every call.  When [_outputArtifacts[artifactId]] finds an
    inherited property, nothing is stored and the call of [atPath] on what
    was found throws, before the [StackOutput] is created. *)
Definition stackOutput (this : CdkPipeline) (cfnOutput : CfnOutput)
  : Completion StackOutput * CdkPipeline :=
  let artifactId := output_stackArtifactId cfnOutput in
  let '(outputs, n) :=
    if negb (truthy_property
               (getProperty (outputArtifact (_outputArtifacts this) artifactId) artifactId))
    then
      let a := {| artifactObject := allocated this;
                  artifactName := Some ("Artifact_" +:+ artifactId +:+ "_Outputs") |} in
      (_outputArtifacts this ++ [(artifactId, a)], S (allocated this))
    else (_outputArtifacts this, allocated this) in
  match getProperty (outputArtifact outputs artifactId) artifactId with
  | Own a =>
      (Normal {| stackOutputObject := n;
                 artifactFile := {| artifact := a; fileName := "outputs.json" |};
                 outputName := logicalId cfnOutput |},
       {| _assets := _assets this;
          _outputArtifacts := outputs;
          _cloudAssemblyArtifact := _cloudAssemblyArtifact this;
          allocated := S n;
          warnings := warnings this |})
  | _ =>
      (Throw "TypeError: this._outputArtifacts[stack.artifactId].atPath is not a function",
       this)
  end.

(** The getter [stackActions]: all deploy actions, in pipeline order. *)
Definition stackActions (this : CdkPipeline) : list DeployCdkStackAction :=
  flatMap (Pipeline_stages (_pipeline this))
          (fun s => omap isDeployAction (actions s)).

Definition notDeployedWarning (stackAction : DeployCdkStackAction) (depId : string)
  : string :=
  "Stack '" +:+ stackName stackAction +:+ "' depends on stack '" +:+ depId
  +:+ "', but that dependency is not deployed through the pipeline!".

Definition deployedBeforeError (stackAction depAction : DeployCdkStackAction)
  : string :=
  "Stack '" +:+ stackName stackAction +:+ "' depends on stack '"
  +:+ stackName depAction +:+ "', but is deployed before it in the pipeline!".

(** Modelled from the spec: [Annotations.of(this).addWarning] of the core
    package is not part of the sources; by sections 6 and 7 of the spec the
    warnings are a channel of their own, collected and not thrown.  Each call
    adds its message to the channel. *)
Definition Annotations_addWarning (channel : list string) (message : string)
  : list string :=
  channel ++ [message].

(** What a run of a validation generator leaves behind: the warnings it
    added to the construct and the strings it yielded. *)
Record Findings := {
  warned : list string;
  yielded : list string
}.

Definition noFindings : Findings := {| warned := []; yielded := [] |}.

(** The body of the inner loop of [validateDeployOrder]. *)
Definition checkDependency (stackActions : list DeployCdkStackAction)
    (stackAction : DeployCdkStackAction) (acc : Findings) (depId : string)
  : Findings :=
  match find (fun s => bool_decide (stackArtifactId s = depId)) stackActions with
  | None =>
      {| warned := Annotations_addWarning (warned acc)
                     (notDeployedWarning stackAction depId);
         yielded := yielded acc |}
  | Some depAction =>
      if negb (executeRunOrder depAction <? prepareRunOrder stackAction)%Z
      then {| warned := warned acc;
              yielded := yielded acc ++ [deployedBeforeError stackAction depAction] |}
      else acc
  end.

(** [validateDeployOrder], run to completion. *)
Definition validateDeployOrder (this : CdkPipeline) : Findings :=
  let stackActions := stackActions this in
  fold_left
    (fun acc stackAction =>
       fold_left (checkDependency stackActions stackAction)
                 (dependencyStackArtifactIds stackAction) acc)
    stackActions noFindings.

Definition outputNotDeployedError (artifactId : string) : string :=
  "Trying to use outputs for Stack '" +:+ artifactId
  +:+ "', but Stack is not deployed in this pipeline. Add it to the pipeline.".

(** [validateRequestedOutputs], run to completion. *)
Definition validateRequestedOutputs (this : CdkPipeline) : list string :=
  let artifactIds := map stackArtifactId (stackActions this) in
  fold_left
    (fun acc artifactId =>
       if negb (bool_decide (artifactId ∈ artifactIds))
       then acc ++ [outputNotDeployedError artifactId]
       else acc)
    (map fst (_outputArtifacts this)) [].

(** [validate]: the errors returned, and the construct with the warnings
    of the pass added. *)
Definition validate (this : CdkPipeline) : list string * CdkPipeline :=
  let order := validateDeployOrder this in
  let ret := [] ++ yielded order in
  let ret := ret ++ validateRequestedOutputs this in
  (ret,
   {| _assets := _assets this;
      _outputArtifacts := _outputArtifacts this;
      _cloudAssemblyArtifact := _cloudAssemblyArtifact this;
      allocated := allocated this;
      warnings := warnings this ++ warned order |}).

(** The findings of one dependency edge, taken by itself. *)
Definition edgeFindings (stackActions : list DeployCdkStackAction)
    (stackAction : DeployCdkStackAction) (depId : string) : Findings :=
  checkDependency stackActions stackAction noFindings depId.

(** The dependency edges in the order the validator visits them. *)
Definition edges (stackActions : list DeployCdkStackAction)
  : list (DeployCdkStackAction * string) :=
  flat_map (fun a => map (pair a) (dependencyStackArtifactIds a)) stackActions.

(** ** Invariants of the coordinator *)

(** Roles are created once per asset type and memoized: the log of created
    roles has one entry per type, it agrees with [assetRoles], and every
    publishing action carries the memoized role of its type. *)
Definition rolesMemoized (this : AssetPublishing) : Prop :=
  NoDup (map fst (roles this))
  /\ (forall t, t ∈ map fst (roles this) <-> is_Some (assetRoles this !! t))
  /\ (forall t r, (t, r) ∈ roles this -> assetRoles this !! t = Some r)
  /\ (forall a, a ∈ publishActions this ->
        is_Some (role a) /\ role a = assetRoles this !! action_assetType a).

(** The identity of a publishing action: its construct id and action name. *)
Definition identityToken (a : PublishAssetsAction) : string * string :=
  (constructId a, actionName a).

(** Two requests that differ at most in where the manifest lies. *)
Definition sameButSource (c1 c2 : AssetPublishingCommand) : Prop :=
  assetId c1 = assetId c2
  /\ assetSelector c1 = assetSelector c2
  /\ assetType c1 = assetType c2.

(** [prefix1], [prefix2], ..., [prefixn]. *)
Definition sequenceNames (prefix : string) (n : nat) : list string :=
  map (fun k => prefix +:+ pretty k) (seq 1 n).

Definition actionsOfType (t : AssetType) (this : AssetPublishing)
  : list PublishAssetsAction :=
  filter (fun a => action_assetType a = t) (publishActions this).

Definition namesNumbered (this : AssetPublishing) : Prop :=
  1 <= _fileAssetCtr this
  /\ 1 <= _dockerAssetCtr this
  /\ map actionName (actionsOfType FILE this)
     = sequenceNames "FileAsset" (_fileAssetCtr this - 1)
  /\ map actionName (actionsOfType DOCKER_IMAGE this)
     = sequenceNames "DockerAsset" (_dockerAssetCtr this - 1).

Definition sameTokens (s1 s2 : AssetPublishing) : Prop :=
  publishers s1 = publishers s2
  /\ _fileAssetCtr s1 = _fileAssetCtr s2
  /\ _dockerAssetCtr s1 = _dockerAssetCtr s2
  /\ map identityToken (publishActions s1) = map identityToken (publishActions s2).

(** The first request for each asset identity, in the order of the calls. *)
Fixpoint firstRequests (cs : list AssetPublishingCommand) : list AssetPublishingCommand :=
  match cs with
  | [] => []
  | c :: cs' => c :: filter (fun c' => assetId c' <> assetId c) (firstRequests cs')
  end.

(** The publishing actions are those of the asset identities requested,
    one per identity, in the order of the first requests: the k-th identity
    is bound to the k-th action created, which has the asset type of the
    first request for that identity, and no other identity is bound. *)
Definition assetsBound (requested : list AssetPublishingCommand)
    (this : AssetPublishing) : Prop :=
  map (fun c => publishers this !! assetId c) (firstRequests requested)
  = map Some (seq 0 (length (publishActions this)))
  /\ map action_assetType (publishActions this)
     = map assetType (firstRequests requested)
  /\ (forall id, is_Some (publishers this !! id) -> id ∈ map assetId requested).

(** Output handles requested one after the other; the first exception
    ends the run. *)
Fixpoint stackOutputs (this : CdkPipeline) (os : list CfnOutput)
  : Completion (list StackOutput) * CdkPipeline :=
  match os with
  | [] => (Normal [], this)
  | o :: os' =>
      match stackOutput this o with
      | (Normal h, this1) =>
          match stackOutputs this1 os' with
          | (Normal hs, this2) => (Normal (h :: hs), this2)
          | (Throw m, this2) => (Throw m, this2)
          end
      | (Throw m, this1) => (Throw m, this1)
      end
  end.

(** The artifacts of [_outputArtifacts]: one property per stack, one
    object per property, every object allocated earlier. *)
Definition outputsAllocated (this : CdkPipeline) : Prop :=
  NoDup (map fst (_outputArtifacts this))
  /\ NoDup (map (fun e => artifactObject e.2) (_outputArtifacts this))
  /\ Forall (fun e => artifactObject e.2 < allocated this) (_outputArtifacts this).

(** ** Inputs used in the examples below *)

Definition deploy (name : string) (deps : list string) (prepare execute : Z)
  : DeployCdkStackAction :=
  {| stackName := name; stackArtifactId := name;
     dependencyStackArtifactIds := deps;
     prepareRunOrder := prepare; executeRunOrder := execute |}.

Definition exampleArtifact : Artifact :=
  {| artifactObject := 0; artifactName := Some "CloudAsm" |}.

Definition exampleAssets (p : Pipeline) : AssetPublishing :=
  AssetPublishing_new ["tmp"; "cdk.out"] exampleArtifact None None p.

(** A CdkPipeline around a pipeline whose stages were filled by hand. *)
Definition pipelineWith (stages : list Stage) : CdkPipeline :=
  {| _assets := exampleAssets (Pipeline_of stages);
     _outputArtifacts := [];
     _cloudAssemblyArtifact := exampleArtifact;
     allocated := 1;
     warnings := [] |}.

(** Stack B is deployed twice, before and after stack A that depends on it. *)
Definition twiceDeployed : CdkPipeline :=
  pipelineWith
    [ {| stageName := "First"; actions := [DeployAction (deploy "B" [] 1 2)] |};
      {| stageName := "Second"; actions := [DeployAction (deploy "A" ["B"] 3 4)] |};
      {| stageName := "Third"; actions := [DeployAction (deploy "B" [] 5 6)] |} ].

(** Stack A depends on a stack that the pipeline does not deploy. *)
Definition externalDependency : CdkPipeline :=
  pipelineWith
    [ {| stageName := "Only";
         actions := [OtherAction "Approve"; DeployAction (deploy "A" ["Shared"] 1 2)] |} ].

(** A fresh coordinator on an empty pipeline, rooted at /tmp/cdk.out. *)
Definition freshAssets : AssetPublishing := exampleAssets Pipeline_new.

Definition request (manifest : Path) (id selector : string) (t : AssetType)
  : AssetPublishingCommand :=
  {| assetManifestPath := manifest; assetId := id;
     assetSelector := selector; assetType := t |}.

Definition inAssembly (file : string) : Path := ["tmp"; "cdk.out"; file].

(** A pipeline with two deployed stacks, one of which needs an output of the
    other. *)
Definition twoStacks : CdkPipeline :=
  pipelineWith
    [ {| stageName := "Beta";
         actions := [DeployAction (deploy "Api" [] 1 2);
                     DeployAction (deploy "Web" ["Api"] 3 4)] |} ].

Definition outputOf (stack name : string) : CfnOutput :=
  {| output_stackArtifactId := stack; logicalId := name |}.

Definition appEnv : Env :=
  {| isApp := true; outdir := ["tmp"; "cdk.out"]; envStackName := "PipelineStack" |}.

(** A pipeline the caller has built, with its Source and Build stages. *)
Definition ownPipeline : Pipeline :=
  Pipeline_of
    [ {| stageName := "Source"; actions := [OtherAction "GitHub"] |};
      {| stageName := "Build"; actions := [OtherAction "Synth"] |} ].

(** The caller's pipeline together with an empty pipeline name. *)
Definition emptyNameProps : CdkPipelineProps :=
  {| sourceAction := None; synthAction := None;
     cloudAssemblyArtifact := exampleArtifact;
     codePipeline := Some ownPipeline;
     pipelineName := Some "";
     cdkCliVersion := None |}.

(** A source action and no synth action. *)
Definition sourceOnlyProps : CdkPipelineProps :=
  {| sourceAction := Some (OtherAction "GitHub"); synthAction := None;
     cloudAssemblyArtifact := exampleArtifact;
     codePipeline := Some ownPipeline;
     pipelineName := None;
     cdkCliVersion := None |}.

(** A coordinator whose pipeline got one more stage after the Assets stage. *)
Definition withLaterStage : AssetPublishing :=
  with_pipeline freshAssets
    (fst (Pipeline_addStage (pipeline freshAssets) "Prod" [OtherAction "Approve"])).

(** ** Stages added to the pipeline, and the services they are given *)

(** A [CdkStage], by the properties [addStage] constructs it with.  Its
    [host] holds two closures over the construct; they are the functions
    [host_publishAsset] and [host_stackOutputArtifact] of the construct's
    current state. *)
Record CdkStage := {
  cdkStage_cloudAssemblyArtifact : Artifact;
  pipelineStage : Ref;
  cdkStage_stageName : string
}.

(** The construct together with its array of [CdkStage] objects (the
    field [_stages] of [CdkPipeline]; the Pipeline's array has that name
    here). *)
Record CdkPipelineStages := {
  construct : CdkPipeline;
  cdkStages : list CdkStage
}.

Definition with_assets (this : CdkPipeline) (a : AssetPublishing) : CdkPipeline :=
  {| _assets := a;
     _outputArtifacts := _outputArtifacts this;
     _cloudAssemblyArtifact := _cloudAssemblyArtifact this;
     allocated := allocated this;
     warnings := warnings this |}.

(** [host.publishAsset]: [addPublishAssetAction] bound to [_assets]. *)
Definition host_publishAsset (this : CdkPipeline) (command : AssetPublishingCommand)
  : Completion unit * CdkPipeline :=
  let '(r, a) := addPublishAssetAction (_assets this) command in
  (r, with_assets this a).

(** [host.stackOutputArtifact]: the lookup [_outputArtifacts[artifactId]]
    at the time of the call. *)
Definition host_stackOutputArtifact (this : CdkPipeline) (artifactId : string)
  : Property Artifact :=
  getProperty (outputArtifact (_outputArtifacts this) artifactId) artifactId.

(** [addStage]: a new, empty stage at the end of the pipeline and the
    [CdkStage] around it. *)
Definition addStage (this : CdkPipelineStages) (stageName : string)
  : CdkStage * CdkPipelineStages :=
  let '(p, pipelineStage) :=
    Pipeline_addStage (_pipeline (construct this)) stageName [] in
  let stage :=
    {| cdkStage_cloudAssemblyArtifact := _cloudAssemblyArtifact (construct this);
       pipelineStage := pipelineStage;
       cdkStage_stageName := stageName |} in
  (stage,
   {| construct := with_assets (construct this) (with_pipeline (_assets (construct this)) p);
      cdkStages := cdkStages this ++ [stage] |}).

(** What the owner of a pipeline and its stages do to it, in any order. *)
Inductive Operation :=
| AddStage (stageName : string)
| PublishAsset (command : AssetPublishingCommand)
| RequestOutput (cfnOutput : CfnOutput).

Definition perform (this : CdkPipelineStages) (op : Operation)
  : Completion unit * CdkPipelineStages :=
  match op with
  | AddStage stageName => (Normal tt, (addStage this stageName).2)
  | PublishAsset command =>
      let '(r, c) := host_publishAsset (construct this) command in
      (r, {| construct := c; cdkStages := cdkStages this |})
  | RequestOutput cfnOutput =>
      let '(r, c) := stackOutput (construct this) cfnOutput in
      (match r with Normal _ => Normal tt | Throw m => Throw m end,
       {| construct := c; cdkStages := cdkStages this |})
  end.

(** Operations one after the other; the first exception ends the run. *)
Fixpoint performAll (this : CdkPipelineStages) (ops : list Operation)
  : Completion unit * CdkPipelineStages :=
  match ops with
  | [] => (Normal tt, this)
  | op :: ops' =>
      match perform this op with
      | (Normal _, this') => performAll this' ops'
      | (Throw m, this') => (Throw m, this')
      end
  end.

(** The construct when the coordinator has created the role of an asset
    type and nothing else has happened. *)
Definition withRole (this : CdkPipelineStages) (t : AssetType) : CdkPipelineStages :=
  {| construct :=
       with_assets (construct this) (generateAssetRole (_assets (construct this)) t).2;
     cdkStages := cdkStages this |}.

(** The publish requests among the operations, in their order. *)
Definition publishRequests (ops : list Operation) : list AssetPublishingCommand :=
  omap (fun op => match op with PublishAsset c => Some c | _ => None end) ops.

(** The names of the stages added among the operations, in their order. *)
Definition addedStages (ops : list Operation) : list string :=
  omap (fun op => match op with AddStage n => Some n | _ => None end) ops.

(** The construct as the constructor returns it, no stage added yet. *)
Definition constructed (this : CdkPipeline) : CdkPipelineStages :=
  {| construct := this; cdkStages := [] |}.

(** The publish commands an action has received from the given requests. *)
Definition received (root : Path) (requests : list AssetPublishingCommand)
    (a : PublishAssetsAction) : PublishAssetsAction :=
  fold_left
    (fun a c => addPublishCommand a (path_relative root (assetManifestPath c))
                                  (assetSelector c))
    requests a.

(** Three stacks: B and C both depend on A and are deployed side by side
    after it. *)
Definition diamond : CdkPipeline :=
  pipelineWith
    [ {| stageName := "Base"; actions := [DeployAction (deploy "A" [] 1 2)] |};
      {| stageName := "Apps";
         actions := [DeployAction (deploy "B" ["A"] 3 4);
                     DeployAction (deploy "C" ["A"] 3 4)] |} ].

(** A stack that lists itself among its dependencies. *)
Definition selfDependent : CdkPipeline :=
  pipelineWith
    [ {| stageName := "Only"; actions := [DeployAction (deploy "A" ["A"] 1 2)] |} ].

(** A source and a synth action, no pipeline of the caller's. *)
Definition bothActionsProps : CdkPipelineProps :=
  {| sourceAction := Some (OtherAction "GitHub");
     synthAction := Some (OtherAction "Synth");
     cloudAssemblyArtifact := exampleArtifact;
     codePipeline := None;
     pipelineName := Some "Main";
     cdkCliVersion := None |}.

(** ** Invariants of the construct under any operations *)

(** Publishers and publishing actions correspond one to one. *)
Definition registryConsistent (a : AssetPublishing) : Prop :=
  (forall id r, publishers a !! id = Some r -> r < length (publishActions a))
  /\ (forall id1 id2 r,
        publishers a !! id1 = Some r -> publishers a !! id2 = Some r -> id1 = id2)
  /\ (forall r, r < length (publishActions a) -> exists id, publishers a !! id = Some r).

(** The pipeline lists, each once, the stages [base] that were there before
    the coordinator, the Assets stage, and the stages added since, in this
    order.  The Assets stage holds the publishing actions in the order of
    their creation; the added stages are empty. *)
Definition stagesInPlace (base : list nat) (this : CdkPipelineStages) : Prop :=
  _stages (_pipeline (construct this))
  = base ++ [stage (_assets (construct this))] ++ map pipelineStage (cdkStages this)
  /\ NoDup (_stages (_pipeline (construct this)))
  /\ Forall (fun r => r < length (stageObjects (_pipeline (construct this))))
            (_stages (_pipeline (construct this)))
  /\ stageObjects (_pipeline (construct this)) !! stage (_assets (construct this))
     = Some {| stageName := "Assets";
               actions := map PublishAction
                            (seq 0 (length (publishActions (_assets (construct this))))) |}
  /\ Forall (fun s => stageObjects (_pipeline (construct this)) !! pipelineStage s
                      = Some {| stageName := cdkStage_stageName s; actions := [] |})
            (cdkStages this).

(** Requests are grouped by asset: an asset without request has no
    publisher; an asset with requests has one action, created for the type
    of the first request, which has received the commands of exactly the
    requests for that asset, in their order. *)
Definition grouped (processed : list AssetPublishingCommand) (a : AssetPublishing)
  : Prop :=
  forall id,
    match filter (fun c => assetId c = id) processed with
    | [] => publishers a !! id = None
    | c0 :: rest =>
        exists r a0,
          publishers a !! id = Some r
          /\ commands a0 = []
          /\ action_assetType a0 = assetType c0
          /\ publishActions a !! r = Some (received (myCxAsmRoot a) (c0 :: rest) a0)
    end.

(** The ids of the constructs created under the coordinator: the roles
    and the publishing actions. *)
Definition childConstructIds (a : AssetPublishing) : list string :=
  map (fun e => roleConstructId e.2) (roles a) ++ map constructId (publishActions a).

(** How the ids are formed. *)
Definition idsFormed (a : AssetPublishing) : Prop :=
  (forall t r, (t, r) ∈ roles a ->
        roleConstructId r
        = (if bool_decide (t = DOCKER_IMAGE) then "Docker" else "File") +:+ "Role")
  /\ (forall x, x ∈ publishActions a ->
        exists k,
          (if bool_decide (action_assetType x = FILE)
           then k < _fileAssetCtr a else k < _dockerAssetCtr a)
          /\ constructId x
             = (if bool_decide (action_assetType x = FILE)
                then "FileAsset" else "DockerAsset") +:+ pretty k)
  /\ NoDup (map constructId (publishActions a)).

(** A session: stages of two applications are added, their assets
    published and an output requested along the way. *)
Definition session : list Operation :=
  [ AddStage "Beta";
    PublishAsset (request (inAssembly "beta.json") "a1" "a1:d1" FILE);
    PublishAsset (request (inAssembly "beta.json") "b1" "b1:d1" DOCKER_IMAGE);
    RequestOutput (outputOf "Api" "Url");
    AddStage "Prod";
    PublishAsset (request (inAssembly "prod.json") "a1" "a1:d2" FILE);
    PublishAsset (request (inAssembly "prod.json") "a2" "a2:d1" FILE) ].

(** A pipeline lists each of its stages once, and only stages it has. *)
Definition wellListed (p : Pipeline) : Prop :=
  NoDup (_stages p)
  /\ Forall (fun r => r < length (stageObjects p)) (_stages p).

(** The construct built from [bothActionsProps]. *)
Definition builtPipeline : CdkPipeline :=
  match (CdkPipeline_new appEnv bothActionsProps).1 with
  | Normal this => this
  | Throw _ => pipelineWith []
  end.

(** The stacks whose outputs are requested among the operations. *)
Definition requestedOutputs (ops : list Operation) : list string :=
  omap (fun op => match op with
                  | RequestOutput o => Some (output_stackArtifactId o)
                  | _ => None
                  end) ops.

(** Every artifact of [_outputArtifacts] carries the name made from its
    stack's artifact id. *)
Definition outputsNamed (this : CdkPipeline) : Prop :=
  forall k a, (k, a) ∈ _outputArtifacts this ->
              artifactName a = Some ("Artifact_" +:+ k +:+ "_Outputs").

(** * Theorems *)

(** ** The dependency-order validator *)

Lemma checkDependency_acc acts a acc d :
  warned (checkDependency acts a acc d)
    = warned acc ++ warned (edgeFindings acts a d)
  /\ yielded (checkDependency acts a acc d)
    = yielded acc ++ yielded (edgeFindings acts a d).
Proof.
  unfold edgeFindings, checkDependency, Annotations_addWarning.
  destruct (find _ acts) as [dep|]; simpl.
  - destruct (negb _); simpl; rewrite ?app_nil_r; auto.
  - rewrite ?app_nil_r; auto.
Qed.

Lemma dependencies_fold acts a ds : forall acc,
  warned (fold_left (checkDependency acts a) ds acc)
    = warned acc ++ flat_map (fun d => warned (edgeFindings acts a d)) ds
  /\ yielded (fold_left (checkDependency acts a) ds acc)
    = yielded acc ++ flat_map (fun d => yielded (edgeFindings acts a d)) ds.
Proof.
  induction ds as [|d ds IH]; intros acc; simpl.
  - rewrite !app_nil_r; auto.
  - destruct (IH (checkDependency acts a acc d)) as [Hw Hy].
    destruct (checkDependency_acc acts a acc d) as [Hw1 Hy1].
    rewrite Hw, Hy, Hw1, Hy1, <- !app_assoc; auto.
Qed.

Lemma flat_map_edges {B : Type} (f : DeployCdkStackAction * string -> list B) l :
  flat_map f (edges l)
  = flat_map (fun a => flat_map (fun d => f (a, d)) (dependencyStackArtifactIds a)) l.
Proof.
  unfold edges. induction l as [|a l IH]; simpl; [reflexivity|].
  rewrite flat_map_app, IH. f_equal.
  induction (dependencyStackArtifactIds a) as [|d ds IHd]; simpl; congruence.
Qed.

Lemma actions_fold acts l : forall acc,
  let r := fold_left
             (fun acc a =>
                fold_left (checkDependency acts a) (dependencyStackArtifactIds a) acc)
             l acc in
  warned r = warned acc ++ flat_map (fun e => warned (edgeFindings acts e.1 e.2)) (edges l)
  /\ yielded r
     = yielded acc ++ flat_map (fun e => yielded (edgeFindings acts e.1 e.2)) (edges l).
Proof.
  rewrite !flat_map_edges.
  induction l as [|a l IH]; intros acc; simpl.
  - rewrite !app_nil_r; auto.
  - destruct (IH (fold_left (checkDependency acts a) (dependencyStackArtifactIds a) acc))
      as [Hw Hy].
    destruct (dependencies_fold acts a (dependencyStackArtifactIds a) acc) as [Hw1 Hy1].
    simpl in Hw, Hy. rewrite Hw, Hy, Hw1, Hy1, <- !app_assoc; auto.
Qed.

(** The validator's output is the concatenation, in visiting order, of the
    findings of the single edges. *)
Lemma validateDeployOrder_edges this :
  warned (validateDeployOrder this)
    = flat_map (fun e => warned (edgeFindings (stackActions this) e.1 e.2))
               (edges (stackActions this))
  /\ yielded (validateDeployOrder this)
    = flat_map (fun e => yielded (edgeFindings (stackActions this) e.1 e.2))
               (edges (stackActions this)).
Proof.
  unfold validateDeployOrder.
  exact (actions_fold (stackActions this) (stackActions this) noFindings).
Qed.

Lemma find_first_match (acts before after : list DeployCdkStackAction) D d :
  acts = before ++ D :: after ->
  stackArtifactId D = d ->
  (forall x, In x before -> stackArtifactId x <> d) ->
  find (fun s => bool_decide (stackArtifactId s = d)) acts = Some D.
Proof.
  intros -> HD. induction before as [|x before IH]; intros Hb; simpl.
  - rewrite bool_decide_eq_true_2; auto.
  - rewrite bool_decide_eq_false_2 by (apply Hb; left; reflexivity).
    apply IH. intros y Hy. apply Hb. right; exact Hy.
Qed.

Lemma find_no_match (acts : list DeployCdkStackAction) d :
  (forall D, In D acts -> stackArtifactId D <> d) ->
  find (fun s => bool_decide (stackArtifactId s = d)) acts = None.
Proof.
  induction acts as [|x acts IH]; intros H; simpl; [reflexivity|].
  rewrite bool_decide_eq_false_2 by (apply H; left; reflexivity).
  apply IH. intros D HD. apply H. right; exact HD.
Qed.

(** An edge whose dependency the lookup finds. *)
Lemma edgeFindings_found acts a d D :
  find (fun s => bool_decide (stackArtifactId s = d)) acts = Some D ->
  warned (edgeFindings acts a d) = []
  /\ (yielded (edgeFindings acts a d) = [deployedBeforeError a D]
      <-> ~ (executeRunOrder D < prepareRunOrder a)%Z)
  /\ (yielded (edgeFindings acts a d) = []
      <-> (executeRunOrder D < prepareRunOrder a)%Z).
Proof.
  intros Hfind. unfold edgeFindings, checkDependency. rewrite Hfind.
  destruct (Z.ltb_spec (executeRunOrder D) (prepareRunOrder a)) as [Hlt|Hge]; simpl;
    repeat split; auto; try (intros; lia); try discriminate.
Qed.

(** C1 (as amended).  Let [a] be a deploy action of the pipeline, [d] one of
    its dependencies, and [D] the first deploy action in pipeline order whose
    [stackArtifactId] is [d].  The edge adds no warning, and it yields the
    ordering error naming [a] and [D] exactly when
    [executeRunOrder D < prepareRunOrder a] fails (equal orders included);
    when the strict inequality holds it yields nothing.  The errors of the
    whole pass are the errors of the edges, in visiting order. *)
Theorem validateDeployOrder_first_deployment
    (this : CdkPipeline) (a D : DeployCdkStackAction) (d : string)
    (before after : list DeployCdkStackAction) :
  In a (stackActions this) ->
  In d (dependencyStackArtifactIds a) ->
  stackActions this = before ++ D :: after ->
  stackArtifactId D = d ->
  (forall x, In x before -> stackArtifactId x <> d) ->
  warned (edgeFindings (stackActions this) a d) = []
  /\ (yielded (edgeFindings (stackActions this) a d) = [deployedBeforeError a D]
      <-> ~ (executeRunOrder D < prepareRunOrder a)%Z)
  /\ (yielded (edgeFindings (stackActions this) a d) = []
      <-> (executeRunOrder D < prepareRunOrder a)%Z)
  /\ yielded (validateDeployOrder this)
     = flat_map (fun e => yielded (edgeFindings (stackActions this) e.1 e.2))
                (edges (stackActions this)).
Proof.
  intros _ _ Hsplit HD Hfirst.
  pose proof (find_first_match _ _ _ _ _ Hsplit HD Hfirst) as Hfind.
  destruct (edgeFindings_found _ a d D Hfind) as (Hw & Hy & Hn).
  repeat split; auto; try apply Hy; try apply Hn.
  apply validateDeployOrder_edges.
Qed.

Lemma validateDeployOrder_first_deployment_witness :
  warned (edgeFindings (stackActions twiceDeployed) (deploy "A" ["B"] 3 4) "B") = []
  /\ (yielded (edgeFindings (stackActions twiceDeployed) (deploy "A" ["B"] 3 4) "B")
        = [deployedBeforeError (deploy "A" ["B"] 3 4) (deploy "B" [] 1 2)]
      <-> ~ (2 < 3)%Z)
  /\ (yielded (edgeFindings (stackActions twiceDeployed) (deploy "A" ["B"] 3 4) "B") = []
      <-> (2 < 3)%Z)
  /\ yielded (validateDeployOrder twiceDeployed)
     = flat_map (fun e => yielded (edgeFindings (stackActions twiceDeployed) e.1 e.2))
                (edges (stackActions twiceDeployed)).
Proof.
  apply (validateDeployOrder_first_deployment twiceDeployed
           (deploy "A" ["B"] 3 4) (deploy "B" [] 1 2) "B"
           [] [deploy "A" ["B"] 3 4; deploy "B" [] 5 6]).
  - vm_compute. right; left; reflexivity.
  - simpl. left; reflexivity.
  - vm_compute. reflexivity.
  - reflexivity.
  - intros x [].
Defined.

(** C1 (as stated) fails when a stack is deployed twice: the second
    deployment of B has the identity the edge A -> B asks for and its
    execution order 6 is not below A's preparation order 3, yet the pass
    yields no error, because only the first deployment of B is looked at. *)
Lemma validateDeployOrder_later_deployment_ignored :
  In (deploy "A" ["B"] 3 4) (stackActions twiceDeployed)
  /\ In "B" (dependencyStackArtifactIds (deploy "A" ["B"] 3 4))
  /\ In (deploy "B" [] 5 6) (stackActions twiceDeployed)
  /\ stackArtifactId (deploy "B" [] 5 6) = "B"
  /\ ~ (executeRunOrder (deploy "B" [] 5 6) < prepareRunOrder (deploy "A" ["B"] 3 4))%Z
  /\ yielded (edgeFindings (stackActions twiceDeployed) (deploy "A" ["B"] 3 4) "B") = []
  /\ yielded (validateDeployOrder twiceDeployed) = [].
Proof.
  repeat split; try reflexivity.
  - vm_compute. right; left; reflexivity.
  - simpl. left; reflexivity.
  - vm_compute. right; right; left; reflexivity.
  - simpl. lia.
Qed.

(** When every stack is deployed at most once, the deployment of a
    dependency is the one the validator looks at: for a deploy action [a],
    a dependency [d] of it and the deploy action [D] of [d], the edge yields
    the ordering error naming [a] and [D] exactly when
    [executeRunOrder D < prepareRunOrder a] fails, and nothing when it
    holds. *)
Theorem validateDeployOrder_unique_deployments
    (this : CdkPipeline) (a D : DeployCdkStackAction) (d : string) :
  NoDup (map stackArtifactId (stackActions this)) ->
  In a (stackActions this) ->
  In d (dependencyStackArtifactIds a) ->
  In D (stackActions this) ->
  stackArtifactId D = d ->
  warned (edgeFindings (stackActions this) a d) = []
  /\ (yielded (edgeFindings (stackActions this) a d) = [deployedBeforeError a D]
      <-> ~ (executeRunOrder D < prepareRunOrder a)%Z)
  /\ (yielded (edgeFindings (stackActions this) a d) = []
      <-> (executeRunOrder D < prepareRunOrder a)%Z).
Proof.
  intros Hnd _ _ HD Hid.
  destruct (in_split _ _ HD) as (before & after & Hsplit).
  apply edgeFindings_found.
  apply (find_first_match _ before after D d Hsplit Hid).
  intros x Hx Heq. rewrite Hsplit, map_app in Hnd.
  apply NoDup_app in Hnd as (_ & Hdisj & _).
  apply (Hdisj (stackArtifactId x)).
  - apply list_elem_of_fmap. exists x. split; [reflexivity|]. apply list_elem_of_In, Hx.
  - simpl. apply elem_of_cons. left. congruence.
Qed.

Lemma validateDeployOrder_unique_deployments_witness :
  yielded (edgeFindings (stackActions twoStacks) (deploy "Web" ["Api"] 3 4) "Api") = []
  <-> (2 < 3)%Z.
Proof.
  apply (validateDeployOrder_unique_deployments twoStacks
           (deploy "Web" ["Api"] 3 4) (deploy "Api" [] 1 2) "Api").
  - vm_compute. repeat constructor; intros H; repeat (apply elem_of_cons in H as [H|H]; try discriminate); inversion H.
  - vm_compute. right; left; reflexivity.
  - simpl. left; reflexivity.
  - vm_compute. left; reflexivity.
  - reflexivity.
Defined.

(** C5.  Let [a] be a deploy action of the pipeline and [d] one of its
    dependencies that no deploy action of the pipeline deploys.  The edge
    adds exactly one warning, naming [a] and [d], and yields no error.  The
    warnings and the errors of the pass are those of the edges, in visiting
    order; [validate] returns the errors and adds the warnings to the
    construct, where they block nothing. *)
Theorem validateDeployOrder_missing_dependency
    (this : CdkPipeline) (a : DeployCdkStackAction) (d : string) :
  In a (stackActions this) ->
  In d (dependencyStackArtifactIds a) ->
  (forall D, In D (stackActions this) -> stackArtifactId D <> d) ->
  edgeFindings (stackActions this) a d
    = {| warned := [notDeployedWarning a d]; yielded := [] |}
  /\ warned (validateDeployOrder this)
     = flat_map (fun e => warned (edgeFindings (stackActions this) e.1 e.2))
                (edges (stackActions this))
  /\ yielded (validateDeployOrder this)
     = flat_map (fun e => yielded (edgeFindings (stackActions this) e.1 e.2))
                (edges (stackActions this))
  /\ (validate this).1
     = yielded (validateDeployOrder this) ++ validateRequestedOutputs this
  /\ warnings (validate this).2
     = warnings this ++ warned (validateDeployOrder this).
Proof.
  intros _ _ Hnone.
  destruct (validateDeployOrder_edges this) as [Hw Hy].
  repeat split; auto.
  unfold edgeFindings, checkDependency.
  rewrite (find_no_match _ _ Hnone). reflexivity.
Qed.

Lemma validateDeployOrder_missing_dependency_witness :
  edgeFindings (stackActions externalDependency) (deploy "A" ["Shared"] 1 2) "Shared"
    = {| warned := [notDeployedWarning (deploy "A" ["Shared"] 1 2) "Shared"];
         yielded := [] |}
  /\ (validate externalDependency).1 = []
  /\ warnings (validate externalDependency).2
     = ["Stack 'A' depends on stack 'Shared', but that dependency is not deployed through the pipeline!"].
Proof.
  destruct (validateDeployOrder_missing_dependency externalDependency
              (deploy "A" ["Shared"] 1 2) "Shared") as (He & _ & _ & _ & _).
  - vm_compute. left; reflexivity.
  - simpl. left; reflexivity.
  - intros D HD. vm_compute in HD. destruct HD as [<-|[]]. discriminate.
  - split; [exact He|]. split; reflexivity.
Defined.

(** ** Asset publishing: one request *)

Lemma alter_snoc {A : Type} (f : A -> A) (l : list A) (x : A) :
  alter f (length l) (l ++ [x]) = l ++ [f x].
Proof. induction l as [|y l IH]; simpl; [reflexivity|]. f_equal. exact IH. Qed.

(** A request whose path fails the test throws, and nothing has changed. *)
Lemma request_throws this c :
  escapes (myCxAsmRoot this) (assetManifestPath c) = true ->
  addPublishAssetAction this c
  = (Throw (outsideAssemblyMessage (assetManifestPath c) (myCxAsmRoot this)), this).
Proof.
  unfold escapes, addPublishAssetAction. intros ->. reflexivity.
Qed.

(** Creating a role touches nothing but the roles. *)
Lemma generateAssetRole_fields this t :
  publishers (generateAssetRole this t).2 = publishers this
  /\ pipeline (generateAssetRole this t).2 = pipeline this
  /\ stage (generateAssetRole this t).2 = stage this
  /\ _fileAssetCtr (generateAssetRole this t).2 = _fileAssetCtr this
  /\ _dockerAssetCtr (generateAssetRole this t).2 = _dockerAssetCtr this
  /\ publishActions (generateAssetRole this t).2 = publishActions this
  /\ myCxAsmRoot (generateAssetRole this t).2 = myCxAsmRoot this.
Proof.
  unfold generateAssetRole. destruct (assetRoles this !! t); simpl; repeat split.
Qed.

(** What a request does that passes the test and whose asset id finds a
    publishing action or nothing, field by field. *)
Lemma request_normal this c :
  escapes (myCxAsmRoot this) (assetManifestPath c) = false ->
  (publishers this !! assetId c = None -> inheritedName (assetId c) = false) ->
  exists this',
    addPublishAssetAction this c = (Normal tt, this')
    /\ myCxAsmRoot this' = myCxAsmRoot this
    /\ stage this' = stage this
    /\ assetRoles this'
       = match assetRoles this !! assetType c with
         | Some _ => assetRoles this
         | None =>
             <[assetType c := (generateAssetRole this (assetType c)).1]> (assetRoles this)
         end
    /\ roles this'
       = match assetRoles this !! assetType c with
         | Some _ => roles this
         | None => roles this ++ [(assetType c, (generateAssetRole this (assetType c)).1)]
         end
    /\ match publishers this !! assetId c with
       | Some r =>
           publishers this' = publishers this
           /\ pipeline this' = pipeline this
           /\ _fileAssetCtr this' = _fileAssetCtr this
           /\ _dockerAssetCtr this' = _dockerAssetCtr this
           /\ publishActions this'
              = alter (fun a => addPublishCommand a (relativeManifest this c) (assetSelector c))
                      r (publishActions this)
       | None =>
           publishers this' = <[assetId c := length (publishActions this)]> (publishers this)
           /\ pipeline this'
              = Stage_addAction (pipeline this) (stage this)
                  (PublishAction (length (publishActions this)))
           /\ _fileAssetCtr this'
              = (if bool_decide (assetType c = FILE)
                 then S (_fileAssetCtr this) else _fileAssetCtr this)
           /\ _dockerAssetCtr this'
              = (if bool_decide (assetType c = FILE)
                 then _dockerAssetCtr this else S (_dockerAssetCtr this))
           /\ exists a,
                publishActions this' = publishActions this ++ [a]
                /\ actionName a
                   = (if bool_decide (assetType c = FILE)
                      then "FileAsset" +:+ pretty (_fileAssetCtr this)
                      else "DockerAsset" +:+ pretty (_dockerAssetCtr this))
                /\ constructId a = actionName a
                /\ action_assetType a = assetType c
                /\ role a = assetRoles this' !! assetType c
                /\ commands a = [(relativeManifest this c, assetSelector c)]
       end.
Proof.
  unfold escapes, relativeManifest, addPublishAssetAction. intros -> Hown.
  unfold generateAssetRole, getProperty.
  destruct (assetRoles this !! assetType c) eqn:Hr; simpl;
    destruct (publishers this !! assetId c) eqn:Hp;
    rewrite ?(Hown eq_refl);
    destruct (assetType c) eqn:Ht; simpl.
  all: eexists; split; [reflexivity|]; simpl.
  all: rewrite ?alter_snoc; repeat split; try reflexivity.
  all: eexists; split; [reflexivity|]; simpl.
  all: rewrite ?Hr, ?lookup_insert_eq; repeat split; reflexivity.
Qed.

(** A request that passes the test and whose asset id finds an inherited
    property throws when it calls [addPublishCommand]; by then the role of
    the asset type exists, and nothing else has changed. *)
Lemma request_type_error this c :
  escapes (myCxAsmRoot this) (assetManifestPath c) = false ->
  publishers this !! assetId c = None ->
  inheritedName (assetId c) = true ->
  addPublishAssetAction this c
  = (Throw "TypeError: action.addPublishCommand is not a function",
     (generateAssetRole this (assetType c)).2).
Proof.
  unfold escapes, addPublishAssetAction. intros -> Hp Hin.
  unfold generateAssetRole, getProperty.
  destruct (assetRoles this !! assetType c) eqn:Hr; simpl; rewrite Hp, Hin; reflexivity.
Qed.

(** A request throws and leaves the state as it was, or throws after
    creating the role, or returns. *)
Lemma request_cases this c :
  (exists m, addPublishAssetAction this c = (Throw m, this))
  \/ (exists m, addPublishAssetAction this c
                = (Throw m, (generateAssetRole this (assetType c)).2))
  \/ (escapes (myCxAsmRoot this) (assetManifestPath c) = false
      /\ (publishers this !! assetId c = None -> inheritedName (assetId c) = false)
      /\ exists this', addPublishAssetAction this c = (Normal tt, this')).
Proof.
  destruct (escapes (myCxAsmRoot this) (assetManifestPath c)) eqn:He.
  - left. eexists. apply request_throws, He.
  - destruct (publishers this !! assetId c) as [r|] eqn:Hp.
    + right. right. split; [reflexivity|]. split; [discriminate|].
      destruct (request_normal this c He) as (this' & H & _); [rewrite Hp; discriminate|].
      eauto.
    + destruct (inheritedName (assetId c)) eqn:Hin.
      * right. left. eexists. apply request_type_error; assumption.
      * right. right. split; [reflexivity|]. split; [auto|].
        destruct (request_normal this c He) as (this' & H & _); [auto|]. eauto.
Qed.

(** A request that returned passed the test, and its asset id found a
    publishing action or nothing. *)
Lemma request_returned this c this' :
  addPublishAssetAction this c = (Normal tt, this') ->
  escapes (myCxAsmRoot this) (assetManifestPath c) = false
  /\ (publishers this !! assetId c = None -> inheritedName (assetId c) = false).
Proof.
  intros H.
  destruct (request_cases this c) as [[m Hm]|[[m Hm]|(He & Hown & _)]];
    [rewrite Hm in H; discriminate|rewrite Hm in H; discriminate|auto].
Qed.

(** ** Paths: when a manifest passes the test *)

Lemma valid_segment_spec s :
  valid_segment s = true -> s <> "" /\ s <> "." /\ s <> ".." /\ has_sep s = false.
Proof.
  unfold valid_segment. intros H.
  apply andb_prop in H as [H H4]. apply andb_prop in H as [H H3].
  apply andb_prop in H as [H1 H2].
  apply negb_true_iff in H1, H2, H3, H4.
  apply bool_decide_eq_false in H1, H2, H3. auto.
Qed.

Lemma prefix_String a s b t :
  String.prefix (String a s) (String b t)
  = if ascii_dec a b then String.prefix s t else false.
Proof. reflexivity. Qed.

Lemma append_String c s x : String c s +:+ x = String c (s +:+ x).
Proof. reflexivity. Qed.

Lemma append_empty x : "" +:+ x = x.
Proof. reflexivity. Qed.

Lemma prefix_climb_segment s x :
  valid_segment s = true -> String.prefix "../" (s +:+ x) = false.
Proof.
  intros H. apply valid_segment_spec in H as (H1 & H2 & H3 & H4).
  destruct s as [|c1 [|c2 [|c3 s]]]; try congruence; rewrite ?append_String, ?append_empty;
    rewrite prefix_String; destruct (ascii_dec "." c1) as [<-|]; try reflexivity.
  - congruence.
  - rewrite prefix_String. destruct (ascii_dec "." c2) as [<-|]; [congruence|reflexivity].
  - rewrite prefix_String. destruct (ascii_dec "." c2) as [<-|]; [|reflexivity].
    rewrite prefix_String. destruct (ascii_dec "/" c3) as [<-|]; [|reflexivity].
    vm_compute in H4. discriminate.
Qed.

Lemma relative_inside root rest : relative_segments root (root ++ rest) = rest.
Proof.
  induction root as [|f root IH]; simpl; [reflexivity|].
  rewrite bool_decide_eq_true_2 by reflexivity. exact IH.
Qed.

Lemma append_empty_r s : s +:+ "" = s.
Proof. induction s as [|c s IH]; [reflexivity|]. rewrite append_String, IH. reflexivity. Qed.

Lemma escapes_inside root rest :
  Forall (fun s => valid_segment s = true) rest -> escapes root (root ++ rest) = false.
Proof.
  intros Hv. unfold escapes, path_relative, startsWith. rewrite relative_inside.
  destruct Hv as [|s rest Hs Hrest]; [reflexivity|].
  destruct rest as [|s' rest].
  - simpl. rewrite <- (append_empty_r s). apply (prefix_climb_segment s _ Hs).
  - apply (prefix_climb_segment s _ Hs).
Qed.

Lemma climb_twice x l : String.prefix "../" (String.concat "/" (".." :: x :: l)) = true.
Proof.
  cbn [String.concat]. rewrite !append_String, !append_empty.
  match goal with
  | |- String.prefix _ (String _ (String _ (String _ ?r))) = _ => generalize r
  end.
  intros r. destruct r; vm_compute; reflexivity.
Qed.

Lemma escapes_parent root x : escapes (root ++ [x]) root = false.
Proof.
  unfold escapes, path_relative, startsWith.
  induction root as [|f root IH]; simpl; [reflexivity|].
  rewrite bool_decide_eq_true_2 by reflexivity. exact IH.
Qed.

Lemma escapes_outside root : forall p,
  ~ (exists rest, p = root ++ rest) ->
  (forall x, root <> p ++ [x]) ->
  escapes root p = true.
Proof.
  unfold escapes, path_relative, startsWith.
  induction root as [|f root IH]; intros p Hout Hpar.
  - exfalso. apply Hout. exists p. reflexivity.
  - destruct p as [|t p].
    + destruct root as [|g root]; [exfalso; apply (Hpar f); reflexivity|].
      apply climb_twice.
    + cbn [relative_segments]. case_bool_decide as Hft.
      * subst t. apply IH.
        -- intros [rest ->]. apply Hout. exists rest. reflexivity.
        -- intros x ->. apply (Hpar x). reflexivity.
      * destruct root; apply climb_twice.
Qed.

(** ** The path check of a request *)

(** A manifest outside the assembly directory, other than the directory's
    parent itself, makes the request throw at once; no role and no action
    is created, the coordinator is as it was. *)
Theorem addPublishAssetAction_rejects_outside this c :
  ~ (exists rest, assetManifestPath c = myCxAsmRoot this ++ rest) ->
  (forall x, myCxAsmRoot this <> assetManifestPath c ++ [x]) ->
  addPublishAssetAction this c
  = (Throw (outsideAssemblyMessage (assetManifestPath c) (myCxAsmRoot this)), this).
Proof.
  intros Hout Hpar. apply request_throws, escapes_outside; assumption.
Qed.

Lemma addPublishAssetAction_rejects_outside_witness :
  addPublishAssetAction freshAssets (request ["home"; "m.json"] "a1" "a1:d1" FILE)
  = (Throw "The asset manifest (/home/m.json) cannot be outside the Cloud Assembly directory (/tmp/cdk.out). Please report this error at https://github.com/aws/aws-cdk/issues to help us debug why this is happening.",
     freshAssets).
Proof.
  apply (addPublishAssetAction_rejects_outside freshAssets
           (request ["home"; "m.json"] "a1" "a1:d1" FILE)).
  - intros [rest H]. discriminate H.
  - intros x H. discriminate H.
Defined.

Lemma type_error_is_not_outside manifest root :
  "TypeError: action.addPublishCommand is not a function"
  <> outsideAssemblyMessage manifest root.
Proof.
  unfold outsideAssemblyMessage. rewrite !append_String. discriminate.
Qed.

(** A manifest inside the assembly directory passes the path check: the
    request never throws the error about a manifest outside the directory.
    It returns when the asset id finds a publishing action, or finds
    nothing; when the asset id finds an inherited property instead, the
    request throws a TypeError after the role has been created. *)
Theorem addPublishAssetAction_accepts_inside this c rest :
  assetManifestPath c = myCxAsmRoot this ++ rest ->
  Forall (fun s => valid_segment s = true) rest ->
  (addPublishAssetAction this c).1
  <> Throw (outsideAssemblyMessage (assetManifestPath c) (myCxAsmRoot this))
  /\ ((publishers this !! assetId c = None -> inheritedName (assetId c) = false) ->
      (addPublishAssetAction this c).1 = Normal tt)
  /\ (publishers this !! assetId c = None ->
      inheritedName (assetId c) = true ->
      addPublishAssetAction this c
      = (Throw "TypeError: action.addPublishCommand is not a function",
         (generateAssetRole this (assetType c)).2)).
Proof.
  intros Hin Hv.
  assert (He : escapes (myCxAsmRoot this) (assetManifestPath c) = false)
    by (rewrite Hin; apply escapes_inside, Hv).
  split; [|split].
  - destruct (publishers this !! assetId c) as [r|] eqn:Hp;
      [|destruct (inheritedName (assetId c)) eqn:Hname].
    + destruct (request_normal this c He) as (this' & H & _);
        [rewrite Hp; discriminate|]. rewrite H. discriminate.
    + rewrite (request_type_error this c He Hp Hname). simpl.
      intros Heq. apply (type_error_is_not_outside (assetManifestPath c) (myCxAsmRoot this)).
      congruence.
    + destruct (request_normal this c He) as (this' & H & _); [auto|].
      rewrite H. discriminate.
  - intros Hown. destruct (request_normal this c He Hown) as (this' & H & _).
    rewrite H. reflexivity.
  - intros Hp Hname. exact (request_type_error this c He Hp Hname).
Qed.

Lemma addPublishAssetAction_accepts_inside_witness :
  (addPublishAssetAction freshAssets (request (inAssembly "m.json") "a1" "a1:d1" FILE)).1
  = Normal tt
  /\ (addPublishAssetAction freshAssets
        (request (inAssembly "m.json") "constructor" "a1:d1" FILE)).1
     = Throw "TypeError: action.addPublishCommand is not a function".
Proof.
  split; [|vm_compute; reflexivity].
  destruct (addPublishAssetAction_accepts_inside freshAssets
              (request (inAssembly "m.json") "a1" "a1:d1" FILE) ["m.json"])
    as (_ & Hreturns & _).
  - reflexivity.
  - repeat constructor.
  - apply Hreturns. intros _. vm_compute. reflexivity.
Defined.

(** C7 fails for the parent of the assembly directory.  /tmp is outside
    /tmp/cdk.out, but the relative path is [".."], which does not start with
    ["../"]: the request returns, and a role and a publishing action have
    been created. *)
Theorem addPublishAssetAction_parent_directory :
  ~ (exists rest, ["tmp"] = myCxAsmRoot freshAssets ++ rest)
  /\ path_relative (myCxAsmRoot freshAssets) ["tmp"] = ".."
  /\ (addPublishAssetAction freshAssets (request ["tmp"] "a1" "a1:d1" FILE)).1
     = Normal tt
  /\ map fst (roles (addPublishAssetAction freshAssets
                       (request ["tmp"] "a1" "a1:d1" FILE)).2) = [FILE]
  /\ map commands (publishActions (addPublishAssetAction freshAssets
                                     (request ["tmp"] "a1" "a1:d1" FILE)).2)
     = [[("..", "a1:d1")]].
Proof.
  split; [intros [rest H]; discriminate H|].
  repeat split; vm_compute; reflexivity.
Qed.

(** ** Runs of requests *)

(** A property that every returning request keeps, and that the creation
    of a role keeps, holds after any run. *)
Lemma publishAll_invariant (P : AssetPublishing -> Prop) :
  (forall this c this',
     P this ->
     escapes (myCxAsmRoot this) (assetManifestPath c) = false ->
     addPublishAssetAction this c = (Normal tt, this') -> P this') ->
  (forall this t, P this -> P (generateAssetRole this t).2) ->
  forall cs this, P this -> P (publishAll this cs).2.
Proof.
  intros Hstep Hrole. induction cs as [|c cs IH]; intros this HP; simpl; [exact HP|].
  destruct (request_cases this c) as [[m H]|[[m H]|(He & _ & this' & H)]];
    rewrite H; simpl.
  - exact HP.
  - apply Hrole, HP.
  - apply IH. eapply Hstep; eauto.
Qed.

(** A run that returns normally has made every request return normally. *)
Lemma publishAll_normal_cons this c cs this' :
  publishAll this (c :: cs) = (Normal tt, this') ->
  exists this1,
    escapes (myCxAsmRoot this) (assetManifestPath c) = false
    /\ addPublishAssetAction this c = (Normal tt, this1)
    /\ publishAll this1 cs = (Normal tt, this').
Proof.
  simpl. destruct (request_cases this c) as [[m H]|[[m H]|(He & _ & this1 & H)]];
    rewrite H.
  - discriminate.
  - discriminate.
  - intros Hrun. exists this1. auto.
Qed.

(** In a run that returned, every manifest passed the path check. *)
Lemma publishAll_normal_escapes : forall cs this this',
  publishAll this cs = (Normal tt, this') ->
  Forall (fun c => escapes (myCxAsmRoot this) (assetManifestPath c) = false) cs.
Proof.
  induction cs as [|c cs IH]; intros this this' Hrun; [constructor|].
  apply publishAll_normal_cons in Hrun as (this1 & He & H1 & Hrun).
  constructor; [exact He|].
  destruct (request_normal this c He (proj2 (request_returned _ _ _ H1)))
    as (x & X & Hroot & _).
  rewrite H1 in X. injection X as <-. rewrite <- Hroot. exact (IH _ _ Hrun).
Qed.

(** ** Requests for one asset *)

Lemma existsb_selector_absent (done : list (string * string)) sel :
  sel ∉ map snd done ->
  existsb (fun e => bool_decide (e.2 = sel)) done = false.
Proof.
  induction done as [|e done IH]; intros H; simpl; [reflexivity|].
  rewrite bool_decide_eq_false_2.
  - apply IH. intros Hin. apply H. simpl. apply elem_of_cons. right. exact Hin.
  - intros He. apply H. simpl. apply elem_of_cons. left. symmetry. exact He.
Qed.

Lemma addPublishCommand_new a path sel :
  sel ∉ map snd (commands a) ->
  commands (addPublishCommand a path sel) = commands a ++ [(path, sel)].
Proof.
  intros H. unfold addPublishCommand.
  rewrite (existsb_selector_absent _ _ H). reflexivity.
Qed.

(** Further requests for an asset that has its action: the action takes
    one more entry per request, and nothing else changes. *)
Lemma publishAll_known id heap : forall cs this a,
  publishers this !! id = Some (length heap) ->
  publishActions this = heap ++ [a] ->
  Forall (fun c => assetId c = id
                   /\ escapes (myCxAsmRoot this) (assetManifestPath c) = false) cs ->
  NoDup (map snd (commands a) ++ map assetSelector cs) ->
  exists this' a',
    publishAll this cs = (Normal tt, this')
    /\ publishers this' = publishers this
    /\ pipeline this' = pipeline this
    /\ stage this' = stage this
    /\ publishActions this' = heap ++ [a']
    /\ commands a'
       = commands a ++ map (fun c => (relativeManifest this c, assetSelector c)) cs.
Proof.
  induction cs as [|c cs IH]; intros this a Hp Hh Hcs Hnd.
  - exists this, a. simpl. rewrite app_nil_r. repeat split; auto.
  - inversion Hcs as [|? ? [Hid Hesc] Hcs']; subst.
    destruct (request_normal this c Hesc) as (this1 & H1 & Hroot & Hst & _ & _ & Hcase);
      [rewrite Hp; discriminate|].
    rewrite Hp in Hcase. destruct Hcase as (Hpub & Hpipe & _ & _ & Hact).
    rewrite Hh, alter_snoc in Hact.
    assert (Hsel : assetSelector c ∉ map snd (commands a)).
    { intros Hin. apply NoDup_app in Hnd as (_ & Hdisj & _).
      apply (Hdisj _ Hin). simpl. apply elem_of_cons. left. reflexivity. }
    destruct (IH this1 (addPublishCommand a (relativeManifest this c) (assetSelector c)))
      as (this' & a' & Hrun & Hpub' & Hpipe' & Hst' & Hact' & Hcmd').
    + rewrite Hpub. exact Hp.
    + exact Hact.
    + rewrite Hroot. exact Hcs'.
    + rewrite (addPublishCommand_new _ _ _ Hsel), map_app. simpl.
      rewrite <- app_assoc. exact Hnd.
    + exists this', a'. simpl. rewrite H1. repeat split.
      * exact Hrun.
      * congruence.
      * congruence.
      * congruence.
      * exact Hact'.
      * rewrite Hcmd', (addPublishCommand_new _ _ _ Hsel), <- app_assoc. simpl.
        unfold relativeManifest. rewrite Hroot. reflexivity.
Qed.

(** C2 (as amended).  Requests for one asset identity that has no action
    yet, with pairwise distinct destinations, all of which returned.  The
    first request allocated the action and appended it to the Assets stage
    at once.  After all the requests the asset has that one action, no
    other action was created, nothing else was added to the stage, and the
    action holds one entry per request, in the order of the calls. *)
Theorem requests_for_one_asset this id c cs s this' :
  publishers this !! id = None ->
  stageObjects (pipeline this) !! stage this = Some s ->
  Forall (fun c => assetId c = id) (c :: cs) ->
  NoDup (map assetSelector (c :: cs)) ->
  publishAll this (c :: cs) = (Normal tt, this') ->
  exists this1 a1 a,
    addPublishAssetAction this c = (Normal tt, this1)
    /\ publishActions this1 = publishActions this ++ [a1]
    /\ stageObjects (pipeline this1) !! stage this1
       = Some {| stageName := stageName s;
                 actions := actions s ++ [PublishAction (length (publishActions this))] |}
    /\ publishers this' !! id = Some (length (publishActions this))
    /\ publishActions this' = publishActions this ++ [a]
    /\ commands a
       = map (fun c => (relativeManifest this c, assetSelector c)) (c :: cs)
    /\ stageObjects (pipeline this') !! stage this'
       = Some {| stageName := stageName s;
                 actions := actions s ++ [PublishAction (length (publishActions this))] |}.
Proof.
  intros Hnone Hstage Hcs Hnd Hall.
  pose proof (publishAll_normal_escapes _ _ _ Hall) as Hescs.
  inversion Hcs as [|? ? Hid Hcs']; subst.
  inversion Hescs as [|? ? Hesc Hescs']; subst.
  apply publishAll_normal_cons in Hall as (this1 & _ & H1 & Hrest).
  destruct (request_normal this c Hesc (proj2 (request_returned _ _ _ H1)))
    as (x & X & Hroot & Hst & _ & _ & Hcase).
  rewrite H1 in X. injection X as <-.
  rewrite Hnone in Hcase.
  destruct Hcase as (Hpub & Hpipe & _ & _ & a1 & Hact & _ & _ & _ & _ & Hcmd).
  assert (Hstage1 : stageObjects (pipeline this1) !! stage this1
                    = Some {| stageName := stageName s;
                              actions := actions s
                                ++ [PublishAction (length (publishActions this))] |}).
  { rewrite Hpipe, Hst. unfold Stage_addAction. rewrite Hstage. simpl.
    apply list_lookup_insert_eq. eapply lookup_lt_Some, Hstage. }
  destruct (publishAll_known (assetId c) (publishActions this) cs this1 a1)
    as (this2 & a & Hrun & Hpub' & Hpipe' & Hst' & Hact' & Hcmd').
  - rewrite Hpub. apply lookup_insert_eq.
  - exact Hact.
  - rewrite Hroot. rewrite Forall_forall in Hcs', Hescs' |- *. auto.
  - rewrite Hcmd. exact Hnd.
  - rewrite Hrest in Hrun. injection Hrun as <-.
    exists this1, a1, a. repeat split; auto.
    + rewrite Hpub', Hpub. apply lookup_insert_eq.
    + rewrite Hcmd', Hcmd. simpl. unfold relativeManifest. rewrite Hroot. reflexivity.
    + rewrite Hpipe', Hst'. exact Hstage1.
Qed.

Lemma requests_for_one_asset_witness :
  (publishAll freshAssets
     [request (inAssembly "m.json") "a1" "a1:d1" FILE;
      request (inAssembly "m.json") "a1" "a1:d2" FILE]).1 = Normal tt
  /\ exists a,
       publishActions
         (publishAll freshAssets
            [request (inAssembly "m.json") "a1" "a1:d1" FILE;
             request (inAssembly "m.json") "a1" "a1:d2" FILE]).2 = [a]
       /\ commands a = [("m.json", "a1:d1"); ("m.json", "a1:d2")].
Proof.
  split; [vm_compute; reflexivity|].
  destruct (requests_for_one_asset freshAssets "a1"
              (request (inAssembly "m.json") "a1" "a1:d1" FILE)
              [request (inAssembly "m.json") "a1" "a1:d2" FILE]
              {| stageName := "Assets"; actions := [] |}
              (publishAll freshAssets
                 [request (inAssembly "m.json") "a1" "a1:d1" FILE;
                  request (inAssembly "m.json") "a1" "a1:d2" FILE]).2)
    as (this1 & a1 & a & _ & _ & _ & _ & Hact & Hcmd & _).
  - reflexivity.
  - reflexivity.
  - repeat constructor.
  - refine (bool_decide_unpack _ _). vm_compute. exact I.
  - vm_compute. reflexivity.
  - exists a. split; [exact Hact|exact Hcmd].
Defined.

(** C2 (as stated) fails in two ways.  When a destination repeats: two
    requests for the same asset and the same destination return and leave
    one action holding one entry, not two.  When a call does not return: a
    request whose manifest lies outside the assembly directory throws, and
    no action exists afterwards. *)
Lemma repeated_destination_entered_once :
  (publishAll freshAssets
     [request (inAssembly "m.json") "a1" "a1:d1" FILE;
      request (inAssembly "m.json") "a1" "a1:d1" FILE]).1 = Normal tt
  /\ map commands
       (publishActions
          (publishAll freshAssets
             [request (inAssembly "m.json") "a1" "a1:d1" FILE;
              request (inAssembly "m.json") "a1" "a1:d1" FILE]).2)
     = [[("m.json", "a1:d1")]]
  /\ (publishAll freshAssets [request ["home"; "m.json"] "a1" "a1:d1" FILE]).1
     = Throw (outsideAssemblyMessage ["home"; "m.json"] ["tmp"; "cdk.out"])
  /\ publishActions
       (publishAll freshAssets [request ["home"; "m.json"] "a1" "a1:d1" FILE]).2 = [].
Proof. repeat split; vm_compute; reflexivity. Qed.

(** *** Roles *)

Lemma rolesMemoized_new outdir art v n p :
  rolesMemoized (AssetPublishing_new outdir art v n p).
Proof.
  unfold rolesMemoized, AssetPublishing_new; simpl.
  split; [|split; [intros t; split|split; [|intros a Ha; split]]].
  - constructor.
  - intros H. inversion H.
  - intros [r H]. rewrite lookup_empty in H. discriminate.
  - intros t r H. inversion H.
  - inversion Ha.
  - inversion Ha.
Qed.

Lemma addPublishCommand_fields a path sel :
  constructId (addPublishCommand a path sel) = constructId a
  /\ actionName (addPublishCommand a path sel) = actionName a
  /\ action_assetType (addPublishCommand a path sel) = action_assetType a
  /\ role (addPublishCommand a path sel) = role a.
Proof. unfold addPublishCommand. destruct (existsb _ _); auto. Qed.

Lemma elem_of_alter_inv {A : Type} (f : A -> A) i (l : list A) x :
  x ∈ alter f i l -> x ∈ l \/ exists y, y ∈ l /\ x = f y.
Proof.
  revert i. induction l as [|y l IH]; intros i H; simpl in H.
  - inversion H.
  - destruct i as [|i]; simpl in H; apply elem_of_cons in H as [->|H].
    + right. exists y. split; [apply elem_of_cons; auto|reflexivity].
    + left. apply elem_of_cons; auto.
    + left. apply elem_of_cons; auto.
    + destruct (IH i H) as [Hin|(z & Hz & ->)].
      * left. apply elem_of_cons; auto.
      * right. exists z. split; [apply elem_of_cons; auto|reflexivity].
Qed.

Lemma rolesMemoized_role this t :
  rolesMemoized this -> rolesMemoized (generateAssetRole this t).2.
Proof.
  intros (Hnd & Hkeys & Hsome & Hact).
  unfold generateAssetRole.
  destruct (assetRoles this !! t) eqn:Hc;
    [exact (conj Hnd (conj Hkeys (conj Hsome Hact)))|].
  unfold rolesMemoized. cbn [snd with_role roles assetRoles publishActions].
  split; [|split; [intros t'; split|split; [|intros a Ha; split]]].
  - rewrite map_app. simpl. apply NoDup_app. repeat split; auto.
    + intros t' Ht Ht'. apply list_elem_of_singleton in Ht'. subst t'.
      apply Hkeys in Ht as [r Hr]. congruence.
    + apply NoDup_singleton.
  - rewrite map_app. simpl. intros Hin. apply elem_of_app in Hin as [Hin|Hin].
    + apply Hkeys in Hin as [r Hr]. exists r.
      rewrite lookup_insert_ne; [exact Hr|]. intros <-. congruence.
    + apply list_elem_of_singleton in Hin. subst t'.
      rewrite lookup_insert_eq. eauto.
  - rewrite map_app. simpl. intros [r Hr]. apply elem_of_app.
    destruct (decide (t = t')) as [<-|Hne].
    + right. apply list_elem_of_singleton. reflexivity.
    + left. apply Hkeys. rewrite lookup_insert_ne in Hr by exact Hne. eauto.
  - intros t' r Hin. apply elem_of_app in Hin as [Hin|Hin].
    + rewrite lookup_insert_ne; [exact (Hsome _ _ Hin)|].
      intros <-. rewrite (Hsome _ _ Hin) in Hc. discriminate.
    + apply list_elem_of_singleton in Hin. injection Hin as -> ->.
      apply lookup_insert_eq.
  - exact (proj1 (Hact a Ha)).
  - destruct (Hact a Ha) as [[r Hr] Heq]. rewrite Heq.
    rewrite lookup_insert_ne; [reflexivity|].
    intros E. rewrite <- E in Heq. congruence.
Qed.

Lemma rolesMemoized_step this c this' :
  rolesMemoized this ->
  escapes (myCxAsmRoot this) (assetManifestPath c) = false ->
  addPublishAssetAction this c = (Normal tt, this') ->
  rolesMemoized this'.
Proof.
  intros (Hnd & Hkeys & Hsome & Hact) He H.
  assert (Hnone : forall t, assetRoles this !! t = None -> t ∉ map fst (roles this)).
  { intros t Ht Hin. apply Hkeys in Hin as [r Hr]. congruence. }
  destruct (request_normal this c He (proj2 (request_returned _ _ _ H))) as (this1 & H1 & _ & _ & Hroles & Hlog & Hcase).
  rewrite H in H1. injection H1 as <-.
  assert (Hkeep : forall t r, assetRoles this !! t = Some r -> assetRoles this' !! t = Some r).
  { intros t r Ht. rewrite Hroles. destruct (assetRoles this !! assetType c) eqn:Hc; [exact Ht|].
    rewrite lookup_insert_ne; [exact Ht|]. intros <-. congruence. }
  assert (Hnew : is_Some (assetRoles this' !! assetType c)).
  { rewrite Hroles. destruct (assetRoles this !! assetType c) eqn:Hc.
    - rewrite Hc. eauto.
    - rewrite lookup_insert_eq. eauto. }
  assert (Hold : forall a, a ∈ publishActions this ->
            is_Some (role a) /\ role a = assetRoles this' !! action_assetType a).
  { intros a Ha. destruct (Hact a Ha) as [[r Hr] Heq]. split; [eauto|].
    rewrite Hr. symmetry. apply Hkeep. congruence. }
  split; [|split; [intros t; split|split; [|intros a Ha; split]]].
  - rewrite Hlog. destruct (assetRoles this !! assetType c) eqn:Hc; [exact Hnd|].
    rewrite map_app. simpl. apply NoDup_app. repeat split; auto.
    + intros t Ht Ht'. apply list_elem_of_singleton in Ht'. subst t.
      exact (Hnone _ Hc Ht).
    + apply NoDup_singleton.
  - rewrite Hroles, Hlog.
    destruct (assetRoles this !! assetType c) eqn:Hc; [apply Hkeys|].
    rewrite map_app. simpl. intros Hin. apply elem_of_app in Hin as [Hin|Hin].
    + apply Hkeys in Hin as [r Hr]. exists r.
      rewrite lookup_insert_ne; [exact Hr|]. intros <-. congruence.
    + apply list_elem_of_singleton in Hin. subst t.
      rewrite lookup_insert_eq. eauto.
  - rewrite Hroles, Hlog.
    destruct (assetRoles this !! assetType c) eqn:Hc; [apply Hkeys|].
    rewrite map_app. simpl. intros [r Hr]. apply elem_of_app.
    destruct (decide (assetType c = t)) as [<-|Hne].
    + right. apply list_elem_of_singleton. reflexivity.
    + left. apply Hkeys. rewrite lookup_insert_ne in Hr by exact Hne. eauto.
  - intros t r Hin. rewrite Hlog in Hin.
    destruct (assetRoles this !! assetType c) eqn:Hc; [apply Hkeep; auto|].
    apply elem_of_app in Hin as [Hin|Hin]; [apply Hkeep; auto|].
    apply list_elem_of_singleton in Hin. injection Hin as -> ->.
    rewrite Hroles. apply lookup_insert_eq.
  - destruct (publishers this !! assetId c) as [r|].
    + destruct Hcase as (_ & _ & _ & _ & Hheap). rewrite Hheap in Ha.
      apply elem_of_alter_inv in Ha as [Hin|(y & Hy & ->)]; [apply Hold; auto|].
      destruct (addPublishCommand_fields y (relativeManifest this c) (assetSelector c))
        as (_ & _ & _ & ->). apply Hold; auto.
    + destruct Hcase as (_ & _ & _ & _ & a0 & Hheap & _ & _ & Hty & Hrole & _).
      rewrite Hheap in Ha. apply elem_of_app in Ha as [Hin|Hin]; [apply Hold; auto|].
      apply list_elem_of_singleton in Hin. subst a. rewrite Hrole. exact Hnew.
  - destruct (publishers this !! assetId c) as [r|].
    + destruct Hcase as (_ & _ & _ & _ & Hheap). rewrite Hheap in Ha.
      apply elem_of_alter_inv in Ha as [Hin|(y & Hy & ->)]; [apply Hold; auto|].
      destruct (addPublishCommand_fields y (relativeManifest this c) (assetSelector c))
        as (_ & _ & -> & ->). apply Hold; auto.
    + destruct Hcase as (_ & _ & _ & _ & a0 & Hheap & _ & _ & Hty & Hrole & _).
      rewrite Hheap in Ha. apply elem_of_app in Ha as [Hin|Hin]; [apply Hold; auto|].
      apply list_elem_of_singleton in Hin. subst a. rewrite Hrole, Hty. reflexivity.
Qed.

Lemma rolesMemoized_run outdir art v n p cs :
  rolesMemoized (publishAll (AssetPublishing_new outdir art v n p) cs).2.
Proof.
  apply publishAll_invariant.
  - intros this c this'. apply rolesMemoized_step.
  - apply rolesMemoized_role.
  - apply rolesMemoized_new.
Qed.

Lemma one_per_key {B : Type} (l : list (AssetType * B)) t :
  NoDup (map fst l) -> length (filter (fun e => e.1 = t) l) <= 1.
Proof.
  induction l as [|[t' b] l IH]; simpl; intros Hnd; [lia|].
  apply NoDup_cons in Hnd as [Hnotin Hnd].
  rewrite filter_cons. simpl. destruct (decide (t' = t)) as [->|Hne]; [|auto].
  simpl. assert (Hz : filter (fun e : AssetType * B => e.1 = t) l = []).
  { destruct (filter (fun e : AssetType * B => e.1 = t) l) as [|e k] eqn:Hf; [reflexivity|].
    exfalso. apply Hnotin.
    assert (He : e ∈ filter (fun e : AssetType * B => e.1 = t) l)
      by (rewrite Hf; apply elem_of_cons; auto).
    apply list_elem_of_filter in He as [<- He].
    apply list_elem_of_fmap. exists e. auto. }
  rewrite Hz. simpl. lia.
Qed.

Lemma split_by_type {B : Type} (l : list (AssetType * B)) :
  length l = length (filter (fun e => e.1 = FILE) l)
             + length (filter (fun e => e.1 = DOCKER_IMAGE) l).
Proof.
  induction l as [|[[] b] l IH]; simpl; [reflexivity| |];
    rewrite !filter_cons; simpl;
    repeat (case_decide; try congruence); simpl; lia.
Qed.

(** The asset types of the requests of a run that returned are the asset
    types roles were created for. *)
Lemma roles_follow_requests : forall cs this this',
  rolesMemoized this ->
  publishAll this cs = (Normal tt, this') ->
  forall t, t ∈ map fst (roles this')
            <-> t ∈ map fst (roles this) \/ exists c, c ∈ cs /\ assetType c = t.
Proof.
  induction cs as [|c cs IH]; intros this this' Hinv Hrun t.
  - simpl in Hrun. injection Hrun as <-. split; [auto|].
    intros [H|(c & Hc & _)]; [exact H|inversion Hc].
  - apply publishAll_normal_cons in Hrun as (this1 & He & H1 & Hrun).
    pose proof (rolesMemoized_step _ _ _ Hinv He H1) as Hinv1.
    rewrite (IH _ _ Hinv1 Hrun t).
    destruct (request_normal this c He (proj2 (request_returned _ _ _ H1)))
      as (this1' & H1' & _ & _ & _ & Hlog & _).
    rewrite H1 in H1'. injection H1' as <-.
    destruct Hinv as (_ & Hkeys & _).
    assert (Hstep : t ∈ map fst (roles this1)
                    <-> t ∈ map fst (roles this) \/ assetType c = t).
    { rewrite Hlog. destruct (assetRoles this !! assetType c) eqn:Hc.
      - split; [auto|]. intros [H|<-]; [exact H|]. apply Hkeys. eauto.
      - rewrite map_app, elem_of_app. simpl. rewrite list_elem_of_singleton.
        split; intros [H|H]; auto. }
    rewrite Hstep. split.
    + intros [[H|H]|(c' & Hc' & H)]; auto.
      * right. exists c. split; [apply elem_of_cons; auto|exact H].
      * right. exists c'. split; [apply elem_of_cons; auto|exact H].
    + intros [H|(c' & Hc' & H)]; auto.
      apply elem_of_cons in Hc' as [->|Hc']; auto.
      right. exists c'. auto.
Qed.

(** C8.  Start from a fresh coordinator and issue any requests.  No role
    exists before the first request.  Afterwards at most one role has been
    created per asset type, so at most two in all, however many assets were
    published; the role of a type is the one memoized in [assetRoles]; every
    publishing action carries the memoized role of its type; and when the
    run returned, roles exist exactly for the asset types requested. *)
Theorem one_role_per_asset_type outdir art v n p cs :
  roles (AssetPublishing_new outdir art v n p) = []
  /\ (forall t,
        length (filter (fun e => e.1 = t)
                  (roles (publishAll (AssetPublishing_new outdir art v n p) cs).2)) <= 1)
  /\ length (roles (publishAll (AssetPublishing_new outdir art v n p) cs).2) <= 2
  /\ (forall t r,
        (t, r) ∈ roles (publishAll (AssetPublishing_new outdir art v n p) cs).2 ->
        assetRoles (publishAll (AssetPublishing_new outdir art v n p) cs).2 !! t = Some r)
  /\ (forall a,
        a ∈ publishActions (publishAll (AssetPublishing_new outdir art v n p) cs).2 ->
        exists r,
          role a = Some r
          /\ (action_assetType a, r)
             ∈ roles (publishAll (AssetPublishing_new outdir art v n p) cs).2)
  /\ ((publishAll (AssetPublishing_new outdir art v n p) cs).1 = Normal tt ->
      forall t,
        t ∈ map fst (roles (publishAll (AssetPublishing_new outdir art v n p) cs).2)
        <-> exists c, c ∈ cs /\ assetType c = t).
Proof.
  pose proof (rolesMemoized_run outdir art v n p cs) as Hinv.
  set (init := AssetPublishing_new outdir art v n p) in *.
  set (final := (publishAll init cs).2) in *.
  pose proof Hinv as (Hnd & Hkeys & Hsome & Hact).
  split; [reflexivity|]. split; [|split; [|split; [|split]]].
  - intros t. apply one_per_key, Hnd.
  - rewrite split_by_type.
    pose proof (one_per_key (roles final) FILE Hnd).
    pose proof (one_per_key (roles final) DOCKER_IMAGE Hnd). lia.
  - exact Hsome.
  - intros a Ha. destruct (Hact a Ha) as [[r Hr] Heq]. exists r. split; [exact Hr|].
    assert (Hin : action_assetType a ∈ map fst (roles final)).
    { apply Hkeys. rewrite <- Heq, Hr. eauto. }
    apply list_elem_of_fmap in Hin as ([t r'] & Ht & Hin). simpl in Ht. subst t.
    pose proof (Hsome _ _ Hin) as Hr'. rewrite <- Heq, Hr in Hr'.
    injection Hr' as ->. exact Hin.
  - intros Hnormal t.
    assert (Hrun : publishAll init cs = (Normal tt, final)).
    { unfold final. destruct (publishAll init cs) as [res st]. simpl in *. congruence. }
    rewrite (roles_follow_requests cs init final (rolesMemoized_new _ _ _ _ _) Hrun t).
    split; [intros [H|H]; [inversion H|exact H]|auto].
Qed.

Lemma one_role_per_asset_type_witness :
  map fst (roles (publishAll freshAssets
                    [request (inAssembly "m.json") "a1" "a1:d1" FILE;
                     request (inAssembly "m.json") "a2" "a2:d1" FILE;
                     request (inAssembly "m.json") "a3" "a3:d1" FILE]).2) = [FILE]
  /\ (DOCKER_IMAGE
      ∈ map fst (roles (publishAll freshAssets
                          [request (inAssembly "m.json") "a1" "a1:d1" FILE;
                           request (inAssembly "m.json") "a2" "a2:d1" FILE;
                           request (inAssembly "m.json") "a3" "a3:d1" FILE]).2)
      <-> exists c,
            c ∈ [request (inAssembly "m.json") "a1" "a1:d1" FILE;
                 request (inAssembly "m.json") "a2" "a2:d1" FILE;
                 request (inAssembly "m.json") "a3" "a3:d1" FILE]
            /\ assetType c = DOCKER_IMAGE).
Proof.
  split; [vm_compute; reflexivity|].
  destruct (one_role_per_asset_type ["tmp"; "cdk.out"] exampleArtifact None None
              Pipeline_new
              [request (inAssembly "m.json") "a1" "a1:d1" FILE;
               request (inAssembly "m.json") "a2" "a2:d1" FILE;
               request (inAssembly "m.json") "a3" "a3:d1" FILE])
    as (_ & _ & _ & _ & _ & H).
  apply H. vm_compute. reflexivity.
Defined.

(** *** Names of the publishing actions *)

Lemma map_alter_same {A B : Type} (g : A -> B) (f : A -> A) i (l : list A) :
  (forall a, g (f a) = g a) -> map g (alter f i l) = map g l.
Proof.
  intros Hg. revert i. induction l as [|x l IH]; intros [|i]; simpl; try reflexivity.
  - rewrite Hg. reflexivity.
  - f_equal. apply IH.
Qed.

Lemma filter_alter_same {A B : Type} (P : A -> Prop) `{forall a, Decision (P a)}
    (g : A -> B) (f : A -> A) i (l : list A) :
  (forall a, g (f a) = g a) -> (forall a, P (f a) <-> P a) ->
  map g (filter P (alter f i l)) = map g (filter P l).
Proof.
  intros Hg HP. revert i. induction l as [|x l IH]; intros [|i]; try reflexivity.
  - change (alter f 0 (x :: l)) with (f x :: l). rewrite !filter_cons.
    destruct (decide (P (f x))) as [Hy|Hn], (decide (P x)) as [Hy'|Hn']; simpl.
    + rewrite Hg. reflexivity.
    + exfalso. apply Hn', HP, Hy.
    + exfalso. apply Hn, HP, Hy'.
    + reflexivity.
  - change (alter f (S i) (x :: l)) with (x :: alter f i l). rewrite !filter_cons.
    destruct (decide (P x)); simpl; rewrite IH; reflexivity.
Qed.

Lemma sequenceNames_S prefix n :
  sequenceNames prefix (S n) = sequenceNames prefix n ++ [prefix +:+ pretty (S n)].
Proof.
  unfold sequenceNames. rewrite seq_S, map_app. reflexivity.
Qed.

Lemma namesNumbered_new outdir art v n p :
  namesNumbered (AssetPublishing_new outdir art v n p).
Proof. unfold namesNumbered, AssetPublishing_new; simpl. repeat split; lia. Qed.

Lemma namesNumbered_step this c this' :
  namesNumbered this ->
  escapes (myCxAsmRoot this) (assetManifestPath c) = false ->
  addPublishAssetAction this c = (Normal tt, this') ->
  namesNumbered this'.
Proof.
  intros (Hf & Hd & Hfn & Hdn) He H.
  destruct (request_normal this c He (proj2 (request_returned _ _ _ H))) as (this1 & H1 & _ & _ & _ & _ & Hcase).
  rewrite H in H1. injection H1 as <-.
  unfold namesNumbered, actionsOfType in *.
  destruct (publishers this !! assetId c) as [r|].
  - destruct Hcase as (_ & _ & -> & -> & ->).
    rewrite !filter_alter_same; auto;
      intros a; destruct (addPublishCommand_fields a (relativeManifest this c)
                            (assetSelector c)) as (_ & Hn & Ht & _);
      rewrite ?Ht; auto; reflexivity.
  - destruct Hcase as (_ & _ & -> & -> & a & -> & Hname & _ & Hty & _).
    rewrite !filter_app, !filter_cons, !filter_nil, !map_app, Hty.
    destruct (assetType c); simpl in *.
    + rewrite Hfn, Hdn, app_nil_r.
      replace (_fileAssetCtr this - 0) with (S (_fileAssetCtr this - 1)) by lia.
      rewrite sequenceNames_S, Hname.
      replace (S (_fileAssetCtr this - 1)) with (_fileAssetCtr this) by lia.
      repeat split; auto; lia.
    + rewrite Hfn, Hdn, app_nil_r.
      replace (_dockerAssetCtr this - 0) with (S (_dockerAssetCtr this - 1)) by lia.
      rewrite sequenceNames_S, Hname.
      replace (S (_dockerAssetCtr this - 1)) with (_dockerAssetCtr this) by lia.
      repeat split; auto; lia.
Qed.

Lemma identityToken_addPublishCommand a path sel :
  identityToken (addPublishCommand a path sel) = identityToken a.
Proof.
  unfold identityToken.
  destruct (addPublishCommand_fields a path sel) as (-> & -> & _). reflexivity.
Qed.

Lemma sameTokens_step s1 s2 c1 c2 s1' s2' :
  sameTokens s1 s2 ->
  sameButSource c1 c2 ->
  escapes (myCxAsmRoot s1) (assetManifestPath c1) = false ->
  escapes (myCxAsmRoot s2) (assetManifestPath c2) = false ->
  addPublishAssetAction s1 c1 = (Normal tt, s1') ->
  addPublishAssetAction s2 c2 = (Normal tt, s2') ->
  sameTokens s1' s2'.
Proof.
  intros (Hp & Hf & Hd & Htok) (Hid & _ & Hty) He1 He2 H1 H2.
  destruct (request_normal s1 c1 He1 (proj2 (request_returned _ _ _ H1))) as (x1 & X1 & _ & _ & _ & _ & Hc1).
  destruct (request_normal s2 c2 He2 (proj2 (request_returned _ _ _ H2))) as (x2 & X2 & _ & _ & _ & _ & Hc2).
  rewrite H1 in X1. injection X1 as <-. rewrite H2 in X2. injection X2 as <-.
  assert (Hlen : length (publishActions s1) = length (publishActions s2)).
  { rewrite <- (length_map identityToken (publishActions s1)), Htok.
    apply length_map. }
  rewrite Hp, Hid in Hc1. unfold sameTokens.
  destruct (publishers s2 !! assetId c2) as [r|].
  - destruct Hc1 as (-> & _ & -> & -> & ->). destruct Hc2 as (-> & _ & -> & -> & ->).
    rewrite !map_alter_same by (intros; apply identityToken_addPublishCommand).
    auto.
  - destruct Hc1 as (-> & _ & -> & -> & a1 & -> & Hn1 & Hi1 & _).
    destruct Hc2 as (-> & _ & -> & -> & a2 & -> & Hn2 & Hi2 & _).
    rewrite !map_app, Htok, Hlen, Hf, Hd, Hty. repeat split; auto.
    simpl. unfold identityToken. rewrite Hi1, Hi2, Hn1, Hn2, Hf, Hd, Hty. reflexivity.
Qed.

Lemma sameTokens_run : forall cs1 cs2,
  Forall2 sameButSource cs1 cs2 ->
  forall s1 s2 s1' s2',
    sameTokens s1 s2 ->
    publishAll s1 cs1 = (Normal tt, s1') ->
    publishAll s2 cs2 = (Normal tt, s2') ->
    sameTokens s1' s2'.
Proof.
  induction 1 as [|c1 c2 cs1 cs2 Hc Hcs IH]; intros s1 s2 s1' s2' Hsim R1 R2.
  - simpl in R1, R2. injection R1 as <-. injection R2 as <-. exact Hsim.
  - apply publishAll_normal_cons in R1 as (x1 & He1 & H1 & R1).
    apply publishAll_normal_cons in R2 as (x2 & He2 & H2 & R2).
    eapply IH; [|exact R1|exact R2].
    eapply sameTokens_step; eauto.
Qed.

Lemma namesNumbered_run outdir art v n p cs :
  namesNumbered (publishAll (AssetPublishing_new outdir art v n p) cs).2.
Proof.
  apply publishAll_invariant.
  - intros this c this'. apply namesNumbered_step.
  - intros this t. unfold namesNumbered, actionsOfType.
    destruct (generateAssetRole_fields this t) as (_ & _ & _ & -> & -> & -> & _). auto.
  - apply namesNumbered_new.
Qed.

Lemma sameTokens_refl this : sameTokens this this.
Proof. unfold sameTokens. auto. Qed.

(** *** Asset identities and their actions *)

Lemma firstRequests_ids cs id :
  id ∈ map assetId (firstRequests cs) <-> id ∈ map assetId cs.
Proof.
  induction cs as [|c cs IH]; simpl; [reflexivity|].
  rewrite !elem_of_cons, <- IH. split.
  - intros [H|H]; [auto|]. right.
    apply list_elem_of_fmap in H as (c' & -> & Hin).
    apply list_elem_of_filter in Hin as [_ Hin].
    apply list_elem_of_fmap. eauto.
  - intros [H|H]; [auto|].
    destruct (decide (id = assetId c)) as [Heq|Hne]; [auto|]. right.
    apply list_elem_of_fmap in H as (c' & -> & Hin).
    apply list_elem_of_fmap. exists c'. split; [reflexivity|].
    apply list_elem_of_filter. auto.
Qed.

Lemma firstRequests_snoc cs c :
  firstRequests (cs ++ [c])
  = if decide (assetId c ∈ map assetId cs) then firstRequests cs
    else firstRequests cs ++ [c].
Proof.
  induction cs as [|x cs IH]; cbn [firstRequests app map].
  - rewrite decide_False by (intros H; inversion H). rewrite filter_nil. reflexivity.
  - rewrite IH. destruct (decide (assetId c ∈ map assetId cs)) as [Hin|Hout].
    + rewrite decide_True by (apply elem_of_cons; auto). reflexivity.
    + rewrite filter_app. destruct (decide (assetId c = assetId x)) as [Heq|Hne].
      * rewrite decide_True by (apply elem_of_cons; auto).
        rewrite filter_cons_False, filter_nil, app_nil_r by auto. reflexivity.
      * rewrite decide_False
          by (intros H; apply elem_of_cons in H as [H|H]; auto).
        rewrite filter_cons_True, filter_nil by auto. reflexivity.
Qed.

Lemma map_Some_is_Some {A B : Type} (f : A -> option B) (l : list A) (k : list B) x :
  map f l = map Some k -> x ∈ l -> is_Some (f x).
Proof.
  intros Heq Hx.
  assert (Hin : f x ∈ map Some k).
  { rewrite <- Heq. apply list_elem_of_fmap. eauto. }
  apply list_elem_of_fmap in Hin as (y & -> & _). eauto.
Qed.

Lemma map_ext_elem {A B : Type} (f g : A -> B) (l : list A) :
  (forall x, x ∈ l -> f x = g x) -> map f l = map g l.
Proof.
  induction l as [|y l IH]; intros H; simpl; [reflexivity|].
  rewrite (H y) by (apply elem_of_cons; auto). f_equal.
  apply IH. intros x Hx. apply H, elem_of_cons. auto.
Qed.

Lemma assetsBound_new outdir art v n p :
  assetsBound [] (AssetPublishing_new outdir art v n p).
Proof.
  unfold assetsBound, AssetPublishing_new; simpl. split; [reflexivity|].
  split; [reflexivity|]. intros id [r H]. rewrite lookup_empty in H. discriminate.
Qed.

Lemma assetsBound_step processed this c this' :
  assetsBound processed this ->
  addPublishAssetAction this c = (Normal tt, this') ->
  assetsBound (processed ++ [c]) this'.
Proof.
  intros (Hbound & Htypes & Hdom) H.
  destruct (request_returned _ _ _ H) as [He Hown].
  destruct (request_normal this c He Hown) as (x & X & _ & _ & _ & _ & Hcase).
  rewrite H in X. injection X as <-.
  unfold assetsBound. rewrite firstRequests_snoc, map_app.
  destruct (publishers this !! assetId c) as [r|] eqn:Hp.
  - destruct Hcase as (-> & _ & _ & _ & ->).
    rewrite decide_True by (apply Hdom; rewrite Hp; eauto).
    rewrite length_alter, map_alter_same by (intros a; apply addPublishCommand_fields).
    split; [exact Hbound|]. split; [exact Htypes|].
    intros id Hid. apply elem_of_app. left. apply Hdom, Hid.
  - destruct Hcase as (-> & _ & _ & _ & a & -> & _ & _ & Hty & _).
    assert (Hnew : assetId c ∉ map assetId processed).
    { intros Hin. apply firstRequests_ids in Hin.
      apply list_elem_of_fmap in Hin as (c' & Heq & Hin).
      destruct (map_Some_is_Some _ _ _ c' Hbound Hin) as [r Hr].
      rewrite <- Heq in Hr. congruence. }
    rewrite decide_False by exact Hnew.
    rewrite !map_app, length_app, Nat.add_1_r, seq_S, map_app. simpl.
    rewrite lookup_insert_eq, Hty, Htypes.
    split; [|split; [reflexivity|]].
    + f_equal. rewrite <- Hbound. apply map_ext_elem. intros c' Hc'.
      apply lookup_insert_ne. intros Heq. apply Hnew.
      apply firstRequests_ids. rewrite Heq. apply list_elem_of_fmap. eauto.
    + intros id [r Hr]. apply elem_of_app.
      destruct (decide (assetId c = id)) as [<-|Hne].
      * right. apply list_elem_of_singleton. reflexivity.
      * left. apply Hdom. rewrite lookup_insert_ne in Hr by exact Hne. eauto.
Qed.

Lemma assetsBound_run : forall cs processed this this',
  assetsBound processed this ->
  publishAll this cs = (Normal tt, this') ->
  assetsBound (processed ++ cs) this'.
Proof.
  induction cs as [|c cs IH]; intros processed this this' Hb Hrun.
  - simpl in Hrun. injection Hrun as <-. rewrite app_nil_r. exact Hb.
  - apply publishAll_normal_cons in Hrun as (this1 & _ & H1 & Hrun).
    change (c :: cs) with ([c] ++ cs). rewrite app_assoc.
    apply (IH _ this1); [|exact Hrun]. exact (assetsBound_step _ _ _ _ Hb H1).
Qed.

(** The position, among the elements that pass a test, of an element that
    passes it. *)
Lemma filter_lookup {A : Type} (P : A -> Prop) `{forall a, Decision (P a)} :
  forall (l : list A) k x,
    l !! k = Some x -> P x ->
    filter P l !! length (filter P (take k l)) = Some x.
Proof.
  induction l as [|y l IH]; intros k x Hk HP; [discriminate|].
  destruct k as [|k]; simpl in Hk.
  - injection Hk as ->. simpl. rewrite filter_cons_True by exact HP. reflexivity.
  - change (take (S k) (y :: l)) with (y :: take k l).
    rewrite !filter_cons. destruct (decide (P y)); simpl; apply IH; auto.
Qed.

Lemma filter_length_map {A B C : Type} (f : A -> C) (g : B -> C)
    (P : C -> Prop) `{forall c, Decision (P c)} :
  forall (l1 : list A) (l2 : list B) k,
    map f l1 = map g l2 ->
    length (filter (fun a => P (f a)) (take k l1))
    = length (filter (fun b => P (g b)) (take k l2)).
Proof.
  induction l1 as [|a l1 IH]; intros [|b l2] k Heq; try discriminate.
  - destruct k; reflexivity.
  - simpl in Heq. injection Heq as Hab Heq.
    destruct k as [|k]; [reflexivity|].
    change (take (S k) (a :: l1)) with (a :: take k l1).
    change (take (S k) (b :: l2)) with (b :: take k l2).
    rewrite !filter_cons, <- Hab.
    destruct (decide (P (f a))); simpl; rewrite (IH l2 k Heq); reflexivity.
Qed.

Lemma sequenceNames_lookup prefix n i name :
  sequenceNames prefix n !! i = Some name -> name = prefix +:+ pretty (S i).
Proof.
  unfold sequenceNames. intros H.
  apply list_lookup_fmap_Some in H as (k & -> & Hk).
  apply lookup_seq in Hk as [-> _]. reflexivity.
Qed.

(** The name of the action at position [k], when the names are numbered
    within each asset type. *)
Lemma namesNumbered_lookup this k x :
  namesNumbered this ->
  publishActions this !! k = Some x ->
  actionName x
  = (if bool_decide (action_assetType x = FILE) then "FileAsset" else "DockerAsset")
    +:+ pretty (S (length (filter (fun a => action_assetType a = action_assetType x)
                             (take k (publishActions this))))).
Proof.
  intros (_ & _ & Hf & Hd) Hk. unfold actionsOfType in Hf, Hd.
  pose proof (filter_lookup (fun a => action_assetType a = action_assetType x)
                _ k x Hk eq_refl) as Hpos.
  apply (f_equal (fmap actionName)) in Hpos. rewrite <- list_lookup_fmap in Hpos.
  simpl in Hpos.
  destruct (action_assetType x) eqn:Ht; simpl.
  - change (actionName <$> filter (fun a => action_assetType a = FILE) (publishActions this))
      with (map actionName (filter (fun a => action_assetType a = FILE) (publishActions this)))
      in Hpos.
    rewrite Hf in Hpos. exact (sequenceNames_lookup _ _ _ _ Hpos).
  - change (actionName <$> filter (fun a => action_assetType a = DOCKER_IMAGE)
                             (publishActions this))
      with (map actionName (filter (fun a => action_assetType a = DOCKER_IMAGE)
                              (publishActions this)))
      in Hpos.
    rewrite Hd in Hpos. exact (sequenceNames_lookup _ _ _ _ Hpos).
Qed.

(** C3.  Two runs from the same fresh coordinator whose requests differ at
    most in the location (and so the content) of the manifests, both
    returning normally.  The publishing actions have the same identity
    tokens in both runs, and every asset identity is bound to the same
    action.  There is one action per asset identity requested, however
    often it is requested: the k-th identity, in the order of the first
    requests, is bound to the k-th action, which has the asset type of that
    first request, and an identity never requested is bound to none.  The
    token is the sequence number within the asset type: the action of the
    N-th FILE asset is named FileAssetN, that of the M-th image asset
    DockerAssetM, so that the actions for FILE assets are named FileAsset1,
    FileAsset2, ... in the order of their creation and those for image
    assets DockerAsset1, DockerAsset2, ...; neither the asset identity nor
    the manifest enters. *)
Theorem action_names_are_sequence_numbers outdir art v n p cs1 cs2 s1 s2 :
  Forall2 sameButSource cs1 cs2 ->
  publishAll (AssetPublishing_new outdir art v n p) cs1 = (Normal tt, s1) ->
  publishAll (AssetPublishing_new outdir art v n p) cs2 = (Normal tt, s2) ->
  map identityToken (publishActions s1) = map identityToken (publishActions s2)
  /\ publishers s1 = publishers s2
  /\ map actionName (actionsOfType FILE s1)
     = sequenceNames "FileAsset" (length (actionsOfType FILE s1))
  /\ map actionName (actionsOfType DOCKER_IMAGE s1)
     = sequenceNames "DockerAsset" (length (actionsOfType DOCKER_IMAGE s1))
  /\ (forall a, a ∈ publishActions s1 -> constructId a = actionName a)
  /\ length (publishActions s1) = length (firstRequests cs1)
  /\ (forall id, id ∉ map assetId cs1 -> publishers s1 !! id = None)
  /\ (forall k c,
        firstRequests cs1 !! k = Some c ->
        exists x,
          publishers s1 !! assetId c = Some k
          /\ publishActions s1 !! k = Some x
          /\ action_assetType x = assetType c
          /\ actionName x
             = (if bool_decide (assetType c = FILE) then "FileAsset" else "DockerAsset")
               +:+ pretty (S (length (filter (fun c' => assetType c' = assetType c)
                                        (take k (firstRequests cs1)))))).
Proof.
  intros Hcs R1 R2.
  destruct (sameTokens_run cs1 cs2 Hcs _ _ s1 s2 (sameTokens_refl _) R1 R2)
    as (Hp & _ & _ & Htok).
  pose proof (namesNumbered_run outdir art v n p cs1) as Hnum.
  rewrite R1 in Hnum. simpl in Hnum. pose proof Hnum as (_ & _ & Hf & Hd).
  pose proof (assetsBound_run cs1 [] _ s1 (assetsBound_new outdir art v n p) R1)
    as (Hbound & Htypes & Hdom).
  simpl in Hbound, Htypes, Hdom.
  assert (Hlen : forall prefix k, length (sequenceNames prefix k) = k).
  { intros. unfold sequenceNames. rewrite length_map. apply length_seq. }
  assert (Hcount : length (publishActions s1) = length (firstRequests cs1)).
  { rewrite <- (length_map action_assetType), Htypes. apply length_map. }
  split; [exact Htok|]. split; [exact Hp|].
  split; [|split; [|split; [|split; [exact Hcount|split]]]].
  - assert (E : length (actionsOfType FILE s1) = _fileAssetCtr s1 - 1)
      by (rewrite <- (length_map actionName), Hf; apply Hlen).
    rewrite E. exact Hf.
  - assert (E : length (actionsOfType DOCKER_IMAGE s1) = _dockerAssetCtr s1 - 1)
      by (rewrite <- (length_map actionName), Hd; apply Hlen).
    rewrite E. exact Hd.
  - assert (Hinv : forall a, a ∈ publishActions
                      (publishAll (AssetPublishing_new outdir art v n p) cs1).2 ->
                    constructId a = actionName a).
    { apply (publishAll_invariant
               (fun this => forall a, a ∈ publishActions this -> constructId a = actionName a)).
      - intros this c this' Hall He H a Ha.
        destruct (request_normal this c He (proj2 (request_returned _ _ _ H)))
          as (x & X & _ & _ & _ & _ & Hcase).
        rewrite H in X. injection X as <-.
        destruct (publishers this !! assetId c) as [r|].
        + destruct Hcase as (_ & _ & _ & _ & Hheap). rewrite Hheap in Ha.
          apply elem_of_alter_inv in Ha as [Hin|(y & Hy & ->)]; [auto|].
          destruct (addPublishCommand_fields y (relativeManifest this c) (assetSelector c))
            as (-> & -> & _). auto.
        + destruct Hcase as (_ & _ & _ & _ & a0 & Hheap & _ & Hid & _).
          rewrite Hheap in Ha. apply elem_of_app in Ha as [Hin|Hin]; [auto|].
          apply list_elem_of_singleton in Hin. subst a. exact Hid.
      - intros this t Hall.
        destruct (generateAssetRole_fields this t) as (_ & _ & _ & _ & _ & -> & _).
        exact Hall.
      - intros a Ha. inversion Ha. }
    rewrite R1 in Hinv. exact Hinv.
  - intros id Hout. destruct (publishers s1 !! id) as [r|] eqn:Hr; [|reflexivity].
    exfalso. apply Hout, Hdom. eauto.
  - intros k c Hk.
    assert (Hlt : k < length (publishActions s1))
      by (rewrite Hcount; eapply lookup_lt_Some, Hk).
    destruct (lookup_lt_is_Some_2 _ _ Hlt) as [x Hx].
    assert (Hty : action_assetType x = assetType c).
    { apply (f_equal (fun l => l !! k)) in Htypes.
      change (map action_assetType (publishActions s1))
        with (action_assetType <$> publishActions s1) in Htypes.
      change (map assetType (firstRequests cs1))
        with (assetType <$> firstRequests cs1) in Htypes.
      rewrite !list_lookup_fmap, Hx, Hk in Htypes. simpl in Htypes. congruence. }
    exists x. split; [|split; [exact Hx|split; [exact Hty|]]].
    + apply (f_equal (fun l => l !! k)) in Hbound.
      change (map (fun c0 => publishers s1 !! assetId c0) (firstRequests cs1))
        with ((fun c0 => publishers s1 !! assetId c0) <$> firstRequests cs1) in Hbound.
      change (map Some (seq 0 (length (publishActions s1))))
        with (Some <$> seq 0 (length (publishActions s1))) in Hbound.
      rewrite !list_lookup_fmap, Hk in Hbound. simpl in Hbound.
      rewrite (proj2 (lookup_seq 0 _ k k) (conj eq_refl Hlt)) in Hbound.
      simpl in Hbound. congruence.
    + rewrite (namesNumbered_lookup s1 k x Hnum Hx), Hty.
      apply (f_equal (fun m => (if bool_decide (assetType c = FILE)
                                then "FileAsset" else "DockerAsset") +:+ pretty (S m))).
      exact (filter_length_map action_assetType assetType
               (fun t => t = assetType c) (publishActions s1) (firstRequests cs1) k Htypes).
Qed.

Lemma action_names_are_sequence_numbers_witness :
  exists s1 s2,
    publishAll freshAssets
      [request (inAssembly "old.json") "a1" "a1:d1" FILE;
       request (inAssembly "old.json") "b1" "b1:d1" DOCKER_IMAGE;
       request (inAssembly "old.json") "a1" "a1:d2" FILE;
       request (inAssembly "old.json") "a2" "a2:d1" FILE] = (Normal tt, s1)
    /\ publishAll freshAssets
      [request (inAssembly "new.json") "a1" "a1:d1" FILE;
       request (inAssembly "new.json") "b1" "b1:d1" DOCKER_IMAGE;
       request (inAssembly "new.json") "a1" "a1:d2" FILE;
       request (inAssembly "new.json") "a2" "a2:d1" FILE] = (Normal tt, s2)
    /\ map identityToken (publishActions s1) = map identityToken (publishActions s2)
    /\ length (publishActions s1) = 3
    /\ map actionName (publishActions s1) = ["FileAsset1"; "DockerAsset1"; "FileAsset2"].
Proof.
  eexists. eexists. split; [vm_compute; reflexivity|]. split; [vm_compute; reflexivity|].
  split; [|split; vm_compute; reflexivity].
  eapply (action_names_are_sequence_numbers ["tmp"; "cdk.out"] exampleArtifact None None
            Pipeline_new
            [request (inAssembly "old.json") "a1" "a1:d1" FILE;
             request (inAssembly "old.json") "b1" "b1:d1" DOCKER_IMAGE;
             request (inAssembly "old.json") "a1" "a1:d2" FILE;
             request (inAssembly "old.json") "a2" "a2:d1" FILE]
            [request (inAssembly "new.json") "a1" "a1:d1" FILE;
             request (inAssembly "new.json") "b1" "b1:d1" DOCKER_IMAGE;
             request (inAssembly "new.json") "a1" "a1:d2" FILE;
             request (inAssembly "new.json") "a2" "a2:d1" FILE]).
  - repeat constructor.
  - vm_compute. reflexivity.
  - vm_compute. reflexivity.
Defined.

(** *** The Assets stage *)

Lemma indexOf_absent l x : x ∉ l -> indexOf l x = (-1)%Z.
Proof.
  induction l as [|y l IH]; intros H; simpl; [reflexivity|].
  rewrite bool_decide_eq_false_2 by (intros ->; apply H, elem_of_cons; auto).
  rewrite IH by (intros Hin; apply H, elem_of_cons; auto). reflexivity.
Qed.

Lemma indexOf_last l x : x ∉ l -> indexOf (l ++ [x]) x = Z.of_nat (length l).
Proof.
  induction l as [|y l IH]; intros H; simpl.
  - rewrite bool_decide_eq_true_2 by reflexivity. reflexivity.
  - rewrite bool_decide_eq_false_2 by (intros ->; apply H, elem_of_cons; auto).
    rewrite IH by (intros Hin; apply H, elem_of_cons; auto).
    destruct (Z.gtb_spec (Z.of_nat (length l)) (-1)); lia.
Qed.

Lemma delete_last {A : Type} (l : list A) x : delete (length l) (l ++ [x]) = l.
Proof. induction l as [|y l IH]; simpl; [reflexivity|]. f_equal. exact IH. Qed.

(** *** Removing the stage from any pipeline *)

Lemma indexOf_bounds l x : (-1 <= indexOf l x < Z.of_nat (length l))%Z.
Proof.
  induction l as [|y l IH]; simpl; [lia|].
  case_bool_decide; [lia|].
  destruct (Z.gtb_spec (indexOf l x) (-1)); lia.
Qed.

Lemma filter_all {A : Type} (P : A -> Prop) `{forall a, Decision (P a)} (l : list A) :
  (forall a, a ∈ l -> P a) -> filter P l = l.
Proof.
  induction l as [|x l IH]; intros Hall; [reflexivity|].
  rewrite filter_cons, decide_True by (apply Hall, elem_of_cons; auto).
  f_equal. apply IH. intros a Ha. apply Hall, elem_of_cons. auto.
Qed.

(** [splice(ix, 1)] at [indexOf] takes out the one occurrence. *)
Lemma splice_indexOf l x :
  NoDup l ->
  (if (indexOf l x >? -1)%Z then delete (Z.to_nat (indexOf l x)) l else l)
  = filter (fun r => r <> x) l.
Proof.
  induction l as [|y l IH]; intros Hnd; [reflexivity|].
  apply NoDup_cons in Hnd as [Hy Hnd]. specialize (IH Hnd).
  simpl. rewrite filter_cons. case_bool_decide as Hyx.
  - subst y. simpl. rewrite decide_False by auto.
    symmetry. apply filter_all. intros a Ha ->. exact (Hy Ha).
  - rewrite decide_True by auto.
    pose proof (indexOf_bounds l x) as Hb.
    destruct (Z.gtb_spec (indexOf l x) (-1)) as [Hgt|Hle].
    + destruct (Z.gtb_spec (indexOf l x + 1) (-1)); [|lia].
      replace (Z.to_nat (indexOf l x + 1)) with (S (Z.to_nat (indexOf l x))) by lia.
      simpl. f_equal. exact IH.
    + simpl. f_equal. exact IH.
Qed.

(** On any pipeline that lists each stage once, wherever the Assets stage
    stands in it: with no publisher, [removeAssetsStageIfEmpty] takes the
    Assets stage out of [_stages] and leaves the other stages in their
    order and every stage object as it is; with a publisher it changes
    nothing. *)
Theorem removeAssetsStageIfEmpty_effect this :
  NoDup (_stages (pipeline this)) ->
  (publishers this = ∅ ->
   _stages (pipeline (removeAssetsStageIfEmpty this))
   = filter (fun r => r <> stage this) (_stages (pipeline this))
   /\ stageObjects (pipeline (removeAssetsStageIfEmpty this))
      = stageObjects (pipeline this)
   /\ publishActions (removeAssetsStageIfEmpty this) = publishActions this)
  /\ (publishers this <> ∅ -> removeAssetsStageIfEmpty this = this).
Proof.
  intros Hnd. unfold removeAssetsStageIfEmpty. split.
  - intros Hempty. rewrite bool_decide_eq_true_2 by (rewrite Hempty; reflexivity).
    pose proof (splice_indexOf (_stages (pipeline this)) (stage this) Hnd) as Hsplice.
    destruct (indexOf (_stages (pipeline this)) (stage this) >? -1)%Z; simpl; auto.
  - intros Hsome. rewrite bool_decide_eq_false_2; [reflexivity|].
    intros Hsize. apply Hsome, map_size_empty_iff, Hsize.
Qed.

Lemma removeAssetsStageIfEmpty_effect_witness :
  map stageName (Pipeline_stages (pipeline withLaterStage)) = ["Assets"; "Prod"]
  /\ _stages (pipeline (removeAssetsStageIfEmpty withLaterStage))
     = filter (fun r => r <> stage withLaterStage) (_stages (pipeline withLaterStage))
  /\ map stageName (Pipeline_stages (pipeline (removeAssetsStageIfEmpty withLaterStage)))
     = ["Prod"].
Proof.
  split; [vm_compute; reflexivity|]. split; [|vm_compute; reflexivity].
  destruct (removeAssetsStageIfEmpty_effect withLaterStage) as [Hgone _].
  - refine (bool_decide_unpack _ _). vm_compute. exact I.
  - apply Hgone. reflexivity.
Defined.

(** ** Stack outputs *)

Lemma outputArtifact_Some outs k a :
  outputArtifact outs k = Some a -> (k, a) ∈ outs.
Proof.
  unfold outputArtifact. induction outs as [|[k' a'] outs IH]; simpl; [discriminate|].
  case_bool_decide as Hk; simpl in *.
  - intros [= <-]. subst k'. apply elem_of_cons. auto.
  - intros H. apply elem_of_cons. right. apply IH, H.
Qed.

Lemma outputArtifact_None outs k :
  outputArtifact outs k = None -> k ∉ map fst outs.
Proof.
  unfold outputArtifact. induction outs as [|[k' a'] outs IH]; simpl.
  - intros _ H. inversion H.
  - case_bool_decide as Hk; simpl in *; [discriminate|].
    intros H Hin. apply elem_of_cons in Hin as [->|Hin]; [congruence|].
    exact (IH H Hin).
Qed.

Lemma outputArtifact_app_l outs more k a :
  outputArtifact outs k = Some a -> outputArtifact (outs ++ more) k = Some a.
Proof.
  unfold outputArtifact. induction outs as [|[k' a'] outs IH]; simpl; [discriminate|].
  case_bool_decide; simpl; auto.
Qed.

Lemma outputArtifact_last outs k a :
  outputArtifact outs k = None -> outputArtifact (outs ++ [(k, a)]) k = Some a.
Proof.
  unfold outputArtifact. induction outs as [|[k' a'] outs IH]; simpl.
  - rewrite bool_decide_eq_true_2 by reflexivity. reflexivity.
  - case_bool_decide; simpl; [discriminate|]. exact IH.
Qed.

(** A call throws exactly when the stack's artifact id finds an inherited
    property; the construct is then as it was. *)
Lemma stackOutput_throws this o m this' :
  stackOutput this o = (Throw m, this') ->
  this' = this
  /\ outputArtifact (_outputArtifacts this) (output_stackArtifactId o) = None
  /\ inheritedName (output_stackArtifactId o) = true.
Proof.
  unfold stackOutput, getProperty.
  destruct (outputArtifact (_outputArtifacts this) (output_stackArtifactId o))
    as [a|] eqn:Hlook; simpl.
  - rewrite Hlook. discriminate.
  - destruct (inheritedName (output_stackArtifactId o)) eqn:Hname; simpl.
    + rewrite Hlook. intros [= _ <-]. auto.
    + rewrite (outputArtifact_last _ _ _ Hlook). discriminate.
Qed.

Lemma stackOutput_returns this o :
  (outputArtifact (_outputArtifacts this) (output_stackArtifactId o) = None ->
   inheritedName (output_stackArtifactId o) = false) ->
  exists h this', stackOutput this o = (Normal h, this').
Proof.
  intros Hown. unfold stackOutput, getProperty.
  destruct (outputArtifact (_outputArtifacts this) (output_stackArtifactId o))
    as [a|] eqn:Hlook; simpl.
  - rewrite Hlook. eauto.
  - rewrite (Hown eq_refl). simpl. rewrite (outputArtifact_last _ _ _ Hlook). eauto.
Qed.

(** One call of [stackOutput] that returns. *)
Lemma stackOutput_step this o h this' :
  outputsAllocated this ->
  stackOutput this o = (Normal h, this') ->
  outputsAllocated this'
  /\ outputArtifact (_outputArtifacts this') (output_stackArtifactId o)
     = Some (artifact (artifactFile h))
  /\ (forall k a, outputArtifact (_outputArtifacts this) k = Some a ->
                  outputArtifact (_outputArtifacts this') k = Some a)
  /\ allocated this <= stackOutputObject h
  /\ stackOutputObject h < allocated this'
  /\ _assets this' = _assets this.
Proof.
  intros (Hk & Ho & Ha). unfold stackOutput, getProperty, outputsAllocated.
  destruct (outputArtifact (_outputArtifacts this) (output_stackArtifactId o))
    as [a|] eqn:Hlook; simpl.
  - rewrite Hlook. intros [= <- <-]. simpl.
    repeat split; auto; try lia;
      try (eapply Forall_impl; [exact Ha|]; simpl; intros; lia).
  - destruct (inheritedName (output_stackArtifactId o)) eqn:Hname; simpl.
    + rewrite Hlook. discriminate.
    + rewrite (outputArtifact_last _ _ _ Hlook). intros [= <- <-]. simpl.
      repeat split; try lia.
      * rewrite map_app. apply NoDup_app. repeat split; auto.
        -- intros k Hin Hin'. simpl in Hin'. apply list_elem_of_singleton in Hin'. subst k.
           exact (outputArtifact_None _ _ Hlook Hin).
        -- apply NoDup_singleton.
      * rewrite map_app. apply NoDup_app. repeat split; auto.
        -- intros r Hin Hin'. simpl in Hin'. apply list_elem_of_singleton in Hin'. subst r.
           apply list_elem_of_fmap in Hin as (e & He & Hin).
           rewrite Forall_forall in Ha. apply Ha in Hin. lia.
        -- apply NoDup_singleton.
      * apply Forall_app. split.
        -- eapply Forall_impl; [exact Ha|]. simpl. intros; lia.
        -- apply Forall_singleton. simpl. lia.
      * apply outputArtifact_last, Hlook.
      * intros k a. apply outputArtifact_app_l.
Qed.

(** A run that returned has made every call return. *)
Lemma stackOutputs_normal_cons this o os hs final :
  stackOutputs this (o :: os) = (Normal hs, final) ->
  exists h hs' this1,
    hs = h :: hs'
    /\ stackOutput this o = (Normal h, this1)
    /\ stackOutputs this1 os = (Normal hs', final).
Proof.
  simpl. destruct (stackOutput this o) as [[h|m] this1]; [|discriminate].
  destruct (stackOutputs this1 os) as [[hs'|m] this2] eqn:Hrest; [|discriminate].
  intros [= <- <-]. exists h, hs', this1. split; [reflexivity|]. split; [reflexivity|exact Hrest].
Qed.

Lemma stackOutputs_length : forall os this hs final,
  stackOutputs this os = (Normal hs, final) -> length hs = length os.
Proof.
  induction os as [|o os IH]; intros this hs final H.
  - simpl in H. injection H as <- _. reflexivity.
  - apply stackOutputs_normal_cons in H as (h & hs' & this1 & -> & _ & H).
    simpl. f_equal. exact (IH _ _ _ H).
Qed.

(** A run of calls that returned: every handle holds the artifact stored
    for its stack at the end, and carries an object number of its own. *)
Lemma stackOutputs_run : forall os this hs final,
  outputsAllocated this ->
  stackOutputs this os = (Normal hs, final) ->
  outputsAllocated final
  /\ allocated this <= allocated final
  /\ _assets final = _assets this
  /\ (forall k a, outputArtifact (_outputArtifacts this) k = Some a ->
                  outputArtifact (_outputArtifacts final) k = Some a)
  /\ (forall i o h,
        os !! i = Some o -> hs !! i = Some h ->
        outputArtifact (_outputArtifacts final) (output_stackArtifactId o)
        = Some (artifact (artifactFile h))
        /\ allocated this <= stackOutputObject h
        /\ stackOutputObject h < allocated final)
  /\ (forall i j hi hj,
        i < j -> hs !! i = Some hi -> hs !! j = Some hj ->
        stackOutputObject hi < stackOutputObject hj).
Proof.
  induction os as [|o os IH]; intros this hs final Hinv Hrun.
  - simpl in Hrun. injection Hrun as <- <-.
    split; [exact Hinv|]. split; [lia|]. split; [reflexivity|].
    split; [auto|]. split; intros i; intros; destruct i; discriminate.
  - apply stackOutputs_normal_cons in Hrun as (h & hs' & this1 & -> & H1 & Hrun).
    destruct (stackOutput_step this o h this1 Hinv H1)
      as (Hinv1 & Hstored & Hkeep & Hlo & Hhi & Hassets).
    pose proof (stackOutputs_length _ _ _ _ Hrun) as Hlen.
    destruct (IH _ _ _ Hinv1 Hrun) as (Hinv2 & Hmono & Hassets2 & Hkeep2 & Hhandles & Horder).
    split; [exact Hinv2|]. split; [lia|]. split; [congruence|].
    split; [intros k a Hk; apply Hkeep2, Hkeep, Hk|]. split.
    + intros i o0 h0 Ho Hh. destruct i as [|i]; simpl in *.
      * injection Ho as <-. injection Hh as <-.
        split; [apply Hkeep2, Hstored|lia].
      * destruct (Hhandles i o0 h0 Ho Hh) as (? & ? & ?). split; [auto|lia].
    + intros i j hi hj Hij Hi Hj. destruct j as [|j]; [lia|].
      destruct i as [|i]; simpl in *.
      * injection Hi as <-.
        assert (Hsome : is_Some (os !! j)).
        { apply lookup_lt_is_Some. apply lookup_lt_Some in Hj.
          rewrite Hlen in Hj. exact Hj. }
        destruct Hsome as [oj Hoj].
        destruct (Hhandles j oj hj Hoj Hj) as (_ & ? & _). lia.
      * apply (Horder i j); auto. lia.
Qed.

Lemma NoDup_map_inj {A B : Type} (f : A -> B) (l : list A) x y :
  NoDup (map f l) -> x ∈ l -> y ∈ l -> f x = f y -> x = y.
Proof.
  induction l as [|z l IH]; simpl; intros Hnd Hx Hy Hf; [inversion Hx|].
  apply NoDup_cons in Hnd as [Hz Hnd].
  apply elem_of_cons in Hx as [->|Hx]; apply elem_of_cons in Hy as [->|Hy]; auto.
  - exfalso. apply Hz. rewrite Hf. apply list_elem_of_fmap. eauto.
  - exfalso. apply Hz. rewrite <- Hf. apply list_elem_of_fmap. eauto.
Qed.

(** C6 (as amended).  In a run of [stackOutput] calls that returned, two
    calls for the same stack gave handles that hold the identical artifact,
    although each call allocated a handle object of its own; two calls for
    distinct stacks gave handles that hold distinct artifacts; and an
    artifact, once stored for a stack, stays stored. *)
Theorem stackOutput_artifact_per_stack this os hs final i j oi oj hi hj :
  outputsAllocated this ->
  stackOutputs this os = (Normal hs, final) ->
  os !! i = Some oi ->
  os !! j = Some oj ->
  hs !! i = Some hi ->
  hs !! j = Some hj ->
  (output_stackArtifactId oi = output_stackArtifactId oj ->
   artifact (artifactFile hi) = artifact (artifactFile hj))
  /\ (output_stackArtifactId oi <> output_stackArtifactId oj ->
      artifactObject (artifact (artifactFile hi))
      <> artifactObject (artifact (artifactFile hj)))
  /\ (i <> j -> stackOutputObject hi <> stackOutputObject hj)
  /\ (forall k a,
        outputArtifact (_outputArtifacts this) k = Some a ->
        outputArtifact (_outputArtifacts final) k = Some a).
Proof.
  intros Hinv Hrun Hoi Hoj Hhi Hhj.
  destruct (stackOutputs_run os this hs final Hinv Hrun)
    as ((Hkeys & Hobjs & _) & _ & _ & Hkeep & Hhandles & Horder).
  destruct (Hhandles i oi hi Hoi Hhi) as (Hai & _).
  destruct (Hhandles j oj hj Hoj Hhj) as (Haj & _).
  split; [|split; [|split]].
  - intros Heq. rewrite Heq in Hai. congruence.
  - intros Hne Hobj. apply Hne.
    apply outputArtifact_Some in Hai, Haj.
    pose proof (NoDup_map_inj (fun e : string * Artifact => artifactObject e.2)
                  _ _ _ Hobjs Hai Haj Hobj) as Hsame.
    congruence.
  - intros Hij Heq.
    destruct (Nat.lt_total i j) as [Hlt|[->|Hlt]]; [|congruence|].
    + pose proof (Horder i j hi hj Hlt Hhi Hhj). lia.
    + pose proof (Horder j i hj hi Hlt Hhj Hhi). lia.
  - exact Hkeep.
Qed.

Lemma outputsAllocated_pipelineWith stages : outputsAllocated (pipelineWith stages).
Proof. unfold outputsAllocated; simpl. repeat split; constructor. Qed.

Lemma stackOutput_artifact_per_stack_witness :
  exists hs final h0 h2,
    stackOutputs twoStacks
      [outputOf "Api" "Url"; outputOf "Web" "Url"; outputOf "Api" "Arn"]
    = (Normal hs, final)
    /\ hs !! 0 = Some h0
    /\ hs !! 2 = Some h2
    /\ artifact (artifactFile h0) = artifact (artifactFile h2)
    /\ stackOutputObject h0 <> stackOutputObject h2.
Proof.
  eexists. eexists. eexists. eexists.
  split; [vm_compute; reflexivity|].
  split; [reflexivity|]. split; [reflexivity|].
  destruct (stackOutput_artifact_per_stack twoStacks
              [outputOf "Api" "Url"; outputOf "Web" "Url"; outputOf "Api" "Arn"]
              _ _ 0 2 (outputOf "Api" "Url") (outputOf "Api" "Arn") _ _
              (outputsAllocated_pipelineWith _) eq_refl eq_refl eq_refl eq_refl eq_refl)
    as (Hsame & _ & Hfresh & _).
  split; [apply Hsame; reflexivity|apply Hfresh; lia].
Defined.

(** C6 (as stated) fails: two calls for the same output of the same stack
    return two handle objects, number 2 and number 3; what they share is
    the artifact, object number 1.  And a call need not return a handle:
    for a stack whose artifact id is the name of an inherited property the
    lookup finds that property, and the call throws. *)
Lemma stackOutput_handles_are_fresh :
  (stackOutputs twoStacks [outputOf "Api" "Url"; outputOf "Api" "Url"]).1
  = Normal
      [ {| stackOutputObject := 2;
           artifactFile :=
             {| artifact := {| artifactObject := 1;
                               artifactName := Some "Artifact_Api_Outputs" |};
                fileName := "outputs.json" |};
           outputName := "Url" |};
        {| stackOutputObject := 3;
           artifactFile :=
             {| artifact := {| artifactObject := 1;
                               artifactName := Some "Artifact_Api_Outputs" |};
                fileName := "outputs.json" |};
           outputName := "Url" |} ]
  /\ (stackOutput twoStacks (outputOf "Api" "Url")).1
     <> (stackOutput (stackOutput twoStacks (outputOf "Api" "Url")).2
                     (outputOf "Api" "Url")).1
  /\ stackOutput twoStacks (outputOf "constructor" "Url")
     = (Throw "TypeError: this._outputArtifacts[stack.artifactId].atPath is not a function",
        twoStacks).
Proof.
  split; [vm_compute; reflexivity|].
  split; [vm_compute; discriminate|].
  vm_compute. reflexivity.
Qed.

(** ** Requested outputs *)

Lemma length_append a b :
  String.length (a +:+ b) = String.length a + String.length b.
Proof.
  induction a as [|c a IH]; [reflexivity|].
  rewrite append_String. simpl. rewrite IH. reflexivity.
Qed.

Lemma append_cancel_l p x y : p +:+ x = p +:+ y -> x = y.
Proof.
  induction p as [|c p IH]; [auto|].
  rewrite !append_String. intros [= H]. auto.
Qed.

Lemma append_cancel_r s : forall a b, a +:+ s = b +:+ s -> a = b.
Proof.
  induction a as [|c a IH]; intros [|d b] H.
  - reflexivity.
  - exfalso. apply (f_equal String.length) in H.
    rewrite append_empty, length_append in H. simpl in H. lia.
  - exfalso. apply (f_equal String.length) in H.
    rewrite append_empty, length_append in H. simpl in H. lia.
  - rewrite !append_String in H. injection H as -> H. f_equal. apply IH, H.
Qed.

Lemma outputNotDeployedError_inj a b :
  outputNotDeployedError a = outputNotDeployedError b -> a = b.
Proof.
  unfold outputNotDeployedError. intros H.
  apply append_cancel_l in H. apply append_cancel_r in H. exact H.
Qed.

Lemma errors_differ a D u : deployedBeforeError a D <> outputNotDeployedError u.
Proof.
  unfold deployedBeforeError, outputNotDeployedError.
  rewrite !append_String. discriminate.
Qed.

Lemma yielded_are_order_errors this e :
  e ∈ yielded (validateDeployOrder this) -> exists a D, e = deployedBeforeError a D.
Proof.
  destruct (validateDeployOrder_edges this) as [_ ->].
  intros He. apply list_elem_of_In, in_flat_map in He as ([a d] & _ & He).
  unfold edgeFindings, checkDependency in He. simpl in He.
  destruct (find _ _) as [D|]; simpl in He; [|contradiction].
  destruct (negb _); simpl in He; [|contradiction].
  destruct He as [<-|[]]. eauto.
Qed.

Lemma validateRequestedOutputs_filter this :
  validateRequestedOutputs this
  = map outputNotDeployedError
      (filter (fun k => k ∉ map stackArtifactId (stackActions this))
              (map fst (_outputArtifacts this))).
Proof.
  unfold validateRequestedOutputs.
  set (ids := map stackArtifactId (stackActions this)).
  assert (H : forall keys acc,
             fold_left (fun acc k =>
                          if negb (bool_decide (k ∈ ids))
                          then acc ++ [outputNotDeployedError k] else acc) keys acc
             = acc ++ map outputNotDeployedError (filter (fun k => k ∉ ids) keys)).
  { induction keys as [|k keys IH]; intros acc; simpl; [rewrite app_nil_r; reflexivity|].
    rewrite IH, filter_cons. case_bool_decide as Hk; simpl.
    - rewrite decide_False by auto. reflexivity.
    - rewrite decide_True by auto. simpl. rewrite <- app_assoc. reflexivity. }
  apply (H _ []).
Qed.

Lemma one_image_per_key {A : Type} `{EqDecision A} (f : string -> A)
    (keys : list string) (P : string -> Prop) `{forall k, Decision (P k)} u :
  (forall a b, f a = f b -> a = b) ->
  NoDup keys -> u ∈ keys -> P u ->
  length (filter (fun e => e = f u) (map f (filter P keys))) = 1.
Proof.
  intros Hinj.
  assert (Hnone : forall l, u ∉ l -> filter (fun e => e = f u) (map f (filter P l)) = []).
  { induction l as [|x l IHl]; intros Hx; [reflexivity|].
    assert (Hl : u ∉ l) by (intros Hu; apply Hx, elem_of_cons; auto).
    rewrite filter_cons. destruct (decide (P x)); [|auto].
    rewrite map_cons, filter_cons, decide_False; [auto|].
    intros Heq. apply Hinj in Heq. subst x. apply Hx, elem_of_cons. auto. }
  induction keys as [|k keys IH]; intros Hnd Hin HP; [inversion Hin|].
  apply NoDup_cons in Hnd as [Hk Hnd].
  apply elem_of_cons in Hin as [->|Hin].
  - rewrite filter_cons, decide_True by exact HP.
    rewrite map_cons, filter_cons, decide_True by reflexivity.
    rewrite (Hnone _ Hk). reflexivity.
  - rewrite filter_cons. destruct (decide (P k)); [|auto].
    rewrite map_cons, filter_cons, decide_False; [auto|].
    intros Heq. apply Hinj in Heq. subst k. contradiction.
Qed.

Lemma requested_is_stored this os hs final o :
  outputsAllocated this ->
  stackOutputs this os = (Normal hs, final) ->
  o ∈ os ->
  output_stackArtifactId o ∈ map fst (_outputArtifacts final).
Proof.
  intros Hinv Hrun Ho.
  destruct (stackOutputs_run os this hs final Hinv Hrun) as (_ & _ & _ & _ & Hhandles & _).
  apply list_elem_of_lookup in Ho as [i Hi].
  assert (Hh : is_Some (hs !! i)).
  { apply lookup_lt_is_Some. rewrite (stackOutputs_length _ _ _ _ Hrun).
    eapply lookup_lt_Some, Hi. }
  destruct Hh as [h Hh]. destruct (Hhandles i o h Hi Hh) as (Hstored & _).
  apply outputArtifact_Some in Hstored.
  apply list_elem_of_fmap. eexists. split; [|exact Hstored]. reflexivity.
Qed.

Lemma filter_absent {A : Type} `{EqDecision A} (m : A) (l : list A) :
  m ∉ l -> filter (fun e => e = m) l = [].
Proof.
  induction l as [|x l IH]; intros H; [reflexivity|].
  rewrite filter_cons, decide_False.
  - apply IH. intros Hin. apply H, elem_of_cons. auto.
  - intros ->. apply H, elem_of_cons. auto.
Qed.

Lemma filter_none {A : Type} (P : A -> Prop) `{forall a, Decision (P a)} (l : list A) :
  (forall a, a ∈ l -> ~ P a) -> filter P l = [].
Proof.
  induction l as [|x l IH]; intros Hall; [reflexivity|].
  rewrite filter_cons, decide_False by (apply Hall, elem_of_cons; auto).
  apply IH. intros a Ha. apply Hall, elem_of_cons. auto.
Qed.

(** C10.  After any run of [stackOutput] calls that returned, [validate]
    returns, for every stack an output was requested of and that no deploy
    action of the pipeline deploys, exactly one error naming that stack.
    When every stack with a requested output is deployed in the pipeline,
    the check of the requested outputs yields nothing. *)
Theorem requested_outputs_must_be_deployed this os hs final :
  outputsAllocated this ->
  stackOutputs this os = (Normal hs, final) ->
  (forall o,
     o ∈ os ->
     output_stackArtifactId o ∉ map stackArtifactId (stackActions final) ->
     length (filter (fun e => e = outputNotDeployedError (output_stackArtifactId o))
               (validate final).1) = 1)
  /\ ((forall u,
         u ∈ map fst (_outputArtifacts final) ->
         u ∈ map stackArtifactId (stackActions final)) ->
      validateRequestedOutputs final = []).
Proof.
  intros Hinv Hrun.
  destruct (stackOutputs_run os this hs final Hinv Hrun) as ((Hkeys & _) & _).
  pose proof (fun o => requested_is_stored this os hs final o Hinv Hrun) as Hstored.
  split.
  - intros o Ho Hmissing. unfold validate. cbn [fst app].
    rewrite filter_app, length_app, filter_absent.
    + rewrite validateRequestedOutputs_filter. simpl.
      apply one_image_per_key; auto. apply outputNotDeployedError_inj.
    + intros Hin. apply yielded_are_order_errors in Hin as (a & D & Heq).
      symmetry in Heq. exact (errors_differ _ _ _ Heq).
  - intros Hall. rewrite validateRequestedOutputs_filter, filter_none; [reflexivity|].
    intros k Hk Hmissing. exact (Hmissing (Hall k Hk)).
Qed.

Lemma requested_outputs_must_be_deployed_witness :
  (stackOutputs twoStacks [outputOf "Api" "Url"; outputOf "Db" "Host"]).1
  = Normal
      [ {| stackOutputObject := 2;
           artifactFile :=
             {| artifact := {| artifactObject := 1;
                               artifactName := Some "Artifact_Api_Outputs" |};
                fileName := "outputs.json" |};
           outputName := "Url" |};
        {| stackOutputObject := 4;
           artifactFile :=
             {| artifact := {| artifactObject := 3;
                               artifactName := Some "Artifact_Db_Outputs" |};
                fileName := "outputs.json" |};
           outputName := "Host" |} ]
  /\ (validate (stackOutputs twoStacks [outputOf "Api" "Url"; outputOf "Db" "Host"]).2).1
     = ["Trying to use outputs for Stack 'Db', but Stack is not deployed in this pipeline. Add it to the pipeline."]
  /\ length (filter (fun e => e = outputNotDeployedError "Db")
               (validate (stackOutputs twoStacks
                            [outputOf "Api" "Url"; outputOf "Db" "Host"]).2).1) = 1.
Proof.
  split; [vm_compute; reflexivity|]. split; [vm_compute; reflexivity|].
  destruct (requested_outputs_must_be_deployed twoStacks
              [outputOf "Api" "Url"; outputOf "Db" "Host"]
              match (stackOutputs twoStacks
                       [outputOf "Api" "Url"; outputOf "Db" "Host"]).1 with
              | Normal hs => hs
              | Throw _ => []
              end
              (stackOutputs twoStacks [outputOf "Api" "Url"; outputOf "Db" "Host"]).2
              (outputsAllocated_pipelineWith _))
    as [Hone _].
  - vm_compute. reflexivity.
  - apply (Hone (outputOf "Db" "Host")).
    + apply elem_of_cons. right. apply elem_of_cons. left. reflexivity.
    + vm_compute. intros Hin.
      apply elem_of_cons in Hin as [Hin|Hin]; [discriminate|].
      apply elem_of_cons in Hin as [Hin|Hin]; [discriminate|]. inversion Hin.
Defined.

(** ** The constructor *)

(** Construction throws, with one of the constructor's messages, whenever
    a source action comes without a synth action; the source action
    (respectively the synth action) is missing and no supplied pipeline has
    at least one stage (respectively two stages); or an existing pipeline
    comes together with a pipeline name that is not the empty string.  No
    stage has been added when it throws: a supplied pipeline is as the
    caller passed it, and a pipeline the constructor created is empty. *)
Lemma constructor_fails_fast env props :
  (is_Some (sourceAction props) /\ synthAction props = None)
  \/ (sourceAction props = None
      /\ forall cp, codePipeline props = Some cp -> length (Pipeline_stages cp) < 1)
  \/ (synthAction props = None
      /\ forall cp, codePipeline props = Some cp -> length (Pipeline_stages cp) < 2)
  \/ (is_Some (codePipeline props)
      /\ exists name, pipelineName props = Some name /\ name <> "") ->
  exists message left,
    CdkPipeline_new env props = (Throw message, left)
    /\ In message
         ["CdkPipeline must be created under an App";
          "Cannot set 'pipelineName' if an existing CodePipeline is given using 'codePipeline'";
          "When passing a 'sourceAction' you must also pass a 'synthAction' (or a 'codePipeline' that already has both)";
          "You must pass a 'sourceAction' (or a 'codePipeline' that already has a Source stage)";
          "You must pass a 'synthAction' (or a 'codePipeline' that already has a Build stage)"]
    /\ match codePipeline props with
       | Some cp => left = Some cp
       | None => left = None \/ left = Some Pipeline_new
       end.
Proof.
  intros Hbad. unfold CdkPipeline_new.
  destruct (isApp env); simpl.
  2: { eexists _, _. split; [reflexivity|]. split; [simpl; auto|].
       destruct (codePipeline props); auto. }
  destruct (codePipeline props) as [cp|] eqn:Hcp.
  - destruct (truthy_string (pipelineName props)) eqn:Hname.
    { eexists _, _. split; [reflexivity|]. split; [simpl; auto|reflexivity]. }
    destruct (sourceAction props) as [src|] eqn:Hsrc,
             (synthAction props) as [syn|] eqn:Hsyn; simpl.
    + exfalso. destruct Hbad as [[_ H]|[[H _]|[[H _]|[_ (name & Hn & Hne)]]]];
        try discriminate.
      rewrite Hn in Hname. simpl in Hname.
      rewrite bool_decide_eq_false_2 in Hname by exact Hne. discriminate.
    + eexists _, _. split; [reflexivity|]. split; [simpl; auto|reflexivity].
    + case_bool_decide as H1; simpl.
      * eexists _, _. split; [reflexivity|]. split; [simpl; auto|reflexivity].
      * exfalso. destruct Hbad as [[[? H] _]|[[_ H]|[[H _]|[_ (name & Hn & Hne)]]]];
          try discriminate.
        -- apply H1, H. reflexivity.
        -- rewrite Hn in Hname. simpl in Hname.
           rewrite bool_decide_eq_false_2 in Hname by exact Hne. discriminate.
    + case_bool_decide as H1; simpl.
      * eexists _, _. split; [reflexivity|]. split; [simpl; auto|reflexivity].
      * case_bool_decide as H2; simpl.
        -- eexists _, _. split; [reflexivity|]. split; [simpl; auto 6|reflexivity].
        -- exfalso. destruct Hbad as [[[? H] _]|[[_ H]|[[_ H]|[_ (name & Hn & Hne)]]]];
             try discriminate.
           ++ apply H1, H. reflexivity.
           ++ apply H2, H. reflexivity.
           ++ rewrite Hn in Hname. simpl in Hname.
              rewrite bool_decide_eq_false_2 in Hname by exact Hne. discriminate.
  - destruct (sourceAction props) as [src|] eqn:Hsrc,
             (synthAction props) as [syn|] eqn:Hsyn; simpl.
    + exfalso. destruct Hbad as [[_ H]|[[H _]|[[H _]|[[? H] _]]]]; discriminate.
    + eexists _, _. split; [reflexivity|]. split; [simpl; auto|auto].
    + eexists _, _. split; [reflexivity|]. split; [simpl; auto|auto].
    + eexists _, _. split; [reflexivity|]. split; [simpl; auto|auto].
Qed.

Lemma constructor_fails_fast_witness :
  CdkPipeline_new appEnv sourceOnlyProps
  = (Throw "When passing a 'sourceAction' you must also pass a 'synthAction' (or a 'codePipeline' that already has both)",
     Some ownPipeline).
Proof.
  destruct (constructor_fails_fast appEnv sourceOnlyProps) as (m & left & H & _).
  - left. split; [eexists; reflexivity|reflexivity].
  - vm_compute. reflexivity.
Defined.

(** C9 fails for an empty pipeline name.  Given together with an existing
    pipeline that has its two stages, the empty string does not pass the
    guard [if (props.pipelineName)], which was meant to reject a pipeline
    name next to an existing pipeline: construction returns, and the
    UpdatePipeline and Assets stages have been added to the caller's
    pipeline.  [maybeSuffix], which tests [x === undefined], does take the
    empty string as a name: the self-update project is named
    ["-selfupdate"]. *)
Theorem constructor_accepts_empty_name :
  is_Some (codePipeline emptyNameProps)
  /\ pipelineName emptyNameProps = Some ""
  /\ (exists this, (CdkPipeline_new appEnv emptyNameProps).1 = Normal this)
  /\ (map stageName <$> (Pipeline_stages <$> (CdkPipeline_new appEnv emptyNameProps).2))
     = Some ["Source"; "Build"; "UpdatePipeline"; "Assets"]
  /\ (flat_map actions <$> (Pipeline_stages <$> (CdkPipeline_new appEnv emptyNameProps).2))
     = Some [OtherAction "GitHub"; OtherAction "Synth";
             UpdatePipelineAction "PipelineStack" (Some "-selfupdate")]
  /\ maybeSuffix (pipelineName emptyNameProps) "-selfupdate" = Some "-selfupdate".
Proof.
  split; [eexists; reflexivity|]. split; [reflexivity|].
  split; [eexists; vm_compute; reflexivity|].
  split; [vm_compute; reflexivity|]. split; vm_compute; reflexivity.
Qed.

(** * Further properties *)

(** ** The validation pass as a whole *)

Lemma in_edges acts a d :
  In (a, d) (edges acts) <-> In a acts /\ In d (dependencyStackArtifactIds a).
Proof.
  unfold edges. rewrite in_flat_map. split.
  - intros (a' & Ha & Hin). apply in_map_iff in Hin as (d' & [= <- <-] & Hd). auto.
  - intros [Ha Hd]. exists a. split; [exact Ha|]. apply in_map. exact Hd.
Qed.

Lemma flat_map_nil_iff {A B : Type} (f : A -> list B) (l : list A) :
  flat_map f l = [] <-> forall x, In x l -> f x = [].
Proof.
  induction l as [|y l IH]; simpl.
  - split; [intros _ x []|reflexivity].
  - split.
    + intros H x [<-|Hx].
      * destruct (f y); [reflexivity|discriminate].
      * apply IH; [|exact Hx]. destruct (f y); [exact H|discriminate].
    + intros H. rewrite (H y) by auto. apply IH. intros x Hx. apply H. auto.
Qed.

(** [validateDeployOrder] yields no error exactly when every dependency
    that the pipeline deploys has, at its first deployment, an execution
    order strictly below the preparation order of the dependent action. *)
Lemma validateDeployOrder_yields_nothing_iff (this : CdkPipeline) :
  yielded (validateDeployOrder this) = []
  <-> forall a d D,
        In a (stackActions this) ->
        In d (dependencyStackArtifactIds a) ->
        find (fun s => bool_decide (stackArtifactId s = d)) (stackActions this) = Some D ->
        (executeRunOrder D < prepareRunOrder a)%Z.
Proof.
  destruct (validateDeployOrder_edges this) as [_ ->].
  rewrite flat_map_nil_iff. split.
  - intros H a d D Ha Hd Hfind.
    specialize (H (a, d) (proj2 (in_edges _ a d) (conj Ha Hd))). simpl in H.
    apply (edgeFindings_found _ a d D Hfind). exact H.
  - intros H [a d] Hin. apply in_edges in Hin as [Ha Hd]. simpl.
    destruct (find (fun s => bool_decide (stackArtifactId s = d)) (stackActions this))
      as [D|] eqn:Hfind.
    + apply (edgeFindings_found _ a d D Hfind). eapply H; eauto.
    + unfold edgeFindings, checkDependency. rewrite Hfind. reflexivity.
Qed.

Lemma filter_nil_iff {A : Type} (P : A -> Prop) `{forall a, Decision (P a)} (l : list A) :
  filter P l = [] <-> forall a, a ∈ l -> ~ P a.
Proof.
  split; [|apply filter_none].
  intros Hnil a Ha HP.
  assert (Hin : a ∈ filter P l) by (apply list_elem_of_filter; auto).
  rewrite Hnil in Hin. inversion Hin.
Qed.

(** [validate] returns no error exactly when both checks pass: every
    dependency that the pipeline deploys has, at its first deployment, an
    execution order strictly below the preparation order of the dependent
    action, and every stack an output was requested of is deployed in the
    pipeline.  A dependency that is not deployed in the pipeline stands in
    the way of neither. *)
Theorem validate_passes_iff (this : CdkPipeline) :
  (validate this).1 = []
  <-> (forall a d D,
         In a (stackActions this) ->
         In d (dependencyStackArtifactIds a) ->
         find (fun s => bool_decide (stackArtifactId s = d)) (stackActions this) = Some D ->
         (executeRunOrder D < prepareRunOrder a)%Z)
      /\ (forall k, k ∈ map fst (_outputArtifacts this) ->
                    k ∈ map stackArtifactId (stackActions this)).
Proof.
  unfold validate. cbn [fst app].
  rewrite <- validateDeployOrder_yields_nothing_iff.
  rewrite validateRequestedOutputs_filter.
  split.
  - intros H. apply app_eq_nil in H as [Horder Houts]. split; [exact Horder|].
    apply map_eq_nil in Houts.
    intros k Hk.
    destruct (decide (k ∈ map stackArtifactId (stackActions this))) as [Hin|Hout];
      [exact Hin|].
    exfalso. exact (proj1 (filter_nil_iff _ _) Houts k Hk Hout).
  - intros [Horder Houts]. rewrite Horder. simpl.
    rewrite (proj2 (filter_nil_iff _ _)); [reflexivity|].
    intros k Hk Hout. exact (Hout (Houts k Hk)).
Qed.

Lemma validate_passes_iff_witness :
  map fst (_outputArtifacts (stackOutput diamond (outputOf "A" "Url")).2) = ["A"]
  /\ (validate (stackOutput diamond (outputOf "A" "Url")).2).1 = [].
Proof.
  split; [vm_compute; reflexivity|].
  apply (validate_passes_iff (stackOutput diamond (outputOf "A" "Url")).2). split.
  - intros a d D Ha Hd Hfind. vm_compute in Ha.
    destruct Ha as [<-|[<-|[<-|[]]]]; simpl in Hd.
    + destruct Hd.
    + destruct Hd as [<-|[]]. vm_compute in Hfind. injection Hfind as <-. reflexivity.
    + destruct Hd as [<-|[]]. vm_compute in Hfind. injection Hfind as <-. reflexivity.
  - intros k Hk.
    change (map fst (_outputArtifacts (stackOutput diamond (outputOf "A" "Url")).2))
      with ["A"] in Hk.
    apply list_elem_of_singleton in Hk. subst k.
    refine (bool_decide_unpack _ _). vm_compute. exact I.
Defined.

(** A stack deployed once that lists itself as a dependency, with its
    preparation not after its execution, is always reported: it cannot be
    executed before it is prepared. *)
Theorem validateDeployOrder_self_dependency (this : CdkPipeline) (a : DeployCdkStackAction) :
  NoDup (map stackArtifactId (stackActions this)) ->
  In a (stackActions this) ->
  In (stackArtifactId a) (dependencyStackArtifactIds a) ->
  (prepareRunOrder a <= executeRunOrder a)%Z ->
  In (deployedBeforeError a a) (validate this).1.
Proof.
  intros Hnd Ha Hd Hle.
  unfold validate. cbn [fst app]. apply in_or_app. left.
  destruct (validateDeployOrder_edges this) as [_ ->].
  apply in_flat_map. exists (a, stackArtifactId a). split; [apply in_edges; auto|].
  simpl.
  destruct (in_split _ _ Ha) as (before & after & Hsplit).
  assert (Hfind : find (fun s => bool_decide (stackArtifactId s = stackArtifactId a))
                       (stackActions this) = Some a).
  { apply (find_first_match _ before after a _ Hsplit eq_refl).
    intros x Hx Heq. rewrite Hsplit, map_app in Hnd.
    apply NoDup_app in Hnd as (_ & Hdisj & _).
    apply (Hdisj (stackArtifactId x)).
    - apply list_elem_of_fmap. exists x. split; [reflexivity|]. apply list_elem_of_In, Hx.
    - simpl. apply elem_of_cons. left. exact Heq. }
  destruct (edgeFindings_found _ a _ a Hfind) as (_ & Herr & _).
  rewrite (proj2 Herr) by lia. left. reflexivity.
Qed.

Lemma validateDeployOrder_self_dependency_witness :
  In "Stack 'A' depends on stack 'A', but is deployed before it in the pipeline!"
     (validate selfDependent).1.
Proof.
  apply (validateDeployOrder_self_dependency selfDependent (deploy "A" ["A"] 1 2)).
  - refine (bool_decide_unpack _ _). vm_compute. exact I.
  - vm_compute. left; reflexivity.
  - simpl. left; reflexivity.
  - simpl. lia.
Defined.

(** ** What a successful construction builds *)

Lemma omap_lookup_app {A : Type} (l k : list A) (rs : list nat) :
  Forall (fun r => r < length l) rs ->
  omap (fun r => (l ++ k) !! r) rs = omap (fun r => l !! r) rs.
Proof.
  induction 1 as [|r rs Hr Hrs IH]; [reflexivity|].
  change (omap (fun r => (l ++ k) !! r) (r :: rs))
    with (match (l ++ k) !! r with
          | Some y => y :: omap (fun r => (l ++ k) !! r) rs
          | None => omap (fun r => (l ++ k) !! r) rs
          end).
  rewrite lookup_app_l by exact Hr. rewrite IH. reflexivity.
Qed.

Lemma Pipeline_stages_addStage p name acts :
  Forall (fun r => r < length (stageObjects p)) (_stages p) ->
  Pipeline_stages (Pipeline_addStage p name acts).1
  = Pipeline_stages p ++ [{| stageName := name; actions := acts |}]
  /\ Forall (fun r => r < length (stageObjects (Pipeline_addStage p name acts).1))
            (_stages (Pipeline_addStage p name acts).1).
Proof.
  intros Hwf. unfold Pipeline_stages, Pipeline_addStage. simpl. split.
  - rewrite omap_app, (omap_lookup_app _ _ _ Hwf). simpl.
    rewrite lookup_app_r, Nat.sub_diag by lia. reflexivity.
  - apply Forall_app. split.
    + eapply Forall_impl; [exact Hwf|]. simpl. intros r Hr. rewrite length_app. simpl. lia.
    + apply Forall_singleton. rewrite length_app. simpl. lia.
Qed.

Lemma fresh_assets_elided outdir art v n p :
  Forall (fun r => r < length (stageObjects p)) (_stages p) ->
  Pipeline_stages (pipeline (AssetPublishing_new outdir art v n p))
  = Pipeline_stages p ++ [{| stageName := "Assets"; actions := [] |}]
  /\ Pipeline_stages
       (pipeline (removeAssetsStageIfEmpty (AssetPublishing_new outdir art v n p)))
     = Pipeline_stages p.
Proof.
  intros Hwf. split.
  - exact (proj1 (Pipeline_stages_addStage p "Assets" [] Hwf)).
  - unfold removeAssetsStageIfEmpty, AssetPublishing_new. simpl.
    rewrite indexOf_last.
    + destruct (Z.gtb_spec (Z.of_nat (length (_stages p))) (-1)); [|lia].
      simpl. rewrite Nat2Z.id, delete_last. unfold Pipeline_stages. simpl.
      apply omap_lookup_app, Hwf.
    + intros Hin. rewrite Forall_forall in Hwf. apply Hwf in Hin. lia.
Qed.

(** When none of the constructor's own checks fails, the stages are added
    as follows ([Pipeline.addStage] is taken not to throw). *)
Lemma constructor_adds_stages env props :
  (forall cp, codePipeline props = Some cp ->
              Forall (fun r => r < length (stageObjects cp)) (_stages cp)) ->
  isApp env = true ->
  (is_Some (codePipeline props) -> truthy_string (pipelineName props) = false) ->
  (is_Some (sourceAction props) -> is_Some (synthAction props)) ->
  (sourceAction props = None ->
   exists cp, codePipeline props = Some cp /\ 1 <= length (Pipeline_stages cp)) ->
  (synthAction props = None ->
   exists cp, codePipeline props = Some cp /\ 2 <= length (Pipeline_stages cp)) ->
  exists this,
    CdkPipeline_new env props = (Normal this, Some (_pipeline this))
    /\ Pipeline_stages (_pipeline this)
       = match codePipeline props with Some cp => Pipeline_stages cp | None => [] end
         ++ match sourceAction props with
            | Some a => [{| stageName := "Source"; actions := [a] |}]
            | None => []
            end
         ++ match synthAction props with
            | Some a => [{| stageName := "Build"; actions := [a] |}]
            | None => []
            end
         ++ [{| stageName := "UpdatePipeline";
                actions := [UpdatePipelineAction (envStackName env)
                              (maybeSuffix (pipelineName props) "-selfupdate")] |};
             {| stageName := "Assets"; actions := [] |}]
    /\ 4 <= length (Pipeline_stages (_pipeline this))
    /\ map stageName (Pipeline_stages (pipeline (removeAssetsStageIfEmpty (_assets this))))
       = removelast (map stageName (Pipeline_stages (_pipeline this)))
    /\ publishers (_assets this) = ∅
    /\ publishActions (_assets this) = []
    /\ roles (_assets this) = []
    /\ _outputArtifacts this = []
    /\ warnings this = [].
Proof.
  intros Hwf Happ Hname Hboth Hsrc Hsyn.
  unfold CdkPipeline_new. rewrite Happ. simpl.
  set (p0 := match codePipeline props with Some cp => cp | None => Pipeline_new end).
  assert (Hwf0 : Forall (fun r => r < length (stageObjects p0)) (_stages p0)).
  { unfold p0. destruct (codePipeline props) as [cp|]; [auto|constructor]. }
  assert (Hst0 : Pipeline_stages p0
                 = match codePipeline props with
                   | Some cp => Pipeline_stages cp | None => [] end).
  { unfold p0. destruct (codePipeline props); reflexivity. }
  assert (Hchosen :
            match codePipeline props with
            | Some cp =>
                if truthy_string (pipelineName props)
                then Throw "Cannot set 'pipelineName' if an existing CodePipeline is given using 'codePipeline'"
                else Normal cp
            | None => Normal Pipeline_new
            end = Normal p0).
  { unfold p0. destruct (codePipeline props) as [cp|]; [|reflexivity].
    rewrite Hname by eauto. reflexivity. }
  rewrite Hchosen.
  assert (Hg1 : truthy (sourceAction props) && negb (truthy (synthAction props)) = false).
  { destruct (sourceAction props); simpl; [|reflexivity].
    destruct (Hboth (ltac:(eauto))) as [s ->]. reflexivity. }
  rewrite Hg1.
  assert (Hg2 : negb (truthy (sourceAction props))
                && match codePipeline props with
                   | None => true
                   | Some cp => bool_decide (length (Pipeline_stages cp) < 1)
                   end = false).
  { destruct (sourceAction props); simpl; [reflexivity|].
    destruct (Hsrc eq_refl) as (cp & -> & Hlen). apply bool_decide_eq_false_2. lia. }
  rewrite Hg2.
  assert (Hg3 : negb (truthy (synthAction props))
                && match codePipeline props with
                   | None => true
                   | Some cp => bool_decide (length (Pipeline_stages cp) < 2)
                   end = false).
  { destruct (synthAction props); simpl; [reflexivity|].
    destruct (Hsyn eq_refl) as (cp & -> & Hlen). apply bool_decide_eq_false_2. lia. }
  rewrite Hg3.
  set (p1 := match sourceAction props with
             | Some a => (Pipeline_addStage p0 "Source" [a]).1 | None => p0 end).
  assert (H1 : Pipeline_stages p1
               = Pipeline_stages p0
                 ++ match sourceAction props with
                    | Some a => [{| stageName := "Source"; actions := [a] |}]
                    | None => [] end
               /\ Forall (fun r => r < length (stageObjects p1)) (_stages p1)).
  { unfold p1. destruct (sourceAction props) as [a|].
    - apply Pipeline_stages_addStage, Hwf0.
    - rewrite app_nil_r. auto. }
  destruct H1 as [Hst1 Hwf1].
  set (p2 := match synthAction props with
             | Some a => (Pipeline_addStage p1 "Build" [a]).1 | None => p1 end).
  assert (H2 : Pipeline_stages p2
               = Pipeline_stages p1
                 ++ match synthAction props with
                    | Some a => [{| stageName := "Build"; actions := [a] |}]
                    | None => [] end
               /\ Forall (fun r => r < length (stageObjects p2)) (_stages p2)).
  { unfold p2. destruct (synthAction props) as [a|].
    - apply Pipeline_stages_addStage, Hwf1.
    - rewrite app_nil_r. auto. }
  destruct H2 as [Hst2 Hwf2].
  set (update := [UpdatePipelineAction (envStackName env)
                    (maybeSuffix (pipelineName props) "-selfupdate")]).
  destruct (Pipeline_stages_addStage p2 "UpdatePipeline" update Hwf2) as [Hst3 Hwf3].
  set (p3 := (Pipeline_addStage p2 "UpdatePipeline" update).1) in *.
  destruct (fresh_assets_elided (outdir env) (cloudAssemblyArtifact props)
              (cdkCliVersion props) (maybeSuffix (pipelineName props) "-publish")
              p3 Hwf3) as [Hst4 Hgone].
  exists {| _assets :=
              AssetPublishing_new (outdir env) (cloudAssemblyArtifact props)
                (cdkCliVersion props) (maybeSuffix (pipelineName props) "-publish") p3;
            _outputArtifacts := [];
            _cloudAssemblyArtifact := cloudAssemblyArtifact props;
            allocated := S (artifactObject (cloudAssemblyArtifact props));
            warnings := [] |}.
  split; [reflexivity|]. unfold _pipeline. cbn [_assets].
  assert (Hall : Pipeline_stages
                   (pipeline (AssetPublishing_new (outdir env) (cloudAssemblyArtifact props)
                                (cdkCliVersion props)
                                (maybeSuffix (pipelineName props) "-publish") p3))
                 = match codePipeline props with
                   | Some cp => Pipeline_stages cp | None => [] end
                   ++ match sourceAction props with
                      | Some a => [{| stageName := "Source"; actions := [a] |}]
                      | None => [] end
                   ++ match synthAction props with
                      | Some a => [{| stageName := "Build"; actions := [a] |}]
                      | None => [] end
                   ++ [{| stageName := "UpdatePipeline"; actions := update |};
                       {| stageName := "Assets"; actions := [] |}]).
  { rewrite Hst4, Hst3, Hst2, Hst1, Hst0, <- !app_assoc. reflexivity. }
  split; [exact Hall|]. split; [|split].
  - rewrite Hall, !length_app. simpl.
    destruct (sourceAction props) as [a|] eqn:Ea, (synthAction props) as [b|] eqn:Eb;
      simpl; try lia.
    + destruct (Hboth (ltac:(eauto))) as [? ?]. discriminate.
    + destruct (Hsrc eq_refl) as (cp & -> & Hlen). lia.
    + destruct (Hsyn eq_refl) as (cp & -> & Hlen). lia.
  - rewrite Hgone, Hst4, map_app. simpl. rewrite removelast_last. reflexivity.
  - repeat split; reflexivity.
Qed.

(** A construction that returned has passed the checks. *)
Lemma constructor_guards env props this left :
  CdkPipeline_new env props = (Normal this, left) ->
  isApp env = true
  /\ (is_Some (codePipeline props) -> truthy_string (pipelineName props) = false)
  /\ (is_Some (sourceAction props) -> is_Some (synthAction props))
  /\ (sourceAction props = None ->
      exists cp, codePipeline props = Some cp /\ 1 <= length (Pipeline_stages cp))
  /\ (synthAction props = None ->
      exists cp, codePipeline props = Some cp /\ 2 <= length (Pipeline_stages cp)).
Proof.
  unfold CdkPipeline_new. intros H.
  destruct (isApp env); cbn [negb] in H; [|discriminate].
  split; [reflexivity|].
  destruct (codePipeline props) as [cp|] eqn:Hcp;
    [destruct (truthy_string (pipelineName props)); [discriminate|]|];
    destruct (sourceAction props) as [a|], (synthAction props) as [b|];
    cbn [truthy negb andb] in H;
    repeat (match type of H with
            | context [bool_decide ?P] =>
                destruct (bool_decide_reflect P); cbn [andb] in H
            end);
    try discriminate.
  all: split; [(intros _; reflexivity) || (intros [? ?]; discriminate)|].
  all: split; [intros [? Hs]; try discriminate Hs; eauto|].
  all: split; intros Hnone; try discriminate Hnone; exists cp; (split; [reflexivity|lia]).
Qed.

(** A construction that returned, on a caller's pipeline (if one was
    given) whose stage list refers to stage objects it has.  The construct
    works on the pipeline handed back; the checks of the constructor were
    passed; the pipeline lists the caller's stages, the Source stage and the
    Build stage for the actions given, UpdatePipeline and Assets, in this
    order, at least four in all; the coordinator is empty, and eliding the
    Assets stage at this point leaves the stages before it as they are. *)
Theorem constructor_builds_stages env props this left :
  (forall cp, codePipeline props = Some cp ->
              Forall (fun r => r < length (stageObjects cp)) (_stages cp)) ->
  CdkPipeline_new env props = (Normal this, left) ->
  left = Some (_pipeline this)
  /\ isApp env = true
  /\ (is_Some (codePipeline props) -> truthy_string (pipelineName props) = false)
  /\ (is_Some (sourceAction props) -> is_Some (synthAction props))
  /\ (sourceAction props = None ->
      exists cp, codePipeline props = Some cp /\ 1 <= length (Pipeline_stages cp))
  /\ (synthAction props = None ->
      exists cp, codePipeline props = Some cp /\ 2 <= length (Pipeline_stages cp))
  /\ Pipeline_stages (_pipeline this)
     = match codePipeline props with Some cp => Pipeline_stages cp | None => [] end
       ++ match sourceAction props with
          | Some a => [{| stageName := "Source"; actions := [a] |}]
          | None => []
          end
       ++ match synthAction props with
          | Some a => [{| stageName := "Build"; actions := [a] |}]
          | None => []
          end
       ++ [{| stageName := "UpdatePipeline";
              actions := [UpdatePipelineAction (envStackName env)
                            (maybeSuffix (pipelineName props) "-selfupdate")] |};
           {| stageName := "Assets"; actions := [] |}]
  /\ 4 <= length (Pipeline_stages (_pipeline this))
  /\ map stageName (Pipeline_stages (pipeline (removeAssetsStageIfEmpty (_assets this))))
     = removelast (map stageName (Pipeline_stages (_pipeline this)))
  /\ publishers (_assets this) = ∅
  /\ publishActions (_assets this) = []
  /\ roles (_assets this) = []
  /\ _outputArtifacts this = []
  /\ warnings this = [].
Proof.
  intros Hwf Hnew.
  destruct (constructor_guards env props this left Hnew)
    as (Happ & Hname & Hboth & Hsrc & Hsyn).
  destruct (constructor_adds_stages env props Hwf Happ Hname Hboth Hsrc Hsyn)
    as (this0 & Hnew0 & Hrest).
  rewrite Hnew in Hnew0. injection Hnew0 as <- ->.
  split; [reflexivity|]. repeat (split; [assumption|]). exact Hrest.
Qed.

Lemma constructor_builds_stages_witness :
  (CdkPipeline_new appEnv bothActionsProps).1 = Normal builtPipeline
  /\ map stageName (Pipeline_stages (_pipeline builtPipeline))
     = ["Source"; "Build"; "UpdatePipeline"; "Assets"].
Proof.
  split; [vm_compute; reflexivity|].
  destruct (constructor_builds_stages appEnv bothActionsProps builtPipeline
              (Some (_pipeline builtPipeline)))
    as (_ & _ & _ & _ & _ & _ & Hstages & _).
  - intros cp H. discriminate H.
  - vm_compute. reflexivity.
  - rewrite Hstages. reflexivity.
Defined.

(** ** Any operations on a constructed pipeline *)

Lemma with_assets_same this : with_assets this (_assets this) = this.
Proof. destruct this. reflexivity. Qed.

(** An operation throws and leaves everything as it was, or throws when
    the coordinator has created a role, or returns. *)
Lemma perform_cases this op :
  (exists m, perform this op = (Throw m, this))
  \/ (exists m t, perform this op = (Throw m, withRole this t))
  \/ (exists this', perform this op = (Normal tt, this')).
Proof.
  destruct op as [name|c|o]; simpl.
  - right. right. eauto.
  - unfold host_publishAsset.
    destruct (request_cases (_assets (construct this)) c)
      as [[m H]|[[m H]|(_ & _ & a & H)]]; rewrite H.
    + left. exists m. rewrite with_assets_same. destruct this. reflexivity.
    + right. left. exists m, (assetType c). reflexivity.
    + right. right. eauto.
  - destruct (stackOutput (construct this) o) as [[h|m] c] eqn:H.
    + right. right. eauto.
    + left. exists m. apply stackOutput_throws in H as (-> & _).
      destruct this. reflexivity.
Qed.

(** A property that every returning operation keeps, and that the creation
    of a role keeps, holds after any operations. *)
Lemma performAll_invariant (P : CdkPipelineStages -> Prop) :
  (forall this op this', P this -> perform this op = (Normal tt, this') -> P this') ->
  (forall this t, P this -> P (withRole this t)) ->
  forall ops this, P this -> P (performAll this ops).2.
Proof.
  intros Hstep Hrole. induction ops as [|op ops IH]; intros this HP; simpl; [exact HP|].
  destruct (perform_cases this op) as [[m H]|[(m & t & H)|[this' H]]]; rewrite H; simpl.
  - exact HP.
  - apply Hrole, HP.
  - apply IH. eapply Hstep; eauto.
Qed.

Lemma performAll_normal_cons this op ops this' :
  performAll this (op :: ops) = (Normal tt, this') ->
  exists this1, perform this op = (Normal tt, this1)
                /\ performAll this1 ops = (Normal tt, this').
Proof.
  simpl. destruct (perform_cases this op) as [[m H]|[(m & t & H)|[this1 H]]]; rewrite H.
  - discriminate.
  - discriminate.
  - eauto.
Qed.

(** What a publish request through the host does to the construct. *)
Lemma perform_publish this c this' :
  perform this (PublishAsset c) = (Normal tt, this') ->
  escapes (myCxAsmRoot (_assets (construct this))) (assetManifestPath c) = false
  /\ addPublishAssetAction (_assets (construct this)) c = (Normal tt, _assets (construct this'))
  /\ cdkStages this' = cdkStages this
  /\ _outputArtifacts (construct this') = _outputArtifacts (construct this)
  /\ allocated (construct this') = allocated (construct this).
Proof.
  simpl. unfold host_publishAsset.
  destruct (request_cases (_assets (construct this)) c)
    as [[m H]|[[m H]|(He & _ & a & H)]]; rewrite H; intros [= <-]. simpl. auto.
Qed.

(** The construct after a request for an output, whether it returned or
    not. *)
Lemma perform_output this o r this' :
  perform this (RequestOutput o) = (r, this') ->
  this' = {| construct := (stackOutput (construct this) o).2;
             cdkStages := cdkStages this |}.
Proof.
  simpl. destruct (stackOutput (construct this) o) as [r0 c]. intros [= _ <-]. reflexivity.
Qed.

(** A request for an output that returned. *)
Lemma perform_output_normal this o this' :
  perform this (RequestOutput o) = (Normal tt, this') ->
  exists h, stackOutput (construct this) o = (Normal h, construct this').
Proof.
  simpl. destruct (stackOutput (construct this) o) as [[h|m] c]; intros [= <-]; eauto.
Qed.

Lemma stackOutput_assets this o : _assets (stackOutput this o).2 = _assets this.
Proof.
  unfold stackOutput, getProperty.
  destruct (outputArtifact (_outputArtifacts this) (output_stackArtifactId o))
    as [a|] eqn:Hlook; simpl.
  - rewrite Hlook. reflexivity.
  - destruct (inheritedName (output_stackArtifactId o)); simpl.
    + rewrite Hlook. reflexivity.
    + rewrite (outputArtifact_last _ _ _ Hlook). reflexivity.
Qed.

Lemma stagesInPlace_step base this op this' :
  stagesInPlace base this ->
  perform this op = (Normal tt, this') ->
  stagesInPlace base this'.
Proof.
  intros (Hlist & Hnd & Hwf & Hassets & Hadded) H.
  unfold stagesInPlace, _pipeline in *.
  destruct op as [name|c|o].
  - simpl in H. injection H as <-. unfold addStage, Pipeline_addStage, _pipeline. simpl.
    set (pl := pipeline (_assets (construct this))) in *.
    assert (Hfresh : length (stageObjects pl) ∉ _stages pl).
    { intros Hin. rewrite Forall_forall in Hwf. apply Hwf in Hin. lia. }
    assert (Hst : stage (_assets (construct this)) < length (stageObjects pl)).
    { eapply lookup_lt_Some, Hassets. }
    split; [|split; [|split; [|split]]].
    + rewrite Hlist, map_app, <- !app_assoc. reflexivity.
    + apply NoDup_app. split; [exact Hnd|]. split; [|apply NoDup_singleton].
      intros r Hr Hr'. apply list_elem_of_singleton in Hr'. subst r. exact (Hfresh Hr).
    + apply Forall_app. split.
      * eapply Forall_impl; [exact Hwf|]. simpl. intros r Hr. rewrite length_app. simpl. lia.
      * apply Forall_singleton. rewrite length_app. simpl. lia.
    + rewrite lookup_app_l by exact Hst. exact Hassets.
    + apply Forall_app. split.
      * eapply Forall_impl; [exact Hadded|]. simpl. intros s Hs.
        rewrite lookup_app_l; [exact Hs|]. eapply lookup_lt_Some, Hs.
      * apply Forall_singleton. simpl.
        rewrite lookup_app_r, Nat.sub_diag by lia. reflexivity.
  - apply perform_publish in H as (He & H & Hcdk & _).
    destruct (request_normal _ c He (proj2 (request_returned _ _ _ H))) as (x & X & _ & Hstage & _ & _ & Hcase).
    rewrite H in X. injection X as <-.
    rewrite Hcdk, Hstage.
    destruct (publishers (_assets (construct this)) !! assetId c) as [r|].
    + destruct Hcase as (_ & -> & _ & _ & ->). rewrite length_alter. auto.
    + destruct Hcase as (_ & -> & _ & _ & a & -> & _).
      unfold Stage_addAction. rewrite Hassets. simpl.
      rewrite length_insert, length_app. simpl.
      split; [exact Hlist|]. split; [exact Hnd|]. split; [exact Hwf|]. split.
      * rewrite list_lookup_insert_eq by (eapply lookup_lt_Some, Hassets).
        rewrite Nat.add_1_r, seq_S, map_app. reflexivity.
      * rewrite Forall_forall in Hadded |- *. intros s Hs.
        rewrite list_lookup_insert_ne; [apply Hadded, Hs|].
        intros Heq. rewrite Hlist in Hnd.
        apply NoDup_app in Hnd as (_ & _ & Hnd).
        apply NoDup_cons in Hnd as [Hnotin _]. apply Hnotin.
        rewrite Heq. apply list_elem_of_fmap. exists s. auto.
  - apply perform_output in H as ->. simpl. rewrite stackOutput_assets. auto.
Qed.

Lemma wellListed_new : wellListed Pipeline_new.
Proof. split; constructor. Qed.

Lemma wellListed_addStage p name acts :
  wellListed p -> wellListed (fst (Pipeline_addStage p name acts)).
Proof.
  intros [Hnd Hwf]. split.
  - simpl. apply NoDup_app. split; [exact Hnd|]. split; [|apply NoDup_singleton].
    intros r Hr Hr'. apply list_elem_of_singleton in Hr'. subst r.
    rewrite Forall_forall in Hwf. apply Hwf in Hr. lia.
  - exact (proj2 (Pipeline_stages_addStage p name acts Hwf)).
Qed.

Lemma wellListed_of stages : wellListed (Pipeline_of stages).
Proof.
  unfold Pipeline_of.
  assert (H : forall p, wellListed p ->
            wellListed (fold_left
                          (fun p s => fst (Pipeline_addStage p (stageName s) (actions s)))
                          stages p)).
  { induction stages as [|s stages IH]; intros p Hp; simpl; [exact Hp|].
    apply IH. exact (wellListed_addStage p _ _ Hp). }
  apply H, wellListed_new.
Qed.

Ltac take_result H this :=
  let E := fresh "E" in
  pose proof (f_equal (fun x : Completion CdkPipeline * option Pipeline =>
                         match fst x with Normal c => c | Throw _ => this end) H) as E;
  cbn beta iota delta [fst] in E; subst this; clear H.

(** What a construction that returned has built. *)
Lemma constructor_returned env props this left :
  CdkPipeline_new env props = (Normal this, left) ->
  (forall cp, codePipeline props = Some cp -> wellListed cp) ->
  exists p,
    wellListed p
    /\ _assets this
       = AssetPublishing_new (outdir env) (cloudAssemblyArtifact props)
           (cdkCliVersion props) (maybeSuffix (pipelineName props) "-publish") p
    /\ _outputArtifacts this = []
    /\ warnings this = []
    /\ _cloudAssemblyArtifact this = cloudAssemblyArtifact props
    /\ allocated this = S (artifactObject (cloudAssemblyArtifact props)).
Proof.
  unfold CdkPipeline_new. intros H Hwf.
  destruct (isApp env); cbn [negb] in H; [|discriminate].
  pose proof wellListed_new as Hnew.
  destruct (codePipeline props) as [cp|] eqn:Hcp.
  - specialize (Hwf cp eq_refl).
    destruct (truthy_string (pipelineName props)); [discriminate|].
    destruct (sourceAction props), (synthAction props); cbn [truthy negb andb] in H;
      repeat (match type of H with
              | context [bool_decide ?P] => destruct (bool_decide P); cbn [andb] in H
              end);
      try discriminate; take_result H this;
      match goal with
      | |- context [AssetPublishing_new _ _ _ _ ?p] => exists p
      end;
      (split; [|repeat split; reflexivity]);
      repeat apply wellListed_addStage; exact Hwf.
  - destruct (sourceAction props), (synthAction props); cbn [truthy negb andb] in H;
      try discriminate; take_result H this;
      match goal with
      | |- context [AssetPublishing_new _ _ _ _ ?p] => exists p
      end;
      (split; [|repeat split; reflexivity]);
      repeat apply wellListed_addStage; exact Hnew.
Qed.

Lemma stagesInPlace_new outdir art v n p this :
  wellListed p ->
  _assets this = AssetPublishing_new outdir art v n p ->
  stagesInPlace (_stages p) (constructed this).
Proof.
  intros Hp Ha. unfold stagesInPlace, _pipeline, constructed. cbn [construct cdkStages].
  rewrite Ha.
  destruct (wellListed_addStage p "Assets" [] Hp) as [Hnd Hwf].
  unfold AssetPublishing_new. simpl in *.
  split; [reflexivity|]. split; [exact Hnd|]. split; [exact Hwf|]. split.
  - rewrite lookup_app_r, Nat.sub_diag by lia. reflexivity.
  - constructor.
Qed.

Lemma stagesInPlace_role base this t :
  stagesInPlace base this -> stagesInPlace base (withRole this t).
Proof.
  unfold stagesInPlace, _pipeline, withRole. cbn [construct cdkStages with_assets _assets].
  destruct (generateAssetRole_fields (_assets (construct this)) t)
    as (_ & -> & -> & _ & _ & -> & _).
  auto.
Qed.

Lemma stagesInPlace_run base this ops :
  stagesInPlace base this -> stagesInPlace base (performAll this ops).2.
Proof.
  intros H. apply (performAll_invariant (stagesInPlace base)); [| |exact H].
  - intros st op st'. apply stagesInPlace_step.
  - intros st t. apply stagesInPlace_role.
Qed.

Lemma stage_unchanged this op this' :
  perform this op = (Normal tt, this') ->
  stage (_assets (construct this')) = stage (_assets (construct this))
  /\ myCxAsmRoot (_assets (construct this')) = myCxAsmRoot (_assets (construct this)).
Proof.
  destruct op as [name|c|o]; intros H.
  - simpl in H. injection H as <-. auto.
  - apply perform_publish in H as (He & H & _).
    destruct (request_normal _ c He (proj2 (request_returned _ _ _ H))) as (x & X & Hroot & Hstage & _).
    rewrite H in X. injection X as <-. auto.
  - apply perform_output in H as ->. simpl. rewrite stackOutput_assets. auto.
Qed.

Lemma stage_unchanged_run this ops :
  stage (_assets (construct (performAll this ops).2)) = stage (_assets (construct this))
  /\ myCxAsmRoot (_assets (construct (performAll this ops).2))
     = myCxAsmRoot (_assets (construct this)).
Proof.
  apply (performAll_invariant
           (fun st => stage (_assets (construct st)) = stage (_assets (construct this))
                      /\ myCxAsmRoot (_assets (construct st))
                         = myCxAsmRoot (_assets (construct this)))); [| |auto].
  - intros st op st' [Hs Hr] H. destruct (stage_unchanged st op st' H) as [-> ->]. auto.
  - intros st t [Hs Hr]. unfold withRole. cbn [construct with_assets _assets].
    destruct (generateAssetRole_fields (_assets (construct st)) t)
      as (_ & _ & -> & _ & _ & _ & ->).
    auto.
Qed.

Lemma added_stage_names : forall ops this this',
  performAll this ops = (Normal tt, this') ->
  map cdkStage_stageName (cdkStages this')
  = map cdkStage_stageName (cdkStages this) ++ addedStages ops.
Proof.
  induction ops as [|op ops IH]; intros this this' H.
  - simpl in H. injection H as <-. simpl. rewrite app_nil_r. reflexivity.
  - apply performAll_normal_cons in H as (this1 & H1 & H).
    rewrite (IH _ _ H). destruct op as [name|c|o].
    + simpl in H1. injection H1 as <-. simpl. rewrite map_app, <- app_assoc. reflexivity.
    + apply perform_publish in H1 as (_ & _ & -> & _). reflexivity.
    + apply perform_output in H1 as ->. reflexivity.
Qed.

(** A pipeline is constructed and then stages are added, assets published
    and outputs requested in any order.  The stages the constructor left,
    with the Assets stage last among them, keep their places, and the added
    stages follow in the order of their addition, each listed once.  The
    Assets stage holds all publishing actions, in the order of their
    creation, wherever in the session they were requested; the added stages
    are empty and carry their names. *)
Theorem assets_stage_stays_in_place env props this left ops :
  CdkPipeline_new env props = (Normal this, left) ->
  (forall cp, codePipeline props = Some cp -> wellListed cp) ->
  _stages (_pipeline (construct (performAll (constructed this) ops).2))
  = _stages (_pipeline this)
    ++ map pipelineStage (cdkStages (performAll (constructed this) ops).2)
  /\ last (_stages (_pipeline this))
     = Some (stage (_assets (construct (performAll (constructed this) ops).2)))
  /\ NoDup (_stages (_pipeline (construct (performAll (constructed this) ops).2)))
  /\ stageObjects (_pipeline (construct (performAll (constructed this) ops).2))
       !! stage (_assets (construct (performAll (constructed this) ops).2))
     = Some {| stageName := "Assets";
               actions :=
                 map PublishAction
                   (seq 0 (length (publishActions
                                     (_assets (construct
                                        (performAll (constructed this) ops).2))))) |}
  /\ Forall (fun s =>
               stageObjects (_pipeline (construct (performAll (constructed this) ops).2))
                 !! pipelineStage s
               = Some {| stageName := cdkStage_stageName s; actions := [] |})
            (cdkStages (performAll (constructed this) ops).2)
  /\ ((performAll (constructed this) ops).1 = Normal tt ->
      map cdkStage_stageName (cdkStages (performAll (constructed this) ops).2)
      = addedStages ops).
Proof.
  intros Hnew Hwf.
  destruct (constructor_returned env props this left Hnew Hwf) as (p & Hp & Ha & _).
  pose proof (stagesInPlace_run _ _ ops (stagesInPlace_new _ _ _ _ p this Hp Ha))
    as (Hlist & Hnd & _ & Hassets & Hadded).
  destruct (stage_unchanged_run (constructed this) ops) as [Hstage _].
  set (final := (performAll (constructed this) ops).2) in *.
  assert (Hbase : _stages (_pipeline this) = _stages p ++ [stage (_assets this)]).
  { unfold _pipeline. rewrite Ha. reflexivity. }
  simpl in Hstage.
  split; [|split; [|split; [|split; [|split]]]]; auto.
  - rewrite Hlist, Hbase, Hstage, <- app_assoc. reflexivity.
  - rewrite Hbase, last_snoc, Hstage. reflexivity.
  - intros Hnormal.
    assert (Hrun : performAll (constructed this) ops = (Normal tt, final)).
    { unfold final. destruct (performAll (constructed this) ops) as [res st].
      simpl in *. congruence. }
    rewrite (added_stage_names _ _ _ Hrun). reflexivity.
Qed.

Lemma assets_stage_stays_in_place_witness :
  map stageName
      (Pipeline_stages (_pipeline (construct (performAll (constructed builtPipeline) session).2)))
  = ["Source"; "Build"; "UpdatePipeline"; "Assets"; "Beta"; "Prod"]
  /\ _stages (_pipeline (construct (performAll (constructed builtPipeline) session).2))
     = _stages (_pipeline builtPipeline)
       ++ map pipelineStage (cdkStages (performAll (constructed builtPipeline) session).2)
  /\ map cdkStage_stageName (cdkStages (performAll (constructed builtPipeline) session).2)
     = addedStages session.
Proof.
  split; [vm_compute; reflexivity|].
  destruct (assets_stage_stays_in_place appEnv bothActionsProps builtPipeline
              (Some (_pipeline builtPipeline)) session)
    as (Hlist & _ & _ & _ & _ & Hnames).
  - vm_compute. reflexivity.
  - intros cp H. discriminate H.
  - split; [exact Hlist|]. apply Hnames. vm_compute. reflexivity.
Defined.

(** ** The registry of publishers *)

Lemma registryConsistent_new outdir art v n p :
  registryConsistent (AssetPublishing_new outdir art v n p).
Proof.
  unfold registryConsistent, AssetPublishing_new; simpl.
  split; [|split].
  - intros id r H. rewrite lookup_empty in H. discriminate.
  - intros id1 id2 r H. rewrite lookup_empty in H. discriminate.
  - intros r H. lia.
Qed.

Lemma registryConsistent_step a c a' :
  registryConsistent a ->
  escapes (myCxAsmRoot a) (assetManifestPath c) = false ->
  addPublishAssetAction a c = (Normal tt, a') ->
  registryConsistent a'.
Proof.
  intros (Hvalid & Hinj & Hsurj) He H.
  destruct (request_normal a c He (proj2 (request_returned _ _ _ H))) as (x & X & _ & _ & _ & _ & Hcase).
  rewrite H in X. injection X as <-. unfold registryConsistent.
  destruct (publishers a !! assetId c) as [r|] eqn:Hp.
  - destruct Hcase as (-> & _ & _ & _ & ->). rewrite length_alter. auto.
  - destruct Hcase as (-> & _ & _ & _ & x & -> & _). rewrite length_app. simpl.
    split; [|split].
    + intros id r Hr. destruct (decide (assetId c = id)) as [<-|Hne].
      * rewrite lookup_insert_eq in Hr. injection Hr as <-. lia.
      * rewrite lookup_insert_ne in Hr by exact Hne. apply Hvalid in Hr. lia.
    + intros id1 id2 r H1 H2.
      destruct (decide (assetId c = id1)) as [<-|Hne1],
               (decide (assetId c = id2)) as [<-|Hne2]; auto.
      * rewrite lookup_insert_eq in H1. rewrite lookup_insert_ne in H2 by exact Hne2.
        injection H1 as <-. apply Hvalid in H2. lia.
      * rewrite lookup_insert_eq in H2. rewrite lookup_insert_ne in H1 by exact Hne1.
        injection H2 as <-. apply Hvalid in H1. lia.
      * rewrite lookup_insert_ne in H1 by exact Hne1.
        rewrite lookup_insert_ne in H2 by exact Hne2. eauto.
    + intros r Hr. destruct (decide (r = length (publishActions a))) as [->|Hne].
      * exists (assetId c). apply lookup_insert_eq.
      * destruct (Hsurj r) as [id Hid]; [lia|]. exists id.
        rewrite lookup_insert_ne; [exact Hid|]. intros <-. congruence.
Qed.

Lemma registryConsistent_role a t :
  registryConsistent a -> registryConsistent (generateAssetRole a t).2.
Proof.
  unfold registryConsistent.
  destruct (generateAssetRole_fields a t) as (-> & _ & _ & _ & _ & -> & _). auto.
Qed.

(** A property of the coordinator that does not look at the pipeline, and
    that every returning request and the creation of a role keep, holds
    after any operations. *)
Lemma performAll_assets_invariant (Q : AssetPublishing -> Prop) :
  (forall a p, Q a -> Q (with_pipeline a p)) ->
  (forall a c a',
     Q a -> escapes (myCxAsmRoot a) (assetManifestPath c) = false ->
     addPublishAssetAction a c = (Normal tt, a') -> Q a') ->
  (forall a t, Q a -> Q (generateAssetRole a t).2) ->
  forall ops this,
    Q (_assets (construct this)) -> Q (_assets (construct (performAll this ops).2)).
Proof.
  intros Hpipe Hstep Hrole ops this HQ.
  apply (performAll_invariant (fun st => Q (_assets (construct st)))); [| |exact HQ].
  - intros st op st' HQst H. destruct op as [name|c|o].
    + simpl in H. injection H as <-. simpl. apply Hpipe, HQst.
    + apply perform_publish in H as (He & H & _). eapply Hstep; eauto.
    + apply perform_output in H as ->. simpl. rewrite stackOutput_assets. exact HQst.
  - intros st t HQst. apply Hrole, HQst.
Qed.

(** The coordinator a construction that returned has made: no publisher,
    no role, no action, counters at one. *)
Lemma constructor_coordinator env props this left :
  CdkPipeline_new env props = (Normal this, left) ->
  exists p,
    _assets this
    = AssetPublishing_new (outdir env) (cloudAssemblyArtifact props)
        (cdkCliVersion props) (maybeSuffix (pipelineName props) "-publish") p
    /\ _outputArtifacts this = []
    /\ allocated this = S (artifactObject (cloudAssemblyArtifact props)).
Proof.
  unfold CdkPipeline_new. intros H.
  destruct (isApp env); cbn [negb] in H; [|discriminate].
  destruct (codePipeline props) as [cp|] eqn:Hcp.
  - destruct (truthy_string (pipelineName props)); [discriminate|].
    destruct (sourceAction props), (synthAction props); cbn [truthy negb andb] in H;
      repeat (match type of H with
              | context [bool_decide ?P] => destruct (bool_decide P); cbn [andb] in H
              end);
      try discriminate; take_result H this;
      eexists; repeat split; reflexivity.
  - destruct (sourceAction props), (synthAction props); cbn [truthy negb andb] in H;
      try discriminate; take_result H this;
      eexists; repeat split; reflexivity.
Qed.

(** ** Requests are grouped by asset *)

Lemma received_snoc root cs c a :
  received root (cs ++ [c]) a
  = addPublishCommand (received root cs a)
      (path_relative root (assetManifestPath c)) (assetSelector c).
Proof. unfold received. rewrite fold_left_app. reflexivity. Qed.

Lemma grouped_new outdir art v n p : grouped [] (AssetPublishing_new outdir art v n p).
Proof. intros id. simpl. apply lookup_empty. Qed.

Lemma grouped_step processed a c a' :
  registryConsistent a ->
  grouped processed a ->
  escapes (myCxAsmRoot a) (assetManifestPath c) = false ->
  addPublishAssetAction a c = (Normal tt, a') ->
  grouped (processed ++ [c]) a'.
Proof.
  intros (Hvalid & Hinj & _) Hg He H id.
  destruct (request_normal a c He (proj2 (request_returned _ _ _ H))) as (x & X & Hroot & _ & _ & _ & Hcase).
  rewrite H in X. injection X as <-.
  specialize (Hg id). rewrite filter_app, Hroot.
  destruct (decide (assetId c = id)) as [Heq|Hne].
  - rewrite filter_cons_True by exact Heq. rewrite filter_nil. subst id.
    destruct (filter (fun c0 => assetId c0 = assetId c) processed) as [|c0 rest] eqn:Hf.
    + rewrite Hg in Hcase.
      destruct Hcase as (-> & _ & _ & _ & x & -> & _ & _ & Hty & _ & Hcmd).
      simpl.
      exists (length (publishActions a)),
             {| constructId := constructId x; actionName := actionName x;
                cloudAssemblyInput := cloudAssemblyInput x;
                action_cdkCliVersion := action_cdkCliVersion x;
                action_assetType := action_assetType x;
                role := role x; commands := [] |}.
      split; [apply lookup_insert_eq|]. split; [reflexivity|]. split; [exact Hty|].
      rewrite lookup_app_r, Nat.sub_diag by lia. simpl. f_equal.
      unfold received, addPublishCommand. simpl.
      destruct x. simpl in *. rewrite Hcmd. reflexivity.
    + destruct Hg as (r & a0 & Hr & Hempty & Hty & Hlook).
      rewrite Hr in Hcase. destruct Hcase as (-> & _ & _ & _ & ->).
      change ((c0 :: rest) ++ [c]) with (c0 :: (rest ++ [c])).
      exists r, a0. split; [exact Hr|]. split; [exact Hempty|]. split; [exact Hty|].
      rewrite list_lookup_alter_eq, Hlook.
      change (c0 :: rest ++ [c]) with ((c0 :: rest) ++ [c]).
      rewrite received_snoc. reflexivity.
  - rewrite filter_cons_False by exact Hne. rewrite filter_nil, app_nil_r.
    destruct (filter (fun c0 => assetId c0 = id) processed) as [|c0 rest] eqn:Hf.
    + destruct (publishers a !! assetId c) as [r|].
      * destruct Hcase as (-> & _). exact Hg.
      * destruct Hcase as (-> & _). rewrite lookup_insert_ne by exact Hne. exact Hg.
    + destruct Hg as (r & a0 & Hr & Hempty & Hty & Hlook).
      exists r, a0.
      destruct (publishers a !! assetId c) as [rc|] eqn:Hc.
      * destruct Hcase as (-> & _ & _ & _ & ->).
        split; [exact Hr|]. split; [exact Hempty|]. split; [exact Hty|].
        rewrite list_lookup_alter_ne; [exact Hlook|].
        intros ->. apply Hne. exact (Hinj _ _ _ Hc Hr).
      * destruct Hcase as (-> & _ & _ & _ & x & -> & _).
        rewrite lookup_insert_ne by exact Hne.
        split; [exact Hr|]. split; [exact Hempty|]. split; [exact Hty|].
        rewrite lookup_app_l; [exact Hlook|]. exact (Hvalid _ _ Hr).
Qed.

Lemma publishRequests_cons op ops :
  publishRequests (op :: ops)
  = match op with PublishAsset c => [c] | _ => [] end ++ publishRequests ops.
Proof. destruct op; reflexivity. Qed.

Lemma grouped_run ops : forall this final processed,
  registryConsistent (_assets (construct this)) ->
  grouped processed (_assets (construct this)) ->
  performAll this ops = (Normal tt, final) ->
  grouped (processed ++ publishRequests ops) (_assets (construct final)).
Proof.
  induction ops as [|op ops IH]; intros this final processed Hreg Hg H.
  - simpl in H. injection H as <-. simpl. rewrite app_nil_r. exact Hg.
  - apply performAll_normal_cons in H as (this1 & H1 & H).
    rewrite publishRequests_cons, app_assoc.
    apply (IH this1); [| |exact H]; destruct op as [name|c|o].
    + simpl in H1. injection H1 as <-. exact Hreg.
    + apply perform_publish in H1 as (He & H1 & _).
      exact (registryConsistent_step _ _ _ Hreg He H1).
    + apply perform_output in H1 as ->. simpl. rewrite stackOutput_assets. exact Hreg.
    + simpl in H1. injection H1 as <-. simpl. rewrite app_nil_r. exact Hg.
    + apply perform_publish in H1 as (He & H1 & _).
      exact (grouped_step _ _ _ _ Hreg Hg He H1).
    + apply perform_output in H1 as ->. simpl. rewrite stackOutput_assets, app_nil_r.
      exact Hg.
Qed.

Lemma publishers_counted_role a t :
  size (publishers a) = length (publishActions a) ->
  size (publishers (generateAssetRole a t).2)
  = length (publishActions (generateAssetRole a t).2).
Proof.
  destruct (generateAssetRole_fields a t) as (-> & _ & _ & _ & _ & -> & _). auto.
Qed.

Lemma publishers_counted_step a c a' :
  size (publishers a) = length (publishActions a) ->
  escapes (myCxAsmRoot a) (assetManifestPath c) = false ->
  addPublishAssetAction a c = (Normal tt, a') ->
  size (publishers a') = length (publishActions a').
Proof.
  intros Hsize He H.
  destruct (request_normal a c He (proj2 (request_returned _ _ _ H))) as (x & X & _ & _ & _ & _ & Hcase).
  rewrite H in X. injection X as <-.
  destruct (publishers a !! assetId c) as [r|] eqn:Hp.
  - destruct Hcase as (-> & _ & _ & _ & ->). rewrite length_alter. exact Hsize.
  - destruct Hcase as (-> & _ & _ & _ & x & -> & _).
    rewrite map_size_insert_None by exact Hp. rewrite length_app. simpl. lia.
Qed.

(** After a construction and any operations that all returned, the
    publishers and the publishing actions correspond one to one, an asset
    has a publisher exactly if it was requested, and the action of an asset
    has the type of the first request for it and has received the commands
    of the requests for it, and of no other, in their order. *)
Theorem requests_grouped_by_asset env props this left ops final :
  CdkPipeline_new env props = (Normal this, left) ->
  performAll (constructed this) ops = (Normal tt, final) ->
  registryConsistent (_assets (construct final))
  /\ grouped (publishRequests ops) (_assets (construct final))
  /\ size (publishers (_assets (construct final)))
     = length (publishActions (_assets (construct final))).
Proof.
  intros Hnew Hrun.
  destruct (constructor_coordinator env props this left Hnew) as (p & Ha & _).
  assert (Hfinal : final = (performAll (constructed this) ops).2) by (rewrite Hrun; reflexivity).
  split; [|split].
  - rewrite Hfinal.
    apply (performAll_assets_invariant registryConsistent).
    + intros a q H. exact H.
    + exact registryConsistent_step.
    + exact registryConsistent_role.
    + simpl. rewrite Ha. apply registryConsistent_new.
  - apply (grouped_run ops (constructed this) final []); [| |exact Hrun]; simpl; rewrite Ha.
    + apply registryConsistent_new.
    + apply grouped_new.
  - rewrite Hfinal.
    apply (performAll_assets_invariant
             (fun a => size (publishers a) = length (publishActions a))).
    + intros a q H. exact H.
    + exact publishers_counted_step.
    + exact publishers_counted_role.
    + simpl. rewrite Ha. reflexivity.
Qed.

Lemma requests_grouped_by_asset_witness :
  publishers (_assets (construct (performAll (constructed builtPipeline) session).2)) !! "a1"
  = Some 0
  /\ grouped (publishRequests session)
       (_assets (construct (performAll (constructed builtPipeline) session).2))
  /\ size (publishers (_assets (construct (performAll (constructed builtPipeline) session).2)))
     = 3.
Proof.
  split; [vm_compute; reflexivity|].
  destruct (requests_grouped_by_asset appEnv bothActionsProps builtPipeline
              (Some (_pipeline builtPipeline)) session
              (performAll (constructed builtPipeline) session).2)
    as (_ & Hgrouped & Hsize).
  - vm_compute. reflexivity.
  - vm_compute. reflexivity.
  - split; [exact Hgrouped|]. rewrite Hsize. vm_compute. reflexivity.
Defined.

(** ** Construct ids under the coordinator *)

Lemma idsFormed_new outdir art v n p : idsFormed (AssetPublishing_new outdir art v n p).
Proof.
  unfold idsFormed, AssetPublishing_new. simpl.
  split; [|split].
  - intros t r H. inversion H.
  - intros x H. inversion H.
  - constructor.
Qed.

Lemma asset_ids_differ t1 (k1 : nat) t2 (k2 : nat) :
  (if bool_decide (t1 = FILE) then "FileAsset" else "DockerAsset") +:+ pretty k1
  = (if bool_decide (t2 = FILE) then "FileAsset" else "DockerAsset") +:+ pretty k2 ->
  t1 = t2 /\ k1 = k2.
Proof.
  destruct t1, t2; simpl; intros H.
  - apply append_cancel_l in H. apply (inj pretty) in H. auto.
  - rewrite !append_String in H. discriminate H.
  - rewrite !append_String in H. discriminate H.
  - apply append_cancel_l in H. apply (inj pretty) in H. auto.
Qed.

Lemma role_ids_differ t1 t2 :
  (if bool_decide (t1 = DOCKER_IMAGE) then "Docker" else "File") +:+ "Role"
  = (if bool_decide (t2 = DOCKER_IMAGE) then "Docker" else "File") +:+ "Role" ->
  t1 = t2.
Proof.
  destruct t1, t2; simpl; intros H; try reflexivity;
    rewrite !append_String in H; discriminate H.
Qed.

Lemma role_id_no_asset_id t1 t2 (k : nat) :
  (if bool_decide (t1 = DOCKER_IMAGE) then "Docker" else "File") +:+ "Role"
  <> (if bool_decide (t2 = FILE) then "FileAsset" else "DockerAsset") +:+ pretty k.
Proof.
  destruct t1, t2; simpl; intros H; rewrite !append_String in H; discriminate H.
Qed.

Lemma idsFormed_role a t : idsFormed a -> idsFormed (generateAssetRole a t).2.
Proof.
  intros (Hroles & Hacts & Hnd). unfold idsFormed.
  destruct (generateAssetRole_fields a t) as (_ & _ & _ & -> & -> & -> & _).
  split; [|auto].
  unfold generateAssetRole. destruct (assetRoles a !! t); [exact Hroles|].
  cbn [snd with_role roles]. intros t' r Hin.
  apply elem_of_app in Hin as [Hin|Hin]; [exact (Hroles t' r Hin)|].
  apply list_elem_of_singleton in Hin. injection Hin as -> ->. reflexivity.
Qed.

Lemma idsFormed_step a c a' :
  idsFormed a ->
  escapes (myCxAsmRoot a) (assetManifestPath c) = false ->
  addPublishAssetAction a c = (Normal tt, a') ->
  idsFormed a'.
Proof.
  intros (Hroles & Hacts & Hnd) He H.
  destruct (request_normal a c He (proj2 (request_returned _ _ _ H))) as (x & X & _ & _ & _ & Hlog & Hcase).
  rewrite H in X. injection X as <-.
  unfold idsFormed. split; [|].
  { intros t r Hin. rewrite Hlog in Hin.
    destruct (assetRoles a !! assetType c) eqn:Hc; [exact (Hroles t r Hin)|].
    apply elem_of_app in Hin as [Hin|Hin]; [exact (Hroles t r Hin)|].
    apply list_elem_of_singleton in Hin. injection Hin as -> ->.
    unfold generateAssetRole. rewrite Hc. reflexivity. }
  destruct (publishers a !! assetId c) as [r|] eqn:Hp.
  - destruct Hcase as (_ & _ & -> & -> & ->). split.
    + intros x Hx. apply elem_of_alter_inv in Hx as [Hx|(y & Hy & ->)]; [exact (Hacts x Hx)|].
      destruct (addPublishCommand_fields y (relativeManifest a c) (assetSelector c))
        as (-> & _ & -> & _).
      exact (Hacts y Hy).
    + rewrite map_alter_same; [exact Hnd|].
      intros y. apply addPublishCommand_fields.
  - destruct Hcase as (_ & _ & Hf & Hd & x & -> & Hname & Hid & Hty & _).
    assert (Hnew : constructId x
                   = (if bool_decide (action_assetType x = FILE)
                      then "FileAsset" else "DockerAsset")
                     +:+ pretty (if bool_decide (action_assetType x = FILE)
                                 then _fileAssetCtr a else _dockerAssetCtr a)).
    { rewrite Hid, Hname, Hty. destruct (bool_decide (assetType c = FILE)); reflexivity. }
    split.
    + intros y Hy. apply elem_of_app in Hy as [Hy|Hy].
      * destruct (Hacts y Hy) as (k & Hk & Hky). exists k. split; [|exact Hky].
        rewrite Hf, Hd.
        destruct (bool_decide (action_assetType y = FILE)),
                 (bool_decide (assetType c = FILE)); lia.
      * apply list_elem_of_singleton in Hy. subst y.
        eexists. split; [|exact Hnew].
        rewrite Hf, Hd, Hty. destruct (bool_decide (assetType c = FILE)); lia.
    + rewrite map_app. apply NoDup_app. split; [exact Hnd|]. split; [|apply NoDup_singleton].
      intros i Hi Hi'. apply list_elem_of_singleton in Hi'. subst i.
      apply list_elem_of_fmap in Hi as (y & Heq & Hy).
      destruct (Hacts y Hy) as (k & Hk & Hky).
      rewrite Hnew, Hky in Heq. apply asset_ids_differ in Heq as [Ht Hkk].
      rewrite <- Ht in Hk.
      destruct (bool_decide (action_assetType x = FILE)); lia.
Qed.

(** Under the coordinator, no two constructs are created with the
    same id, whatever is requested: the ids of the roles and of the
    publishing actions are all different after a construction and any
    operations. *)
Theorem child_construct_ids_unique env props this left ops :
  CdkPipeline_new env props = (Normal this, left) ->
  NoDup (childConstructIds (_assets (construct (performAll (constructed this) ops).2))).
Proof.
  intros Hnew.
  destruct (constructor_coordinator env props this left Hnew) as (p & Ha & _).
  assert (Hinv : (fun a => rolesMemoized a /\ idsFormed a)
                   (_assets (construct (performAll (constructed this) ops).2))).
  { apply performAll_assets_invariant.
    - intros a q H. exact H.
    - intros a c a' [Hm Hi] He H. split.
      + exact (rolesMemoized_step _ _ _ Hm He H).
      + exact (idsFormed_step _ _ _ Hi He H).
    - intros a t [Hm Hi]. split.
      + exact (rolesMemoized_role _ _ Hm).
      + exact (idsFormed_role _ _ Hi).
    - simpl. rewrite Ha. split; [apply rolesMemoized_new|apply idsFormed_new]. }
  simpl in Hinv.
  destruct Hinv as [(Hkeys & _) (Hroles & Hacts & Hnd)].
  set (a := _assets (construct (performAll (constructed this) ops).2)) in *.
  unfold childConstructIds. apply NoDup_app. split; [|split; [|exact Hnd]].
  - assert (Hgen : forall l : list (AssetType * Role),
              NoDup (map fst l) ->
              (forall t r, (t, r) ∈ l ->
                 roleConstructId r
                 = (if bool_decide (t = DOCKER_IMAGE) then "Docker" else "File") +:+ "Role") ->
              NoDup (map (fun e => roleConstructId e.2) l)).
    { induction l as [|[t r] l IH]; simpl; intros Hl Hform; [constructor|].
      apply NoDup_cons in Hl as [Hnotin Hl]. apply NoDup_cons. split.
      - intros Hin. apply list_elem_of_fmap in Hin as ([t' r'] & Heq & Hin). simpl in Heq.
        rewrite (Hform t r), (Hform t' r') in Heq.
        + apply role_ids_differ in Heq. subst t'. apply Hnotin.
          apply list_elem_of_fmap. exists (t, r'). auto.
        + apply elem_of_cons. auto.
        + apply elem_of_cons. auto.
      - apply IH; [exact Hl|]. intros t' r' Hin. apply Hform, elem_of_cons. auto. }
    exact (Hgen (roles a) Hkeys Hroles).
  - intros i Hi Hi'.
    apply list_elem_of_fmap in Hi as ([t r] & -> & Hin).
    apply list_elem_of_fmap in Hi' as (y & Heq & Hy). simpl in Heq.
    destruct (Hacts y Hy) as (k & _ & Hky).
    rewrite (Hroles t r Hin), Hky in Heq.
    exact (role_id_no_asset_id _ _ _ Heq).
Qed.

Lemma child_construct_ids_unique_witness :
  childConstructIds (_assets (construct (performAll (constructed builtPipeline) session).2))
  = ["FileRole"; "DockerRole"; "FileAsset1"; "DockerAsset1"; "FileAsset2"]
  /\ NoDup (childConstructIds
              (_assets (construct (performAll (constructed builtPipeline) session).2))).
Proof.
  split; [vm_compute; reflexivity|].
  apply (child_construct_ids_unique appEnv bothActionsProps builtPipeline
           (Some (_pipeline builtPipeline)) session).
  vm_compute. reflexivity.
Defined.

(** ** The aspect that elides the Assets stage *)

Lemma removeAssetsStageIfEmpty_stages a :
  NoDup (_stages (pipeline a)) ->
  _stages (pipeline (removeAssetsStageIfEmpty a))
  = if bool_decide (size (publishers a) = 0)
    then filter (fun r => r <> stage a) (_stages (pipeline a))
    else _stages (pipeline a).
Proof.
  intros Hnd. unfold removeAssetsStageIfEmpty.
  destruct (bool_decide (size (publishers a) = 0)); [|reflexivity].
  pose proof (splice_indexOf (_stages (pipeline a)) (stage a) Hnd) as Hsplice.
  destruct (indexOf (_stages (pipeline a)) (stage a) >? -1)%Z; simpl; auto.
Qed.

Lemma removeAssetsStageIfEmpty_twice a :
  NoDup (_stages (pipeline a)) ->
  removeAssetsStageIfEmpty (removeAssetsStageIfEmpty a) = removeAssetsStageIfEmpty a.
Proof.
  intros Hnd.
  pose proof (splice_indexOf (_stages (pipeline a)) (stage a) Hnd) as Hsplice.
  assert (Hcases : removeAssetsStageIfEmpty a = a
                   \/ (size (publishers a) = 0
                       /\ removeAssetsStageIfEmpty a
                          = with_pipeline a
                              {| stageObjects := stageObjects (pipeline a);
                                 _stages := filter (fun r => r <> stage a)
                                                   (_stages (pipeline a)) |})).
  { unfold removeAssetsStageIfEmpty. case_bool_decide as Hsize; [|auto].
    destruct (indexOf (_stages (pipeline a)) (stage a) >? -1)%Z; [|auto].
    right. rewrite Hsplice. auto. }
  destruct Hcases as [Hsame|[Hsize Hgone]].
  - rewrite !Hsame. reflexivity.
  - rewrite Hgone. unfold removeAssetsStageIfEmpty at 1. simpl.
    rewrite bool_decide_eq_true_2 by exact Hsize.
    rewrite indexOf_absent; [reflexivity|].
    intros Hin. apply list_elem_of_filter in Hin as [Hne _]. apply Hne. reflexivity.
Qed.

Lemma removeAssetsStageIfEmpty_iter a n :
  NoDup (_stages (pipeline a)) ->
  Nat.iter (S n) removeAssetsStageIfEmpty a = removeAssetsStageIfEmpty a.
Proof.
  intros Hnd. induction n as [|n IH]; [reflexivity|].
  change (Nat.iter (S (S n)) removeAssetsStageIfEmpty a)
    with (removeAssetsStageIfEmpty (Nat.iter (S n) removeAssetsStageIfEmpty a)).
  rewrite IH. apply removeAssetsStageIfEmpty_twice, Hnd.
Qed.

(** The aspect the constructor registers calls
    [removeAssetsStageIfEmpty] once for every construct it visits.  After
    a construction and any operations, any number of visits does what the
    first visit does: with no publishing action the Assets stage is taken
    out from between the constructor's stages and the stages added since,
    which keep their order; with a publishing action nothing changes. *)
Theorem elision_once_for_all_visits env props this left ops visits :
  CdkPipeline_new env props = (Normal this, left) ->
  (forall cp, codePipeline props = Some cp -> wellListed cp) ->
  Nat.iter (S visits) removeAssetsStageIfEmpty
    (_assets (construct (performAll (constructed this) ops).2))
  = removeAssetsStageIfEmpty (_assets (construct (performAll (constructed this) ops).2))
  /\ _stages (pipeline (removeAssetsStageIfEmpty
                          (_assets (construct (performAll (constructed this) ops).2))))
     = match publishActions (_assets (construct (performAll (constructed this) ops).2)) with
       | [] => removelast (_stages (_pipeline this))
       | _ :: _ => _stages (_pipeline this)
       end
       ++ map pipelineStage (cdkStages (performAll (constructed this) ops).2).
Proof.
  intros Hnew Hwf.
  destruct (constructor_returned env props this left Hnew Hwf) as (p & Hp & Ha & _).
  pose proof (stagesInPlace_run _ _ ops (stagesInPlace_new _ _ _ _ p this Hp Ha))
    as (Hlist & Hnd & _).
  destruct (stage_unchanged_run (constructed this) ops) as [Hstage _].
  assert (Hsize : (fun a => size (publishers a) = length (publishActions a))
                    (_assets (construct (performAll (constructed this) ops).2))).
  { apply performAll_assets_invariant.
    - intros a q H. exact H.
    - exact publishers_counted_step.
    - exact publishers_counted_role.
    - simpl. rewrite Ha. reflexivity. }
  simpl in Hsize, Hstage.
  set (final := (performAll (constructed this) ops).2) in *.
  assert (Hbase : _stages (_pipeline this) = _stages p ++ [stage (_assets this)]).
  { unfold _pipeline. rewrite Ha. reflexivity. }
  unfold _pipeline in Hlist, Hnd.
  split; [exact (removeAssetsStageIfEmpty_iter _ visits Hnd)|].
  rewrite (removeAssetsStageIfEmpty_stages _ Hnd), Hsize.
  destruct (publishActions (_assets (construct final))) as [|x xs]; simpl.
  - rewrite Hbase, removelast_last.
    rewrite Hlist in Hnd |- *.
    apply NoDup_app in Hnd as (_ & Hsep & Hnd).
    apply NoDup_cons in Hnd as (Hadded & _).
    rewrite !filter_app, filter_cons_False, filter_nil by auto.
    rewrite !filter_all; [reflexivity| |].
    + intros r Hr ->. exact (Hadded Hr).
    + intros r Hr ->. apply (Hsep _ Hr), elem_of_cons. auto.
  - rewrite Hlist, Hbase, Hstage, <- app_assoc. reflexivity.
Qed.

Lemma elision_once_for_all_visits_witness :
  map stageName
      (Pipeline_stages
         (pipeline (Nat.iter 3 removeAssetsStageIfEmpty
                      (_assets (construct
                         (performAll (constructed builtPipeline)
                                     [AddStage "Beta"; RequestOutput (outputOf "Api" "Url")]).2)))))
  = ["Source"; "Build"; "UpdatePipeline"; "Beta"]
  /\ Nat.iter 3 removeAssetsStageIfEmpty
       (_assets (construct (performAll (constructed builtPipeline) session).2))
     = removeAssetsStageIfEmpty
         (_assets (construct (performAll (constructed builtPipeline) session).2)).
Proof.
  split; [vm_compute; reflexivity|].
  apply (elision_once_for_all_visits appEnv bothActionsProps builtPipeline
           (Some (_pipeline builtPipeline)) session 2).
  - vm_compute. reflexivity.
  - intros cp H. discriminate H.
Defined.

(** Operations without a publish request create no publishing action,
    whether or not they all return. *)
Lemma no_request_no_action ops : forall this,
  publishRequests ops = [] ->
  publishActions (_assets (construct (performAll this ops).2))
  = publishActions (_assets (construct this)).
Proof.
  induction ops as [|op ops IH]; intros this Hnone; [reflexivity|].
  rewrite publishRequests_cons in Hnone.
  destruct op as [stageName|c|o]; [|discriminate Hnone|].
  - cbn [performAll perform]. rewrite (IH _ Hnone). reflexivity.
  - cbn [performAll].
    destruct (perform this (RequestOutput o)) as [r this1] eqn:Hstep.
    pose proof (perform_output _ _ _ _ Hstep) as ->.
    destruct r as [[]|m].
    + rewrite (IH _ Hnone). cbn [construct]. rewrite stackOutput_assets. reflexivity.
    + cbn [snd construct]. rewrite stackOutput_assets. reflexivity.
Qed.

(** C4.  A pipeline is constructed; stages are added, assets published and
    outputs requested in any order; then [removeAssetsStageIfEmpty] runs.
    If no publishing action was created, the Assets stage is gone from the
    pipeline: what is left are the other stages, those before it and those
    added after it, in their order, and no stage object has changed.  If a
    publishing action was created, nothing is removed: the Assets stage is
    still listed and holds at least one action.  When no publish request
    was made, no action was created; and when all the operations returned
    and no action was created, no publish request was made. *)
Theorem assets_stage_removed_iff_unused env props this left ops :
  CdkPipeline_new env props = (Normal this, left) ->
  (forall cp, codePipeline props = Some cp -> wellListed cp) ->
  (publishActions (_assets (construct (performAll (constructed this) ops).2)) = [] ->
   (stage (_assets (construct (performAll (constructed this) ops).2))
      ∉ _stages (pipeline (removeAssetsStageIfEmpty
                             (_assets (construct (performAll (constructed this) ops).2)))))
   /\ _stages (pipeline (removeAssetsStageIfEmpty
                           (_assets (construct (performAll (constructed this) ops).2))))
      = filter (fun r => r <> stage (_assets (construct (performAll (constructed this) ops).2)))
               (_stages (pipeline (_assets (construct (performAll (constructed this) ops).2))))
   /\ _stages (pipeline (removeAssetsStageIfEmpty
                           (_assets (construct (performAll (constructed this) ops).2))))
      = removelast (_stages (_pipeline this))
        ++ map pipelineStage (cdkStages (performAll (constructed this) ops).2)
   /\ stageObjects (pipeline (removeAssetsStageIfEmpty
                                (_assets (construct (performAll (constructed this) ops).2))))
      = stageObjects (pipeline (_assets (construct (performAll (constructed this) ops).2))))
  /\ (publishActions (_assets (construct (performAll (constructed this) ops).2)) <> [] ->
      removeAssetsStageIfEmpty (_assets (construct (performAll (constructed this) ops).2))
      = _assets (construct (performAll (constructed this) ops).2)
      /\ (stage (_assets (construct (performAll (constructed this) ops).2))
          ∈ _stages (pipeline (_assets (construct (performAll (constructed this) ops).2))))
      /\ exists s,
           stageObjects (pipeline (_assets (construct (performAll (constructed this) ops).2)))
             !! stage (_assets (construct (performAll (constructed this) ops).2)) = Some s
           /\ stageName s = "Assets"
           /\ actions s <> [])
  /\ (publishRequests ops = [] ->
      publishActions (_assets (construct (performAll (constructed this) ops).2)) = [])
  /\ ((performAll (constructed this) ops).1 = Normal tt ->
      publishActions (_assets (construct (performAll (constructed this) ops).2)) = [] ->
      publishRequests ops = []).
Proof.
  intros Hnew Hwf.
  destruct (constructor_returned env props this left Hnew Hwf) as (p & Hp & Ha & _).
  pose proof (stagesInPlace_run _ _ ops (stagesInPlace_new _ _ _ _ p this Hp Ha))
    as (Hlist & Hnd & _ & Hassets & _).
  destruct (stage_unchanged_run (constructed this) ops) as [Hstage _].
  assert (Hsize : (fun a => size (publishers a) = length (publishActions a))
                    (_assets (construct (performAll (constructed this) ops).2))).
  { apply performAll_assets_invariant.
    - intros a q H. exact H.
    - exact publishers_counted_step.
    - exact publishers_counted_role.
    - simpl. rewrite Ha. reflexivity. }
  simpl in Hsize, Hstage.
  assert (Hbase : _stages (_pipeline this) = _stages p ++ [stage (_assets this)]).
  { unfold _pipeline. rewrite Ha. reflexivity. }
  unfold _pipeline in Hlist, Hnd, Hassets.
  assert (Hquiet : publishRequests ops = [] ->
                    publishActions
                      (_assets (construct (performAll (constructed this) ops).2)) = []).
  { intros Hnone. rewrite (no_request_no_action ops _ Hnone). simpl.
    rewrite Ha. reflexivity. }
  set (final := (performAll (constructed this) ops).2) in *.
  set (a := _assets (construct final)) in *.
  split; [|split; [|split; [exact Hquiet|]]].
  - intros Hnone.
    assert (Hgone : _stages (pipeline (removeAssetsStageIfEmpty a))
                    = filter (fun r => r <> stage a) (_stages (pipeline a))).
    { rewrite (removeAssetsStageIfEmpty_stages _ Hnd), Hsize, Hnone. reflexivity. }
    split; [|split; [exact Hgone|split]].
    + rewrite Hgone. intros Hin. apply list_elem_of_filter in Hin as [Hne _].
      apply Hne. reflexivity.
    + rewrite Hgone, Hbase, removelast_last.
      rewrite Hlist in Hnd |- *.
      apply NoDup_app in Hnd as (_ & Hsep & Hnd).
      apply NoDup_cons in Hnd as (Hadded & _).
      rewrite !filter_app, filter_cons_False, filter_nil by auto.
      rewrite !filter_all; [reflexivity| |].
      * intros r Hr ->. exact (Hadded Hr).
      * intros r Hr ->. apply (Hsep _ Hr), elem_of_cons. auto.
    + unfold removeAssetsStageIfEmpty.
      destruct (bool_decide (size (publishers a) = 0)); [|reflexivity].
      destruct (indexOf (_stages (pipeline a)) (stage a) >? -1)%Z; reflexivity.
  - intros Hsome.
    assert (Hlen : length (publishActions a) <> 0)
      by (destruct (publishActions a); [congruence|discriminate]).
    split; [|split].
    + unfold removeAssetsStageIfEmpty.
      rewrite bool_decide_eq_false_2 by (rewrite Hsize; exact Hlen). reflexivity.
    + rewrite Hlist. apply elem_of_app. right. apply elem_of_cons. left. reflexivity.
    + eexists. split; [exact Hassets|]. split; [reflexivity|]. simpl.
      destruct (length (publishActions a)); [congruence|discriminate].
  - intros Hnormal.
    assert (Hrun : performAll (constructed this) ops = (Normal tt, final)).
    { unfold final. destruct (performAll (constructed this) ops) as [res st].
      simpl in *. congruence. }
    pose proof (grouped_run ops (constructed this) final []) as Hgrouped.
    simpl in Hgrouped. rewrite Ha in Hgrouped.
    specialize (Hgrouped (registryConsistent_new _ _ _ _ _) (grouped_new _ _ _ _ _) Hrun).
    fold a in Hgrouped.
    intros Hnone. destruct (publishRequests ops) as [|c cs] eqn:Hreq; [reflexivity|].
    exfalso. specialize (Hgrouped (assetId c)).
    rewrite filter_cons_True in Hgrouped by reflexivity.
    destruct Hgrouped as (r & a0 & _ & _ & _ & Hlook).
    rewrite Hnone in Hlook. discriminate Hlook.
Qed.

Lemma assets_stage_removed_iff_unused_witness :
  map stageName
      (Pipeline_stages
         (pipeline
            (_assets (construct
               (performAll (constructed builtPipeline)
                  [AddStage "Beta"; RequestOutput (outputOf "Api" "Url")]).2))))
  = ["Source"; "Build"; "UpdatePipeline"; "Assets"; "Beta"]
  /\ map stageName
       (Pipeline_stages
          (pipeline
             (removeAssetsStageIfEmpty
                (_assets (construct
                   (performAll (constructed builtPipeline)
                      [AddStage "Beta"; RequestOutput (outputOf "Api" "Url")]).2)))))
     = ["Source"; "Build"; "UpdatePipeline"; "Beta"]
  /\ (stage (_assets (construct
               (performAll (constructed builtPipeline)
                  [AddStage "Beta"; RequestOutput (outputOf "Api" "Url")]).2))
      ∉ _stages (pipeline (removeAssetsStageIfEmpty
                             (_assets (construct
                                (performAll (constructed builtPipeline)
                                   [AddStage "Beta";
                                    RequestOutput (outputOf "Api" "Url")]).2)))))
  /\ removeAssetsStageIfEmpty
       (_assets (construct (performAll (constructed builtPipeline) session).2))
     = _assets (construct (performAll (constructed builtPipeline) session).2).
Proof.
  split; [vm_compute; reflexivity|]. split; [vm_compute; reflexivity|]. split.
  - destruct (assets_stage_removed_iff_unused appEnv bothActionsProps builtPipeline
                (Some (_pipeline builtPipeline))
                [AddStage "Beta"; RequestOutput (outputOf "Api" "Url")])
      as (Hgone & _).
    + vm_compute. reflexivity.
    + intros cp H. discriminate H.
    + apply Hgone. vm_compute. reflexivity.
  - destruct (assets_stage_removed_iff_unused appEnv bothActionsProps builtPipeline
                (Some (_pipeline builtPipeline)) session)
      as (_ & Hkept & _).
    + vm_compute. reflexivity.
    + intros cp H. discriminate H.
    + apply Hkept. vm_compute. discriminate.
Defined.

(** ** What a stage's host sees of the requested outputs *)

Lemma outputArtifact_is_Some outs k :
  is_Some (outputArtifact outs k) <-> k ∈ map fst outs.
Proof.
  split.
  - intros [a Ha]. apply outputArtifact_Some in Ha.
    apply list_elem_of_fmap. exists (k, a). auto.
  - intros Hin. destruct (outputArtifact outs k) eqn:Hlook; [eauto|].
    exfalso. exact (outputArtifact_None _ _ Hlook Hin).
Qed.

Lemma stackOutput_keys this o id :
  id ∈ map fst (_outputArtifacts (stackOutput this o).2)
  <-> id ∈ map fst (_outputArtifacts this)
      \/ (id = output_stackArtifactId o /\ inheritedName (output_stackArtifactId o) = false).
Proof.
  unfold stackOutput, getProperty.
  destruct (outputArtifact (_outputArtifacts this) (output_stackArtifactId o))
    as [a|] eqn:Hlook; simpl.
  - rewrite Hlook. simpl. split; [auto|]. intros [H|[-> _]]; [exact H|].
    apply outputArtifact_is_Some. eauto.
  - destruct (inheritedName (output_stackArtifactId o)); simpl.
    + rewrite Hlook. split; [auto|]. intros [H|[_ H]]; [exact H|discriminate H].
    + rewrite (outputArtifact_last _ _ _ Hlook). simpl.
      rewrite map_app, elem_of_app. simpl. rewrite list_elem_of_singleton.
      split; intros [H|H]; auto. right. exact (proj1 H).
Qed.

(** A call that returned found an artifact of the stack's own, or nothing. *)
Lemma stackOutput_returned this o h this' :
  stackOutput this o = (Normal h, this') ->
  outputArtifact (_outputArtifacts this) (output_stackArtifactId o) = None ->
  inheritedName (output_stackArtifactId o) = false.
Proof.
  intros H Hlook. destruct (inheritedName (output_stackArtifactId o)) eqn:Hname; [|reflexivity].
  unfold stackOutput, getProperty in H. rewrite Hlook, Hname in H. simpl in H.
  rewrite ?Hlook, ?Hname in H. discriminate H.
Qed.

Lemma stackOutput_keeps this o k a :
  outputArtifact (_outputArtifacts this) k = Some a ->
  outputArtifact (_outputArtifacts (stackOutput this o).2) k = Some a.
Proof.
  unfold stackOutput, getProperty.
  destruct (outputArtifact (_outputArtifacts this) (output_stackArtifactId o))
    as [b|] eqn:Hlook; simpl.
  - rewrite Hlook. auto.
  - destruct (inheritedName (output_stackArtifactId o)); simpl.
    + rewrite Hlook. auto.
    + rewrite (outputArtifact_last _ _ _ Hlook). simpl. apply outputArtifact_app_l.
Qed.

Lemma stackOutput_named this o :
  outputsNamed this -> outputsNamed (stackOutput this o).2.
Proof.
  unfold outputsNamed, stackOutput, getProperty. intros Hnamed k a.
  destruct (outputArtifact (_outputArtifacts this) (output_stackArtifactId o))
    as [b|] eqn:Hlook; simpl.
  - rewrite Hlook. apply Hnamed.
  - destruct (inheritedName (output_stackArtifactId o)); simpl.
    + rewrite Hlook. apply Hnamed.
    + rewrite (outputArtifact_last _ _ _ Hlook). simpl.
      intros Hin. apply elem_of_app in Hin as [Hin|Hin]; [exact (Hnamed k a Hin)|].
      apply list_elem_of_singleton in Hin. injection Hin as -> ->. reflexivity.
Qed.

Lemma requestedOutputs_cons op ops :
  requestedOutputs (op :: ops)
  = match op with RequestOutput o => [output_stackArtifactId o] | _ => [] end
    ++ requestedOutputs ops.
Proof. destruct op; reflexivity. Qed.

Lemma outputs_run ops : forall this final id,
  performAll this ops = (Normal tt, final) ->
  id ∈ map fst (_outputArtifacts (construct final))
  <-> id ∈ map fst (_outputArtifacts (construct this)) \/ id ∈ requestedOutputs ops.
Proof.
  induction ops as [|op ops IH]; intros this final id H.
  - simpl in H. injection H as <-. split; [auto|]. intros [H|H]; [exact H|inversion H].
  - apply performAll_normal_cons in H as (this1 & H1 & H).
    rewrite (IH _ _ id H), requestedOutputs_cons, elem_of_app.
    destruct op as [name|c|o].
    + simpl in H1. injection H1 as <-. simpl. split; [tauto|].
      intros [Hl|[Hl|Hl]]; auto. inversion Hl.
    + apply perform_publish in H1 as (_ & _ & _ & -> & _). split; [tauto|].
      intros [Hl|[Hl|Hl]]; auto. inversion Hl.
    + destruct (perform_output_normal _ _ _ H1) as [h Hh].
      pose proof (stackOutput_returned _ _ _ _ Hh) as Hown.
      apply perform_output in H1 as ->. simpl.
      rewrite stackOutput_keys, list_elem_of_singleton.
      split; [tauto|]. intros [Hl|[->|Hl]]; auto.
      destruct (outputArtifact (_outputArtifacts (construct this)) (output_stackArtifactId o))
        as [a|] eqn:Hlook.
      * left. left. apply outputArtifact_is_Some. eauto.
      * left. right. auto.
Qed.

(** No stored artifact is kept under the name of an inherited property. *)
Lemma outputs_own ops this :
  (forall k, k ∈ map fst (_outputArtifacts (construct this)) -> inheritedName k = false) ->
  forall k, k ∈ map fst (_outputArtifacts (construct (performAll this ops).2)) ->
            inheritedName k = false.
Proof.
  apply (performAll_invariant
           (fun st => forall k, k ∈ map fst (_outputArtifacts (construct st)) ->
                                inheritedName k = false)).
  - intros st op st' Hst H. destruct op as [name|c|o].
    + simpl in H. injection H as <-. exact Hst.
    + apply perform_publish in H as (_ & _ & _ & -> & _). exact Hst.
    + apply perform_output in H as ->. simpl. intros k Hk.
      apply stackOutput_keys in Hk as [Hk|[-> Hk]]; auto.
  - intros st t Hst. exact Hst.
Qed.

Lemma outputs_kept ops this k a :
  host_stackOutputArtifact (construct this) k = Own a ->
  host_stackOutputArtifact (construct (performAll this ops).2) k = Own a.
Proof.
  assert (Hown : forall st, host_stackOutputArtifact st k = Own a
                            <-> outputArtifact (_outputArtifacts st) k = Some a).
  { intros st. unfold host_stackOutputArtifact, getProperty.
    destruct (outputArtifact (_outputArtifacts st) k);
      [|destruct (inheritedName k)]; split; congruence. }
  rewrite !Hown.
  apply (performAll_invariant
           (fun st => outputArtifact (_outputArtifacts (construct st)) k = Some a)).
  - intros st op st' Hst H. destruct op as [name|c|o].
    + simpl in H. injection H as <-. exact Hst.
    + apply perform_publish in H as (_ & _ & _ & -> & _). exact Hst.
    + apply perform_output in H as ->. simpl. apply stackOutput_keeps, Hst.
  - intros st t Hst. exact Hst.
Qed.

Lemma outputsNamed_run ops this :
  outputsNamed (construct this) -> outputsNamed (construct (performAll this ops).2).
Proof.
  apply (performAll_invariant (fun st => outputsNamed (construct st))).
  - intros st op st' Hst H. destruct op as [name|c|o].
    + simpl in H. injection H as <-. exact Hst.
    + apply perform_publish in H as (_ & _ & _ & Houts & _).
      unfold outputsNamed. rewrite Houts. exact Hst.
    + apply perform_output in H as ->. simpl. apply stackOutput_named, Hst.
  - intros st t Hst. exact Hst.
Qed.

(** The lookup a stage is given as [host.stackOutputArtifact] reads
    [_outputArtifacts] when it is called.  After a construction and
    operations that all returned, it finds an artifact for a stack exactly
    if [stackOutput] was called for an output of that stack, before or
    after the stage was added; for a stack artifact id that is the name of
    an inherited property it finds that property, and no call of
    [stackOutput] for such a stack has returned; for any other id it finds
    nothing.  An artifact found carries the name made from the stack's
    artifact id, and whatever is done later, the lookup goes on returning
    this artifact. *)
Theorem host_sees_requested_outputs env props this left ops final id :
  CdkPipeline_new env props = (Normal this, left) ->
  performAll (constructed this) ops = (Normal tt, final) ->
  ((exists a, host_stackOutputArtifact (construct final) id = Own a)
   <-> id ∈ requestedOutputs ops)
  /\ (host_stackOutputArtifact (construct final) id = Inherited
      <-> inheritedName id = true)
  /\ (host_stackOutputArtifact (construct final) id = Undefined
      <-> (id ∉ requestedOutputs ops) /\ inheritedName id = false)
  /\ (forall a,
        host_stackOutputArtifact (construct final) id = Own a ->
        artifactName a = Some ("Artifact_" +:+ id +:+ "_Outputs")
        /\ forall later,
             host_stackOutputArtifact (construct (performAll final later).2) id = Own a).
Proof.
  intros Hnew Hrun.
  destruct (constructor_coordinator env props this left Hnew) as (p & _ & Houts & _).
  assert (Hfinal : final = (performAll (constructed this) ops).2)
    by (rewrite Hrun; reflexivity).
  assert (Hkeys : id ∈ map fst (_outputArtifacts (construct final))
                  <-> id ∈ requestedOutputs ops).
  { rewrite (outputs_run ops _ _ id Hrun). simpl. rewrite Houts.
    split; [|auto]. intros [H|H]; [inversion H|exact H]. }
  assert (Hown : id ∈ map fst (_outputArtifacts (construct final)) ->
                 inheritedName id = false).
  { rewrite Hfinal. apply outputs_own. simpl. rewrite Houts. intros k Hk. inversion Hk. }
  rewrite <- Hkeys, <- outputArtifact_is_Some in *.
  unfold host_stackOutputArtifact at 1 2 3. unfold getProperty.
  destruct (outputArtifact (_outputArtifacts (construct final)) id) as [b|] eqn:Hlook.
  - specialize (Hown (ltac:(eauto))).
    split; [split; eauto|]. split; [split; congruence|].
    split; [split; [discriminate|intros [H _]; exfalso; apply H; eauto]|].
    intros a Ha. split.
    + assert (Hnamed : outputsNamed (construct final)).
      { rewrite Hfinal. apply outputsNamed_run. intros k c Hin. simpl in Hin.
        rewrite Houts in Hin. inversion Hin. }
      apply Hnamed, outputArtifact_Some. unfold host_stackOutputArtifact, getProperty in Ha.
      rewrite Hlook in Ha. congruence.
    + intros later. apply outputs_kept, Ha.
  - split; [split; [intros [a Ha]|intros [a Ha]; discriminate Ha]|].
    { destruct (inheritedName id); discriminate Ha. }
    destruct (inheritedName id) eqn:Hname.
    + split; [split; auto|]. split; [split; [discriminate|intros [_ H]; discriminate H]|].
      intros a Ha. unfold host_stackOutputArtifact, getProperty in Ha.
      rewrite Hlook, Hname in Ha. discriminate Ha.
    + split; [split; [discriminate|discriminate]|].
      split; [split; [intros _; split; [intros [a Ha]; discriminate Ha|reflexivity]|auto]|].
      intros a Ha. unfold host_stackOutputArtifact, getProperty in Ha.
      rewrite Hlook, Hname in Ha. discriminate Ha.
Qed.

Lemma host_sees_requested_outputs_witness :
  requestedOutputs session = ["Api"]
  /\ ((exists a,
         host_stackOutputArtifact
           (construct (performAll (constructed builtPipeline) session).2) "Api" = Own a)
      <-> "Api" ∈ requestedOutputs session)
  /\ host_stackOutputArtifact
       (construct (performAll (constructed builtPipeline) session).2) "Web" = Undefined
  /\ host_stackOutputArtifact
       (construct (performAll (constructed builtPipeline) session).2) "constructor"
     = Inherited.
Proof.
  split; [vm_compute; reflexivity|]. split; [|split; vm_compute; reflexivity].
  apply (host_sees_requested_outputs appEnv bothActionsProps builtPipeline
           (Some (_pipeline builtPipeline)) session
           (performAll (constructed builtPipeline) session).2 "Api").
  - vm_compute. reflexivity.
  - vm_compute. reflexivity.
Defined.
